(** * CNC Archiver: the polling / archival engine of [archiverWIN7.py]

    A shallow embedding of the text extractor ([extract_cnc_time],
    [PollingEngine._parse_material]) and of the polling engine
    ([PollingEngine._run] and the four folder steps), with the properties
    stated in the design document proved or refuted on it; then of the
    helpers, the statistics, the two queries of [Database], the restore
    action of the main window and the validation of the set-up wizard, with
    further properties read off the code. *)

From Stdlib Require Import ZArith NArith List String Ascii Bool Lia DecimalString
  DecimalPos DecimalN Sorted.
From stdpp Require Import gmap list.
Import ListNotations.

Local Open Scope N_scope.

(** ** Python strings

    A Python [str] is a sequence of Unicode code points; a code point is a
    natural number.  String literals of the source are written [py "..."]. *)

Definition char := N.
Abbreviation str := (list N).

Definition py (s : string) : str :=
  List.map N_of_ascii (list_ascii_of_string s).

(** The sentinel of the source, the Polish word for "none". *)
Definition Brak : str := py "Brak".

(** [str.isspace] for one character, which is also the class [\s] of a
    [str] pattern: the code points the Unicode database marks as white
    space. *)
Definition py_isspace (c : char) : bool :=
  ((9 <=? c) && (c <=? 13)) || ((28 <=? c) && (c <=? 32))
  || (c =? 133) || (c =? 160) || (c =? 5760)
  || ((8192 <=? c) && (c <=? 8202))
  || (c =? 8232) || (c =? 8233) || (c =? 8239) || (c =? 8287) || (c =? 12288).

(** The line boundaries of [str.splitlines], apart from the pair CR LF. *)
Definition is_linebreak (c : char) : bool :=
  ((10 <=? c) && (c <=? 13)) || ((28 <=? c) && (c <=? 30))
  || (c =? 133) || (c =? 8232) || (c =? 8233).

Fixpoint lstrip (s : str) : str :=
  match s with
  | c :: s' => if py_isspace c then lstrip s' else s
  | [] => []
  end.

Definition rstrip (s : str) : str := rev (lstrip (rev s)).

(** [s.strip()] *)
Definition strip (s : str) : str := lstrip (rstrip s).

(** [s.startswith(c)] for a one-character prefix. *)
Definition startswith (s : str) (c : char) : bool :=
  match s with
  | c' :: _ => c' =? c
  | [] => false
  end.

(** [c in s] for a one-character needle. *)
Definition contains (c : char) (s : str) : bool := existsb (N.eqb c) s.

(** [s.replace(a, b)] for one-character [a] and [b]. *)
Definition replace (a b : char) (s : str) : str :=
  List.map (fun c => if c =? a then b else c) s.

(** [s.split(sep, 1)] for a one-character separator: one part when [sep]
    does not occur, otherwise the text before and after its first
    occurrence. *)
Fixpoint split1 (sep : char) (s : str) : list str :=
  match s with
  | [] => [[]]
  | c :: s' =>
      if c =? sep then [[]; s']
      else match split1 sep s' with
           | l :: rest => (c :: l) :: rest
           | [] => [[c]]
           end
  end.

(** [s.splitlines()]: [cur] is the current line, reversed. *)
Fixpoint splitlines_from (cur : str) (s : str) : list str :=
  match s with
  | [] => match cur with [] => [] | _ => [rev cur] end
  | c :: s' =>
      if c =? 13 then
        match s' with
        | 10 :: s'' => rev cur :: splitlines_from [] s''
        | _ => rev cur :: splitlines_from [] s'
        end
      else if is_linebreak c then rev cur :: splitlines_from [] s'
      else splitlines_from (c :: cur) s'
  end.

Definition splitlines (s : str) : list str := splitlines_from [] s.

(** ** Regular expressions

    The fragment of Python's [re] the source uses.  Every quantifier of the
    source's patterns ranges over a single-character atom, except [?] on a
    non-capturing group; every pattern has at most one capturing group, so a
    pattern is a prefix, the group and a suffix. *)

Inductive atom :=
| ALit (c : char)          (* a literal character *)
| ASet (cs : list char)    (* [...] *)
| ADigit                   (* \d *)
| ASpace                   (* \s *)
| ADot.                    (* . *)

Inductive regex :=
| REps
| RAtom (a : atom)
| RRep (a : atom) (lo : nat) (hi : option nat) (greedy : bool)
| ROpt (r : regex)         (* (?:r)? *)
| RSeq (r1 r2 : regex)
| RAlt (r1 r2 : regex)
| REol.                    (* $ *)

Record pattern := Pattern { pre : regex; grp : regex; post : regex }.

Record flags := Flags { IGNORECASE : bool; MULTILINE : bool }.

Definition ascii_lower (c : char) : char :=
  if (65 <=? c) && (c <=? 90) then c + 32 else c.

(** The simple lower-case mapping of the Unicode database, on the code
    points it sends to an ASCII letter: the ASCII capitals, U+0130 and the
    Kelvin sign U+212A.  Every other code point is left as it is, which is
    all a comparison with an ASCII letter can see. *)
Definition sre_lower (c : char) : char :=
  if c =? 304 then 105 else if c =? 8490 then 107 else ascii_lower c.

(** A literal of a pattern against a character of the text.  Under
    [IGNORECASE] the text character is lower-cased and compared with the
    lower-cased literal and its case-fix partner (dotless i U+0131 for [i],
    long s U+017F for [s]).  The literals of the source are ASCII. *)
Definition lit_matches (fl : flags) (p c : char) : bool :=
  if IGNORECASE fl then
    let lo := ascii_lower p in
    let lc := sre_lower c in
    (lc =? lo) || ((lo =? 105) && (lc =? 305)) || ((lo =? 115) && (lc =? 383))
  else c =? p.

Section Regex.

(** The Unicode decimal digits (category Nd) above ASCII: a table of the
    Unicode database, taken as a parameter. *)
Variable nd_high : char -> bool.

Definition is_digit (c : char) : bool :=
  if c <? 128 then (48 <=? c) && (c <=? 57) else nd_high c.

Definition atom_matches (fl : flags) (a : atom) (c : char) : bool :=
  match a with
  | ALit p => lit_matches fl p c
  | ASet cs => existsb (fun p => lit_matches fl p c) cs
  | ADigit => is_digit c
  | ASpace => py_isspace c
  | ADot => negb (c =? 10)
  end.

(** [a{lo,hi}] on [s]: the remainders it can leave, in the order the
    backtracking matcher tries them (longest first when greedy). *)
Fixpoint rep (p : char -> bool) (greedy : bool) (lo : nat) (hi : option nat)
    (s : str) {struct s} : list str :=
  let stop := match lo with O => [s] | _ => [] end in
  let more :=
    match hi with
    | Some O => []
    | _ => match s with
           | c :: s' => if p c then rep p greedy (Nat.pred lo) (option_map Nat.pred hi) s'
                        else []
           | [] => []
           end
    end in
  if greedy then more ++ stop else stop ++ more.

(** [$]: at the end of the text, or before a line feed (before the last
    one only, without [MULTILINE]). *)
Definition at_eol (fl : flags) (s : str) : bool :=
  match s with
  | [] => true
  | 10 :: s' => if MULTILINE fl then true
                else match s' with [] => true | _ => false end
  | _ => false
  end.

(** The remainders [r] can leave on [s], in priority order. *)
Fixpoint rmatch (fl : flags) (r : regex) (s : str) : list str :=
  match r with
  | REps => [s]
  | RAtom a => match s with
               | c :: s' => if atom_matches fl a c then [s'] else []
               | [] => []
               end
  | RRep a lo hi g => rep (atom_matches fl a) g lo hi s
  | ROpt r1 => rmatch fl r1 s ++ [s]
  | RSeq r1 r2 => flat_map (rmatch fl r2) (rmatch fl r1 s)
  | RAlt r1 r2 => rmatch fl r1 s ++ rmatch fl r2 s
  | REol => if at_eol fl s then [s] else []
  end.

(** The matches of a pattern that start at the head of [s]: the text of
    group 1, in priority order. *)
Definition match_here (fl : flags) (p : pattern) (s : str) : list str :=
  flat_map (fun s1 =>
    flat_map (fun s2 =>
      List.map (fun _ => take (length s1 - length s2)%nat s1) (rmatch fl (post p) s2))
      (rmatch fl (grp p) s1))
    (rmatch fl (pre p) s).

(** [re.search(p, s, fl)]: group 1 of the first match at the leftmost
    position that has one, [None] when no position has. *)
Fixpoint re_search (fl : flags) (p : pattern) (s : str) : option str :=
  match match_here fl p s with
  | g :: _ => Some g
  | [] => match s with
          | [] => None
          | _ :: s' => re_search fl p s'
          end
  end.

(** *** The patterns of the source *)

Fixpoint lits (s : str) : regex :=
  match s with
  | [] => REps
  | [c] => RAtom (ALit c)
  | c :: s' => RSeq (RAtom (ALit c)) (lits s')
  end.

Definition seqs (rs : list regex) : regex := fold_right RSeq REps rs.

Definition star (a : atom) := RRep a 0 None true.
Definition plus (a : atom) := RRep a 1 None true.
Definition digits (lo hi : nat) := RRep ADigit lo (Some hi) true.
Definition colon := RAtom (ALit 58).

(** [(?:[.,]\d+)?] *)
Definition fraction : regex :=
  ROpt (RSeq (RAtom (ASet (py ".,"))) (plus ADigit)).

(** [\d{lo,2}:\d{2}:\d{2}] *)
Definition hms (lo : nat) : regex :=
  seqs [digits lo 2; colon; digits 2 2; colon; digits 2 2].

(** [(?:Cycle\s+)?Time\s*[:=]\s*(\d{1,2}:\d{2}:\d{2}(?:[.,]\d+)?)] *)
Definition pattern_fanuc : pattern :=
  Pattern
    (seqs [ROpt (RSeq (lits (py "Cycle")) (plus ASpace)); lits (py "Time");
           star ASpace; RAtom (ASet (py ":=")); star ASpace])
    (RSeq (hms 1) fraction)
    REps.

(** [[;#]TIME[=:]\s*(\d{2}:\d{2}:\d{2}(?:[.,]\d+)?)] *)
Definition pattern_siemens : pattern :=
  Pattern
    (seqs [RAtom (ASet (py ";#")); lits (py "TIME"); RAtom (ASet (py "=:"));
           star ASpace])
    (RSeq (hms 2) fraction)
    REps.

(** [(?:CUT\s+TIME|RUN\s+TIME)\s+(\d{1,2}:\d{2}:\d{2})] *)
Definition pattern_mazak : pattern :=
  Pattern
    (seqs [RAlt (seqs [lits (py "CUT"); plus ASpace; lits (py "TIME")])
                (seqs [lits (py "RUN"); plus ASpace; lits (py "TIME")]);
           plus ASpace])
    (hms 1)
    REps.

(** [\((\d{2}:\d{2}:\d{2}(?:[.,]\d+)?)\)] *)
Definition pattern_parens : pattern :=
  Pattern (RAtom (ALit 40)) (RSeq (hms 2) fraction) (RAtom (ALit 41)).

(** [(\d{2}:\d{2}:\d{2}(?:[.,]\d+)?)\s*$] *)
Definition pattern_trailing : pattern :=
  Pattern REps (RSeq (hms 2) fraction) (RSeq (star ASpace) REol).

Definition patterns : list pattern :=
  [pattern_fanuc; pattern_siemens; pattern_mazak; pattern_parens;
   pattern_trailing].

Definition time_flags : flags := Flags true true.

(** The loop of [extract_cnc_time] over the patterns. *)
Fixpoint first_match (ps : list pattern) (text : str) : option str :=
  match ps with
  | [] => None
  | p :: ps' =>
      match re_search time_flags p text with
      | Some g => Some (strip (replace 44 46 g))
      | None => first_match ps' text
      end
  end.

Definition extract_cnc_time (text : str) : str :=
  match first_match patterns text with
  | Some t => t
  | None => Brak
  end.

End Regex.

(** ** [PollingEngine._parse_material] *)

Definition nonblank_lines (text : str) : list str :=
  List.map strip (List.filter (fun l => negb (Nat.eqb (length (strip l)) 0)) (splitlines text)).

Definition is_candidate (line : str) : bool :=
  contains 45 line && negb (startswith line 40).

Definition split_material (first : str) : str * str :=
  if negb (contains 45 first) then (take 50 first, Brak)
  else
    let parts := split1 45 first in
    let material := take 50 (strip (nth 0 parts [])) in
    let grubosc :=
      if (1 <? length parts)%nat then take 20 (strip (nth 1 parts [])) else Brak in
    (material, grubosc).

Definition _parse_material (text : str) : str * str :=
  let lines := nonblank_lines text in
  match lines with
  | [] => (Brak, Brak)
  | first :: _ =>
      if startswith first 40 || startswith first 59 then
        match List.find is_candidate (take 2 (drop 1 lines)) with
        | Some line => split_material line
        | None => (Brak, Brak)
        end
      else split_material first
  end.

(** ** Time

    A [datetime] is a number of microseconds on the wall clock, a
    [timedelta] a difference of two. *)

Local Open Scope Z_scope.

Abbreviation datetime := Z.
Abbreviation timedelta := Z.

(** [ARCHIVE_DELAY = 7 * 60], in seconds. *)
Definition ARCHIVE_DELAY : Z := 7 * 60.

Definition usec_per_sec : Z := 1000000.

(** A [float] is given by its numerator over 2^1074: every finite binary64
    number is a whole multiple of 2^-1074. *)
Abbreviation float := Z.

Definition float_unit : Z := 2 ^ 1074.

(** The integer nearest to [n / d], the even one of two equally near. *)
Definition round_half_even (n d : Z) : Z :=
  let q := n / d in
  let r := n mod d in
  if 2 * r <? d then q
  else if d <? 2 * r then q + 1
  else if Z.even q then q else q + 1.

(** [a / b] for two ints, [a >= 0] and [b > 0]: the division is correctly
    rounded, to the float nearest to the quotient, ties to even.  Around a
    quotient of 2^L units or more and less than 2^(L+1) the floats are 2^(L-52)
    units apart, and one unit apart where [L] is less than 52.  No quotient
    of a [timedelta] comes near the largest float, where the division raises
    OverflowError. *)
Definition true_divide (a b : Z) : float :=
  let n := a * float_unit in
  let ulp := 2 ^ Z.max 0 (Z.log2 (n / b) - 52) in
  round_half_even n (b * ulp) * ulp.

(** [td.total_seconds()]: the microseconds of [td] divided by [10**6]. *)
Definition timedelta_total_seconds (td : timedelta) : float :=
  Z.sgn td * true_divide (Z.abs td) usec_per_sec.

(** [int(x)] truncates towards zero. *)
Definition int_of_float (x : float) : Z := Z.quot x float_unit.

(** [f"{n:02d}"] *)
Definition format_02d (n : Z) : str :=
  let ds := py (NilZero.string_of_uint (N.to_uint (Z.abs_N n))) in
  if n <? 0 then 45%N :: ds
  else if (length ds <? 2)%nat then 48%N :: ds else ds.

(** [format_timedelta]: [//] and [%] round down. *)
Definition format_timedelta (td : timedelta) : str :=
  let total_seconds := int_of_float (timedelta_total_seconds td) in
  let hours := total_seconds / 3600 in
  let minutes := (total_seconds mod 3600) / 60 in
  let seconds := total_seconds mod 60 in
  format_02d hours ++ [58%N] ++ format_02d minutes ++ [58%N] ++ format_02d seconds.

(** ** Data *)

Record FileRecord := mkFileRecord {
  id : option Z;
  nazwa : str;
  sciezka_a : str;
  sciezka_b : str;
  sciezka_c : str;
  czas_wrzucenia : datetime;
  czas_pobrania : option datetime;
  czas_archiwizacji : option datetime;
  czas_cyklu_ab : option str;
  material : str;
  grubosc : str;
  czas_realny_cnc : str
}.

(** The configuration: the four folders. *)
Record config := Config {
  folder_a : str; folder_b : str; folder_c : str; folder_d : str
}.

(** Every call the engine makes to the operating system or the database
    leaves an event, in order. *)
Inductive event :=
| CycleStart
| Listdir (path : str)
| Isfile (path : str)
| Getsize (path : str)
| Sleep (path : str)
| Exists (path : str)
| Copy2 (src dst : str)
| Replace (src dst : str)
| Remove (path : str)
| Insert (record : FileRecord)
| Getmtime (path : str)
| ReadText (path : str)
| UpdateCnc (name mat gru czas : str).

(** The engine's attributes ([waiting] keeps the insertion order of the
    Python dict, which is the order [_process_folder_b] visits it in)
    followed by the world it acts on: the regular files of the folders A, B
    and C by path, the rows of table [pliki], and the event log.  The
    [start_time] statistic is left out. *)
Record state := State {
  waiting : list (str * (str * datetime));
  seen_in_b : gmap str datetime;
  last_b_time : option datetime;
  d_cache : gmap str Z;
  processed : Z;
  errors : Z;
  fs : gmap str (list Byte.byte);
  db : list FileRecord;
  trace : list event
}.

Definition set_waiting (f : list (str * (str * datetime)) -> list (str * (str * datetime)))
    (s : state) : state :=
  State (f (waiting s)) (seen_in_b s) (last_b_time s) (d_cache s) (processed s)
        (errors s) (fs s) (db s) (trace s).
Definition set_seen_in_b (f : gmap str datetime -> gmap str datetime) (s : state) : state :=
  State (waiting s) (f (seen_in_b s)) (last_b_time s) (d_cache s) (processed s)
        (errors s) (fs s) (db s) (trace s).
Definition set_last_b_time (t : option datetime) (s : state) : state :=
  State (waiting s) (seen_in_b s) t (d_cache s) (processed s)
        (errors s) (fs s) (db s) (trace s).
Definition set_d_cache (f : gmap str Z -> gmap str Z) (s : state) : state :=
  State (waiting s) (seen_in_b s) (last_b_time s) (f (d_cache s)) (processed s)
        (errors s) (fs s) (db s) (trace s).
Definition incr_processed (s : state) : state :=
  State (waiting s) (seen_in_b s) (last_b_time s) (d_cache s) (processed s + 1)
        (errors s) (fs s) (db s) (trace s).
Definition incr_errors (s : state) : state :=
  State (waiting s) (seen_in_b s) (last_b_time s) (d_cache s) (processed s)
        (errors s + 1) (fs s) (db s) (trace s).
Definition set_fs (f : gmap str (list Byte.byte) -> gmap str (list Byte.byte))
    (s : state) : state :=
  State (waiting s) (seen_in_b s) (last_b_time s) (d_cache s) (processed s)
        (errors s) (f (fs s)) (db s) (trace s).
Definition set_db (f : list FileRecord -> list FileRecord) (s : state) : state :=
  State (waiting s) (seen_in_b s) (last_b_time s) (d_cache s) (processed s)
        (errors s) (fs s) (f (db s)) (trace s).
Definition log_event (ev : event) (s : state) : state :=
  State (waiting s) (seen_in_b s) (last_b_time s) (d_cache s) (processed s)
        (errors s) (fs s) (db s) (trace s ++ [ev]).

(** [PollingEngine.__init__], on a given world. *)
Definition init (files : gmap str (list Byte.byte)) (rows : list FileRecord) : state :=
  State [] ∅ None ∅ 0 0 files rows [].

(** *** The dict [waiting], in insertion order *)

Definition dict_get {V} (k : str) (d : list (str * V)) : option V :=
  snd <$> List.find (fun kv => bool_decide (fst kv = k)) d.

Definition dict_mem {V} (k : str) (d : list (str * V)) : bool :=
  bool_decide (is_Some (dict_get k d)).

Fixpoint dict_set {V} (k : str) (v : V) (d : list (str * V)) : list (str * V) :=
  match d with
  | [] => [(k, v)]
  | (k', v') :: d' =>
      if bool_decide (k' = k) then (k, v) :: d' else (k', v') :: dict_set k v d'
  end.

Definition dict_del {V} (k : str) (d : list (str * V)) : list (str * V) :=
  List.filter (fun kv => negb (bool_decide (fst kv = k))) d.

Definition dict_keys {V} (d : list (str * V)) : list str := List.map fst d.

(** ** Exceptions and the engine's monad *)

Inductive exn :=
| OSError (msg : string)      (* IOError is the same class *)
| KeyError
| Error (msg : string).       (* any other Exception: ValueError, sqlite3.Error *)

Definition is_OSError (e : exn) : bool :=
  match e with OSError _ => true | _ => false end.

Inductive res (A : Type) :=
| Ok (a : A)
| Raise (e : exn).
Arguments Ok {A} a.
Arguments Raise {A} e.

Definition M (A : Type) : Type := state -> res A * state.

#[global] Instance M_ret : MRet M := fun A (a : A) (s : state) => (Ok a, s).
#[global] Instance M_bind : MBind M := fun A B (f : A -> M B) (m : M A) (s : state) =>
  match m s with
  | (Ok a, s') => f a s'
  | (Raise e, s') => (Raise e, s')
  end.

Definition ret {A} (a : A) : M A := mret a.
Definition raise {A} (e : exn) : M A := fun s => (Raise e, s).
Definition gets {A} (f : state -> A) : M A := fun s => (Ok (f s), s).
Definition modify (f : state -> state) : M unit := fun s => (Ok tt, f s).
Definition emit (ev : event) : M unit := modify (log_event ev).

(** [try: m except <the exceptions of [catches]>: h] *)
Definition try_except {A} (m : M A) (catches : exn -> bool) (h : exn -> M A) : M A :=
  fun s =>
    match m s with
    | (Raise e, s') => if catches e then h e s' else (Raise e, s')
    | r => r
    end.

Definition any_Exception (e : exn) : bool := true.

(** [for x in xs: body], with an accumulator for the loop's local state. *)
Fixpoint for_each {X A} (xs : list X) (body : A -> X -> M A) (acc : A) : M A :=
  match xs with
  | [] => mret acc
  | x :: xs' => acc' ← body acc x; for_each xs' body acc'
  end.

(** ** The environment of one polling cycle

    What the operating system and the database answer during one cycle:
    which names a folder lists, which calls fail and how, what other
    processes do to the files while the engine sleeps, the clock readings,
    and the reports of folder D as they read in this cycle. *)

Inductive ls_result :=
| LsNames (names : list str)
| LsOSError                   (* the folder cannot be read *)
| LsError.                    (* os.listdir raises something else, as
                                 ValueError on a path with a NUL in it *)

Inductive copy_result :=
| CopyDone                    (* every byte arrives *)
| CopyTruncated (n : nat)     (* returns, but only [n] bytes arrive *)
| CopyMissing                 (* returns, but the target is not there *)
| CopyError                   (* raises, nothing written *)
| CopyErrorPartial (n : nat). (* raises after [n] bytes *)

Inductive replace_result :=
| ReplaceDone
| ReplaceVanished             (* returns, but the target is not there *)
| ReplaceError.

Record env := Env {
  listdir_result : str -> ls_result;
  during_sleep : str -> gmap str (list Byte.byte) -> gmap str (list Byte.byte);
  clock_a : str -> datetime;
  clock_b : datetime;
  copy_result_of : str -> copy_result;
  replace_result_of : str -> replace_result;
  remove_fails : str -> bool;
  insert_fails : str -> bool;
  getmtime_result : str -> option Z;
  read_result : str -> option str;
  update_fails : str -> bool;
  meanwhile : gmap str (list Byte.byte) -> gmap str (list Byte.byte)
}.

(** [os.path.join(folder, name)] on Windows, for a name without drive or
    separator, which is what [os.listdir] yields. *)
Definition path_join (folder name : str) : str :=
  match last folder with
  | None => name
  | Some c => if ((c =? 92) || (c =? 47) || (c =? 58))%N then folder ++ name
              else folder ++ [92%N] ++ name
  end.

(** *** Calls to the operating system *)

Definition os_listdir (e : env) (path : str) : M (list str) :=
  emit (Listdir path);;
  match listdir_result e path with
  | LsNames names => ret names
  | LsOSError => raise (OSError "listdir")
  | LsError => raise (Error "listdir")
  end.

Definition os_path_isfile (path : str) : M bool :=
  emit (Isfile path);;
  gets (fun s => bool_decide (is_Some (fs s !! path))).

Definition os_path_exists (path : str) : M bool :=
  emit (Exists path);;
  gets (fun s => bool_decide (is_Some (fs s !! path))).

Definition os_path_getsize (path : str) : M Z :=
  emit (Getsize path);;
  content ← gets (fun s => fs s !! path);
  match content with
  | Some bytes => ret (Z.of_nat (length bytes))
  | None => raise (OSError "getsize")
  end.

Definition time_sleep (e : env) (path : str) : M unit :=
  emit (Sleep path);;
  modify (set_fs (during_sleep e path)).

Definition shutil_copy2 (e : env) (src dst : str) : M unit :=
  emit (Copy2 src dst);;
  content ← gets (fun s => fs s !! src);
  match content with
  | None => raise (OSError "copy2")
  | Some bytes =>
      match copy_result_of e dst with
      | CopyDone => modify (set_fs <[dst := bytes]>)
      | CopyTruncated n => modify (set_fs <[dst := take n bytes]>)
      | CopyMissing => modify (set_fs (delete dst))
      | CopyError => raise (OSError "copy2")
      | CopyErrorPartial n =>
          modify (set_fs <[dst := take n bytes]>);; raise (OSError "copy2")
      end
  end.

Definition os_replace (e : env) (src dst : str) : M unit :=
  emit (Replace src dst);;
  content ← gets (fun s => fs s !! src);
  match content with
  | None => raise (OSError "replace")
  | Some bytes =>
      match replace_result_of e dst with
      | ReplaceDone => modify (set_fs (fun m => <[dst := bytes]> (delete src m)))
      | ReplaceVanished => modify (set_fs (fun m => delete dst (delete src m)))
      | ReplaceError => raise (OSError "replace")
      end
  end.

Definition os_remove (e : env) (path : str) : M unit :=
  emit (Remove path);;
  content ← gets (fun s => fs s !! path);
  match content with
  | None => raise (OSError "remove")
  | Some _ =>
      if remove_fails e path then raise (OSError "remove")
      else modify (set_fs (delete path))
  end.

(** [os.path.getmtime]: the float of the source is only compared for
    equality with the cached one, so any type with decidable equality
    stands for it. *)
Definition os_path_getmtime (e : env) (path : str) : M Z :=
  emit (Getmtime path);;
  match getmtime_result e path with
  | Some mtime => ret mtime
  | None => raise (OSError "getmtime")
  end.

(** [detect_encoding], [open] and [f.read()] of a report. *)
Definition read_text (e : env) (path : str) : M str :=
  emit (ReadText path);;
  match read_result e path with
  | Some content => ret content
  | None => raise (Error "read")
  end.

(** *** [Database] *)

Definition with_id (i : Z) (r : FileRecord) : FileRecord :=
  mkFileRecord (Some i) (nazwa r) (sciezka_a r) (sciezka_b r) (sciezka_c r)
    (czas_wrzucenia r) (czas_pobrania r) (czas_archiwizacji r) (czas_cyklu_ab r)
    (material r) (grubosc r) (czas_realny_cnc r).

Definition with_cnc (mat gru czas : str) (r : FileRecord) : FileRecord :=
  mkFileRecord (id r) (nazwa r) (sciezka_a r) (sciezka_b r) (sciezka_c r)
    (czas_wrzucenia r) (czas_pobrania r) (czas_archiwizacji r) (czas_cyklu_ab r)
    mat gru czas.

(** The largest id in the table, 0 when it is empty. *)
Definition max_rowid (rows : list FileRecord) : Z :=
  fold_right (fun r largest => Z.max (default 0 (id r)) largest) 0 rows.

(** [Database.insert]: the row is written whole or, when the transaction
    fails, not at all.  The three timestamps are stored formatted to the
    second ([strftime]); the record here keeps the clock readings they are
    formatted from.  The column [id] is [INTEGER PRIMARY KEY AUTOINCREMENT]:
    the row gets one more than the largest id the table has ever held.  No
    statement of the program deletes a row, so the table holds every row it
    has ever held and that id is the largest in it. *)
Definition Database_insert (e : env) (record : FileRecord) : M Z :=
  emit (Insert record);;
  if insert_fails e (nazwa record) then raise (Error "sqlite3")
  else
    rows ← gets db;
    let rowid := max_rowid rows + 1 in
    modify (set_db (fun rows => rows ++ [with_id rowid record]));;
    ret rowid.

(** [Database.update_cnc_data]: every row of that name; the answer is
    whether there was one. *)
Definition Database_update_cnc_data (e : env) (name mat gru czas : str) : M bool :=
  emit (UpdateCnc name mat gru czas);;
  if update_fails e name then raise (Error "sqlite3")
  else
    rows ← gets db;
    modify (set_db (List.map (fun r =>
      if bool_decide (nazwa r = name) then with_cnc mat gru czas r else r)));;
    ret (existsb (fun r => bool_decide (nazwa r = name)) rows).

(** ** [PollingEngine] *)

Section Engine.

Variable nd_high : char -> bool.
Variable cfg : config.

Definition name_flags : flags := Flags true false.

(** [\.iso$] *)
Definition ISO_PATTERN : pattern :=
  Pattern (RSeq (lits (py ".iso")) REol) REps REps.

(** [\.txt$] *)
Definition TXT_PATTERN : pattern :=
  Pattern (RSeq (lits (py ".txt")) REol) REps REps.

(** [#(.+?)\.iso\.txt$] *)
Definition ISO_EXTRACT_PATTERN : pattern :=
  Pattern (RAtom (ALit 35%N)) (RRep ADot 1 None false)
          (RSeq (lits (py ".iso.txt")) REol).

Definition name_search (p : pattern) (name : str) : option str :=
  re_search nd_high name_flags p name.

Definition name_matches (p : pattern) (name : str) : bool :=
  bool_decide (is_Some (name_search p name)).

(** [_safe_listdir] *)
Definition _safe_listdir (e : env) (path : str) : M (list str) :=
  try_except (os_listdir e path) is_OSError (fun _ => ret []).

(** The body of the loop of [_process_folder_a]. *)
Definition scan_a_file (e : env) (filename : str) : M unit :=
  if negb (name_matches ISO_PATTERN filename) then ret tt else
  w ← gets waiting;
  if dict_mem filename w then ret tt else
  let full_path := path_join (folder_a cfg) filename in
  isfile ← os_path_isfile full_path;
  if negb isfile then ret tt else
  stable ← try_except
    (initial_size ← os_path_getsize full_path;
     time_sleep e full_path;;
     size ← os_path_getsize full_path;
     ret (size =? initial_size))
    is_OSError (fun _ => ret false);
  if negb stable then ret tt else
  modify (set_waiting (dict_set filename (full_path, clock_a e filename))).

Definition _process_folder_a (e : env) : M unit :=
  files ← _safe_listdir e (folder_a cfg);
  for_each files (fun _ filename => scan_a_file e filename) tt.

Definition _archive_file (e : env) (filename : str) (now : datetime) : M unit :=
  w ← gets waiting;
  match dict_get filename w with
  | None => raise KeyError
  | Some (path_a, time_added) =>
      let path_c := path_join (folder_c cfg) filename in
      let path_b := path_join (folder_b cfg) filename in
      let temp_path := path_c ++ py ".tmp" in
      try_except
        ((* 1 *)
         shutil_copy2 e path_a temp_path;;
         (* 2 *)
         made ← os_path_exists temp_path;
         if negb made then raise (OSError "Plik tymczasowy nie został utworzony") else
         temp_size ← os_path_getsize temp_path;
         size ← os_path_getsize path_a;
         if negb (temp_size =? size)
         then raise (OSError "Rozmiar pliku po kopiowaniu się nie zgadza") else
         (* 3 *)
         os_replace e temp_path path_c;;
         (* 4 *)
         arrived ← os_path_exists path_c;
         if negb arrived then raise (OSError "Plik docelowy nie istnieje po rename") else
         (* 5 *)
         os_remove e path_a;;
         (* 6 *)
         last ← gets last_b_time;
         let cycle_time :=
           match last with
           | Some t => Some (format_timedelta (now - t))
           | None => None
           end in
         modify (set_last_b_time (Some now));;
         (* 7 *)
         seen ← gets seen_in_b;
         match seen !! filename with
         | None => raise KeyError
         | Some time_b =>
             let record :=
               mkFileRecord None filename path_a path_b path_c time_added
                 (Some time_b) (Some now) cycle_time Brak Brak Brak in
             Database_insert e record;;
             (* 8 *)
             modify (set_waiting (dict_del filename));;
             modify (set_seen_in_b (delete filename));;
             modify incr_processed
         end)
        any_Exception
        (fun _ =>
           modify incr_errors;;
           leftover ← os_path_exists temp_path;
           if (leftover : bool)
           then try_except (os_remove e temp_path) is_OSError (fun _ => ret tt)
           else ret tt)
  end.

(** The body of the loop of [_process_folder_b]. *)
Definition check_b_file (e : env) (now : datetime) (filename : str) : M unit :=
  let path_b := path_join (folder_b cfg) filename in
  there ← os_path_exists path_b;
  if negb there then ret tt else
  seen ← gets seen_in_b;
  match seen !! filename with
  | None => modify (set_seen_in_b <[filename := now]>)
  | Some first_seen =>
      let elapsed := timedelta_total_seconds (now - first_seen) in
      if elapsed <? ARCHIVE_DELAY * float_unit then ret tt
      else _archive_file e filename now
  end.

Definition _process_folder_b (e : env) : M unit :=
  let now := clock_b e in
  w ← gets waiting;
  for_each (dict_keys w) (fun _ filename => check_b_file e now filename) tt.

(** One entry of [updates]: material, thickness, time, ISO name. *)
Definition update : Type := str * str * str * str.

(** The body of the scanning loop of [_process_folder_d]. *)
Definition scan_d_file (e : env) (updates : list update) (filename : str)
    : M (list update) :=
  if negb (name_matches TXT_PATTERN filename) then ret updates else
  let full_path := path_join (folder_d cfg) filename in
  changed ← try_except (mtime ← os_path_getmtime e full_path; ret (Some mtime))
              is_OSError (fun _ => ret None);
  match changed with
  | None => ret updates
  | Some mtime =>
      cache ← gets d_cache;
      if bool_decide (cache !! filename = Some mtime) then ret updates else
      modify (set_d_cache <[filename := mtime]>);;
      match name_search ISO_EXTRACT_PATTERN filename with
      | None => ret updates
      | Some token =>
          let iso_name := token ++ py ".iso" in
          read ← try_except (content ← read_text e full_path; ret (Some content))
                   any_Exception (fun _ => ret None);
          match read with
          | None => ret updates
          | Some content =>
              let '(mat, gru) := _parse_material content in
              let cnc_time := extract_cnc_time nd_high content in
              ret (updates ++ [(mat, gru, cnc_time, iso_name)])
          end
      end
  end.

(** The batch at the end of [_process_folder_d]; the accumulator is
    [success_count]. *)
Definition apply_update (e : env) (success_count : Z) (u : update) : M Z :=
  let '(mat, gru, cnc_time, iso_name) := u in
  hit ← Database_update_cnc_data e iso_name mat gru cnc_time;
  ret (if (hit : bool) then success_count + 1 else success_count).

Definition _process_folder_d (e : env) : M unit :=
  files ← _safe_listdir e (folder_d cfg);
  updates ← for_each files (scan_d_file e) [];
  match updates with
  | [] => ret tt
  | _ => for_each updates (apply_update e) 0;; ret tt
  end.

(** The [try] block of [_run]. *)
Definition cycle (e : env) : M unit :=
  _process_folder_a e;;
  _process_folder_b e;;
  _process_folder_d e.

(** One iteration of the loop of [_run]. *)
Definition tick (e : env) : M unit :=
  emit CycleStart;;
  try_except (cycle e) any_Exception (fun _ => modify incr_errors).

(** [_run], for as many iterations as [stop_event] stays clear: one
    environment per iteration; [meanwhile] is what happens to the files
    during the wait that ends it. *)
Fixpoint _run (envs : list env) : M unit :=
  match envs with
  | [] => ret tt
  | e :: envs' => tick e;; modify (set_fs (meanwhile e));; _run envs'
  end.

End Engine.

(** ** [safe_filename] *)

(** The class of the pattern: the characters [<], [>], [:], the double
    quote, [/], the backslash, [|], [?] and [*]. *)
Definition unsafe_chars : list char := [60; 62; 58; 34; 47; 92; 124; 63; 42]%N.

(** [re.sub(class, '_', name)]: the pattern is one character wide, so
    every character of the class is replaced where it stands. *)
Definition safe_filename (name : str) : str :=
  List.map (fun c => if existsb (N.eqb c) unsafe_chars then 95%N else c) name.

(** ** Statistics *)

Record stats := Stats {
  stats_processed : Z;
  stats_errors : Z;
  stats_start_time : datetime;
  waiting_count : nat;
  in_b_count : nat;
  uptime : str
}.

(** [PollingEngine.get_stats]: [start_time] is the clock reading taken by
    [__init__], [now] the present one. *)
Definition get_stats (start_time now : datetime) (s : state) : stats :=
  Stats (processed s) (errors s) start_time
        (length (waiting s)) (size (seen_in_b s))
        (format_timedelta (now - start_time)).

(** [f"{n}"] for an [int]. *)
Definition format_d (n : Z) : str :=
  (if n <? 0 then [45%N] else [])
  ++ py (NilZero.string_of_uint (N.to_uint (Z.abs_N n))).

Inductive colour := red | black.

(** [MainWindow._update_stats]: the text and the colour the label gets. *)
Definition _update_stats (st : stats) : str * colour :=
  (py "Uptime: " ++ uptime st
   ++ py " | Przetworzone: " ++ format_d (stats_processed st)
   ++ py " | B" ++ [322%N; 281%N] ++ py "dy: " ++ format_d (stats_errors st)
   ++ py " | W kolejce A: " ++ format_d (Z.of_nat (waiting_count st))
   ++ py " | W oczekiwaniu B: " ++ format_d (Z.of_nat (in_b_count st)),
   if 0 <? stats_errors st then red else black).

(** ** The queries of [Database]

    SQLite's [LIKE], as the library documents it and as the source uses it
    (no [ESCAPE], case-sensitivity pragma off): [%] stands for any run of
    characters, [_] for any one character, any other character for itself,
    ASCII letters without regard to case.  The operands are read as C
    strings, so each ends at its first NUL. *)

Definition like_eq (p c : char) : bool :=
  ((p =? c) || ((p <? 128) && (c <? 128) && (ascii_lower p =? ascii_lower c)))%N.

Fixpoint like (pat : str) : str -> bool :=
  match pat with
  | [] => fun text => match text with [] => true | _ => false end
  | p :: pat' =>
      if (p =? 37)%N then
        fix any (text : str) : bool :=
          like pat' text
          || match text with [] => false | _ :: text' => any text' end
      else fun text =>
        match text with
        | [] => false
        | c :: text' => ((p =? 95)%N || like_eq p c) && like pat' text'
        end
  end.

Fixpoint c_string (s : str) : str :=
  match s with
  | [] => []
  | c :: s' => if (c =? 0)%N then [] else c :: c_string s'
  end.

Definition sql_like (pat text : str) : bool := like (c_string pat) (c_string text).

(** [WHERE nazwa LIKE ?] with the parameter [f'%{nazwa_pattern}%']. *)
Definition name_like (nazwa_pattern : str) (r : FileRecord) : bool :=
  sql_like ([37%N] ++ nazwa_pattern ++ [37%N]) (nazwa r).

(** [Database.get_by_name]: the columns [sciezka_c] and [nazwa] of the
    matching rows, which a scan of the table yields in the order of their
    insertion.  [fails] is whether the database raises. *)
Definition Database_get_by_name (fails : bool) (nazwa_pattern : str)
    : M (list (str * str)) :=
  if fails then raise (Error "sqlite3")
  else
    rows ← gets db;
    ret (List.map (fun r => (sciezka_c r, nazwa r))
           (List.filter (name_like nazwa_pattern) rows)).

(** The key of [ORDER BY czas_archiwizacji DESC]: the column holds the
    archival time formatted to the second, or NULL, which sorts below every
    text. *)
Definition archived_second (r : FileRecord) : option Z :=
  match czas_archiwizacji r with
  | Some t => Some (t / usec_per_sec)
  | None => None
  end.

Definition not_before (r1 r2 : FileRecord) : bool :=
  match archived_second r2, archived_second r1 with
  | None, _ => true
  | Some _, None => false
  | Some t2, Some t1 => t2 <=? t1
  end.

Fixpoint insert_desc (r : FileRecord) (rows : list FileRecord) : list FileRecord :=
  match rows with
  | [] => [r]
  | r' :: rows' => if not_before r' r then r' :: insert_desc r rows' else r :: rows
  end.

(** SQL leaves the order of rows with equal keys open; this is one. *)
Definition order_by_czas_archiwizacji_desc (rows : list FileRecord) : list FileRecord :=
  fold_right insert_desc [] rows.

(** [Database.search] *)
Definition Database_search (fails : bool) (nazwa_pattern : str)
    : M (list FileRecord) :=
  if fails then raise (Error "sqlite3")
  else
    rows ← gets db;
    ret (order_by_czas_archiwizacji_desc (List.filter (name_like nazwa_pattern) rows)).

(** ** [MainWindow._restore] *)

(** [s.rfind(c)]: the last index of [c], [-1] when there is none. *)
Fixpoint rfind_from (c : char) (s : str) (i found : Z) : Z :=
  match s with
  | [] => found
  | c' :: s' => rfind_from c s' (i + 1) (if (c' =? c)%N then i else found)
  end.

Definition rfind (c : char) (s : str) : Z := rfind_from c s 0 (-1).

(** [os.path.splitext] on Windows: the extension starts at the last dot,
    when this comes after the last separator and after a character of the
    file name that is not a dot. *)
Definition splitext (p : str) : str * str :=
  let sepIndex := Z.max (rfind 92%N p) (rfind 47%N p) in
  let dotIndex := rfind 46%N p in
  if sepIndex <? dotIndex then
    let filenameIndex := sepIndex + 1 in
    if existsb (fun c => negb (c =? 46)%N)
         (take (Z.to_nat (dotIndex - filenameIndex)) (drop (Z.to_nat filenameIndex) p))
    then (take (Z.to_nat dotIndex) p, drop (Z.to_nat dotIndex) p)
    else (p, [])
  else (p, []).

(** What the operator and the clock answer during one action of the main
    window: the text of the search field, the answer to the confirmation,
    whether the query fails, and the clock reading formatted
    [%Y%m%d_%H%M%S] when the row of that index is handled. *)
Record dialog := Dialog {
  search_var : str;
  askyesno : bool;
  query_fails : bool;
  stamp : nat -> str
}.

Inductive restore_report :=
| NoPattern                        (* warning: nothing typed *)
| NotConfirmed
| NothingFound
| Restored (restored failed : Z)   (* the two counts of the message *)
| RestoreFailed.                   (* an exception, shown as an error *)

Section Restore.

Variable cfg : config.
Variable e : env.
Variable d : dialog.

(** The name a file is restored under when its own is taken. *)
Definition restored_name (nazwa : str) (i : nat) : str :=
  let '(base, ext) := splitext nazwa in
  base ++ py "_restored_" ++ stamp d i ++ ext.

(** The body of the loop of [_restore]; the accumulator is [restored] and
    [failed]. *)
Definition restore_row (acc : Z * Z) (irow : nat * (str * str)) : M (Z * Z) :=
  let '(restored, failed) := acc in
  let '(i, (path_c, nazwa)) := irow in
  there ← os_path_exists path_c;
  if negb there then ret (restored, failed + 1) else
  let path_a := path_join (folder_a cfg) nazwa in
  taken ← os_path_exists path_a;
  let path_a :=
    if (taken : bool) then path_join (folder_a cfg) (restored_name nazwa i)
    else path_a in
  shutil_copy2 e path_c path_a;;
  ret (restored + 1, failed).

Definition _restore : M restore_report :=
  let pattern := strip (search_var d) in
  match pattern with
  | [] => ret NoPattern
  | _ =>
      if negb (askyesno d) then ret NotConfirmed else
      try_except
        (rows ← Database_get_by_name (query_fails d) pattern;
         match rows with
         | [] => ret NothingFound
         | _ =>
             counts ← for_each (combine (seq 0 (length rows)) rows) restore_row (0, 0);
             ret (Restored (fst counts) (snd counts))
         end)
        any_Exception
        (fun _ => ret RestoreFailed)
  end.

End Restore.

(** ** [SetupWizard._validate] *)

Inductive validation :=
| NotChosen                          (* a folder is still "Nie wybrano" *)
| NoSuchFolder (key path : str)      (* the first that is no directory *)
| NotDistinct
| Valid (a b c d : str).

(** [isdir] is [os.path.isdir] at the time of the call. *)
Definition _validate (isdir : str -> bool) (a b c d : str) : validation :=
  let paths := [(py "a", a); (py "b", b); (py "c", c); (py "d", d)] in
  if existsb (fun kv => bool_decide (snd kv = py "Nie wybrano")) paths then NotChosen
  else
    match List.find (fun kv => negb (isdir (snd kv))) paths with
    | Some (key, path) => NoSuchFolder key path
    | None =>
        let unique_paths : gset str := list_to_set (List.map snd paths) in
        if (size unique_paths <? 4)%nat then NotDistinct else Valid a b c d
    end.

(** * Vocabulary of the properties *)

(** The table with no digit above ASCII: enough to run the extractor on
    ASCII text, where the table is not consulted. *)
Definition ascii_digits : char -> bool := fun _ => false.

Definition LF : string := String (ascii_of_N 10) EmptyString.

(** The events a computation adds to the log of [s]. *)
Definition events_since (s s' : state) : list event :=
  drop (length (trace s)) (trace s').

(** The names the dict [waiting] has as keys. *)
Definition waiting_dom (s : state) : gset str :=
  list_to_set (dict_keys (waiting s)).

(** A dict has no key twice; every sighting belongs to a file in flight. *)
Definition engine_inv (s : state) : Prop :=
  List.NoDup (dict_keys (waiting s)) /\ dom (seen_in_b s) ⊆ waiting_dom s.


(** A computation that leaves the engine's three dicts as they are. *)
Definition same_dicts (s s' : state) : Prop :=
  waiting s' = waiting s /\ seen_in_b s' = seen_in_b s /\ d_cache s' = d_cache s.

(** A report is cached when the cache holds its present modification
    time. *)
Definition cached (nd : char -> bool) (cfg : config) (e : env) (s : state) (g : str) : Prop :=
  name_matches nd TXT_PATTERN g = true ->
  forall m, getmtime_result e (path_join (folder_d cfg) g) = Some m ->
            d_cache s !! g = Some m.

(** The events of a report scan that skips everything. *)
Definition scan_only (ev : event) : Prop :=
  (exists p, ev = Listdir p) \/ (exists p, ev = Getmtime p).

(** ** The archival transition: what a call can come to *)

Section Outcomes.

Variable cfg : config.
Variable e : env.
Variable filename : str.
Variable now : datetime.

Definition path_c : str := path_join (folder_c cfg) filename.
Definition temp_path : str := path_c ++ py ".tmp".

(** The calls that move the file, in the order of the source. *)
Definition move_events (path_a : str) : list event :=
  [Copy2 path_a temp_path; Exists temp_path; Getsize temp_path; Getsize path_a;
   Replace temp_path path_c; Exists path_c; Remove path_a].

Definition archive_record (path_a : str) (time_added time_b : datetime)
    (last : option datetime) : FileRecord :=
  mkFileRecord None filename path_a (path_join (folder_b cfg) filename) path_c
    time_added (Some time_b) (Some now)
    (match last with Some t => Some (format_timedelta (now - t)) | None => None end)
    Brak Brak Brak.

(** The events after the move: the insert and the clean-up. *)
Definition cleanup_event (ev : event) : Prop :=
  ev = Exists temp_path \/ ev = Remove temp_path \/ exists r, ev = Insert r.

(** The file is archived. *)
Definition archive_done (s s' : state) : Prop :=
  exists path_a time_added bytes time_b,
    dict_get filename (waiting s) = Some (path_a, time_added)
    /\ fs s !! path_a = Some bytes
    /\ seen_in_b s !! filename = Some time_b
    /\ let r := archive_record path_a time_added time_b (last_b_time s) in
       s' = State (dict_del filename (waiting s)) (delete filename (seen_in_b s))
              (Some now) (d_cache s) (processed s + 1) (errors s)
              (delete path_a (<[path_c := bytes]> (delete temp_path
                 (<[temp_path := bytes]> (fs s)))))
              (db s ++ [with_id (max_rowid (db s) + 1) r])
              (trace s ++ move_events path_a ++ [Insert r]).

(** A step up to the removal of the source fails: only the temporary and
    the final path can have changed, and the temporary is gone unless its
    removal failed too; when the failing step is the removal itself, the
    seventh, the final path holds the source's bytes by then. *)
Definition archive_failed_early (s s' : state) : Prop :=
  exists path_a time_added,
    dict_get filename (waiting s) = Some (path_a, time_added)
    /\ waiting s' = waiting s /\ seen_in_b s' = seen_in_b s
    /\ last_b_time s' = last_b_time s /\ d_cache s' = d_cache s
    /\ processed s' = processed s /\ errors s' = errors s + 1
    /\ db s' = db s
    /\ (forall p, p <> temp_path -> p <> path_c -> fs s' !! p = fs s !! p)
    /\ (fs s' !! temp_path = None \/ remove_fails e temp_path = true)
    /\ exists (k : nat) (rest : list event),
         trace s' = trace s ++ take k (move_events path_a) ++ rest
         /\ Forall cleanup_event rest
         /\ ((7 <= k)%nat ->
             exists bytes, fs s !! path_a = Some bytes /\ fs s' !! path_c = Some bytes).

(** The file is moved, then the record cannot be made or written. *)
Definition archive_failed_late (s s' : state) : Prop :=
  exists path_a time_added bytes,
    dict_get filename (waiting s) = Some (path_a, time_added)
    /\ fs s !! path_a = Some bytes
    /\ (insert_fails e filename = true \/ seen_in_b s !! filename = None)
    /\ waiting s' = waiting s /\ seen_in_b s' = seen_in_b s
    /\ last_b_time s' = Some now /\ d_cache s' = d_cache s
    /\ processed s' = processed s /\ errors s' = errors s + 1
    /\ db s' = db s
    /\ fs s' = delete path_a (<[path_c := bytes]> (delete temp_path
                 (<[temp_path := bytes]> (fs s))))
    /\ exists rest, trace s' = trace s ++ move_events path_a ++ rest
                    /\ Forall cleanup_event rest.

End Outcomes.

(** ** A production line to run the engine on *)

Definition demo_cfg : config := Config (py "A") (py "B") (py "C") (py "D").

Definition job1 : str := py "job1.iso".
Definition job2 : str := py "job2.iso".
Definition report1 : str := py "#job1.iso.txt".

Definition demo_bytes : list Byte.byte := [Byte.x47; Byte.x30; Byte.x0a].

Definition seconds (n : Z) : datetime := n * usec_per_sec.

(** Nothing listed, nothing failing, nothing changing. *)
Definition quiet (now : datetime) : env :=
  Env (fun _ => LsNames []) (fun _ files => files) (fun _ => now) now
      (fun _ => CopyDone) (fun _ => ReplaceDone) (fun _ => false) (fun _ => false)
      (fun _ => None) (fun _ => None) (fun _ => false) (fun files => files).


(** Folder A lists [names]; [after] is what the operator does next. *)
Definition intake (now : datetime) (names : list str)
    (after : gmap str (list Byte.byte) -> gmap str (list Byte.byte)) : env :=
  Env (fun path => if bool_decide (path = folder_a demo_cfg) then LsNames names
                   else LsNames [])
      (fun _ files => files) (fun _ => now) now
      (fun _ => CopyDone) (fun _ => ReplaceDone) (fun _ => false) (fun _ => false)
      (fun _ => None) (fun _ => None) (fun _ => false) after.

(** The database refuses the insert. *)
Definition database_down (now : datetime) : env :=
  Env (fun _ => LsNames []) (fun _ files => files) (fun _ => now) now
      (fun _ => CopyDone) (fun _ => ReplaceDone) (fun _ => false) (fun _ => true)
      (fun _ => None) (fun _ => None) (fun _ => false) (fun files => files).

(** Folder A cannot be listed: its configured path has a NUL in it, so
    [os.listdir] raises ValueError. *)
Definition intake_unlistable (now : datetime) : env :=
  Env (fun path => if bool_decide (path = folder_a demo_cfg) then LsError
                   else LsNames [])
      (fun _ files => files) (fun _ => now) now
      (fun _ => CopyDone) (fun _ => ReplaceDone) (fun _ => false) (fun _ => false)
      (fun _ => None) (fun _ => None) (fun _ => false) (fun files => files).

(** Folder D holds one report, last modified at [mtime]. *)
Definition one_report (name : str) (mtime : Z) (content : option str) : env :=
  Env (fun path => if bool_decide (path = folder_d demo_cfg) then LsNames [name]
                   else LsNames [])
      (fun _ files => files) (fun _ => 0) 0
      (fun _ => CopyDone) (fun _ => ReplaceDone) (fun _ => false) (fun _ => false)
      (fun path => if bool_decide (path = path_join (folder_d demo_cfg) name)
                   then Some mtime else None)
      (fun _ => content) (fun _ => false) (fun files => files).

(** [job1.iso] is in flight, seen at the machine stage at [sighted]. *)
Definition job1_at_machine (sighted : datetime) (last : option datetime) : state :=
  State [(job1, (path_join (folder_a demo_cfg) job1, seconds 1))]
        {[ job1 := sighted ]} last ∅ 0 0
        {[ path_join (folder_a demo_cfg) job1 := demo_bytes;
           path_join (folder_b demo_cfg) job1 := demo_bytes ]}
        [] [].

(** [job1.iso] and [job2.iso] are in flight and both at the machine stage,
    the first seen there at [sighted], the second not yet. *)
Definition two_at_machine (sighted : datetime) : state :=
  State [(job1, (path_join (folder_a demo_cfg) job1, seconds 1));
         (job2, (path_join (folder_a demo_cfg) job2, seconds 2))]
        {[ job1 := sighted ]} None ∅ 0 0
        {[ path_join (folder_a demo_cfg) job1 := demo_bytes;
           path_join (folder_b demo_cfg) job1 := demo_bytes;
           path_join (folder_a demo_cfg) job2 := demo_bytes;
           path_join (folder_b demo_cfg) job2 := demo_bytes ]}
        [] [].


Definition two_jobs_files : gmap str (list Byte.byte) :=
  {[ path_join (folder_a demo_cfg) job1 := demo_bytes ]}.
(** ** Vocabulary of the further properties *)

(** The ASCII digit of a number below ten. *)
Definition digit (n : Z) : char := Z.to_N (48 + n).

(** The characters a time of the extractor is made of. *)
Definition time_char (nd : char -> bool) (c : char) : bool :=
  (is_digit nd c || (c =? 58) || (c =? 46))%N.

(** Reading a decimal back, to tell two printed numbers apart. *)
Definition to_string (s : str) : string :=
  string_of_list_ascii (List.map ascii_of_N s).

Definition read_decimal (s : str) : N :=
  match NilEmpty.uint_of_string (to_string s) with
  | Some d => N.of_uint d
  | None => 0%N
  end.

Definition read_02d (s : str) : Z :=
  match s with
  | 45%N :: ds => - Z.of_N (read_decimal ds)
  | _ => Z.of_N (read_decimal s)
  end.

(** Every atom of a regular expression satisfies [ok]. *)
Fixpoint forall_atoms (ok : atom -> bool) (r : regex) : bool :=
  match r with
  | REps | REol => true
  | RAtom a | RRep a _ _ _ => ok a
  | ROpt r1 => forall_atoms ok r1
  | RSeq r1 r2 | RAlt r1 r2 => forall_atoms ok r1 && forall_atoms ok r2
  end.

(** The atoms of a time: a digit, the colon, the period or the comma. *)
Definition time_atom (a : atom) : bool :=
  match a with
  | ADigit => true
  | ALit c => (c =? 58)%N
  | ASet cs => forallb (fun c => (c =? 46) || (c =? 44))%N cs
  | _ => false
  end.

(** A name ends in an extension, as the patterns [\.iso$] and [\.txt$] see
    it: letters without regard to case, and a line feed may follow. *)
Definition ends_like (ext name : str) : Prop :=
  exists stem e tail,
    name = stem ++ e ++ tail
    /\ Forall2 (fun p c => lit_matches name_flags p c = true) ext e
    /\ (tail = [] \/ tail = [10%N]).

(** The counters only go up, and [processed] goes up with the table. *)
Definition accounted (s s' : state) : Prop :=
  processed s <= processed s' /\ errors s <= errors s'
  /\ processed s' - processed s
     = Z.of_nat (length (db s')) - Z.of_nat (length (db s)).

(** What identifies a row and tells its way through the line: every column
    but the three the reports fill in. *)
Definition identity_of (r : FileRecord) :=
  (id r, nazwa r, sciezka_a r, sciezka_b r, sciezka_c r,
   czas_wrzucenia r, czas_pobrania r, czas_archiwizacji r, czas_cyklu_ab r).

(** The table of [s'] is the table of [s], with the reports' columns
    possibly filled in, and possibly more rows after it. *)
Definition rows_kept (s s' : state) : Prop :=
  exists more,
    List.map identity_of (db s') = List.map identity_of (db s) ++ more.

(** A file is in the engine's books: registered with its path and intake
    time and, when [sighting] is given, sighted at that time. *)
Definition in_flight (f pa : str) (t0 : datetime) (sighting : option datetime)
    (s : state) : Prop :=
  dict_get f (waiting s) = Some (pa, t0)
  /\ match sighting with
     | Some t => seen_in_b s !! f = Some t
     | None => True
     end.

(** A row written since the table had [n] rows holds the file's name, path
    and intake time and, when [sighting] is given, that sighting. *)
Definition recorded (f pa : str) (t0 : datetime) (sighting : option datetime)
    (n : nat) (s : state) : Prop :=
  exists (i : nat) (r : FileRecord),
    (n <= i)%nat /\ db s !! i = Some r
    /\ nazwa r = f /\ sciezka_a r = pa /\ czas_wrzucenia r = t0
    /\ match sighting with
       | Some t => czas_pobrania r = Some t
       | None => True
       end.

(** The file is in the books or in the table. *)
Definition booked (f pa : str) (t0 : datetime) (sighting : option datetime)
    (n : nat) (s : state) : Prop :=
  (n <= length (db s))%nat
  /\ (in_flight f pa t0 sighting s \/ recorded f pa t0 sighting n s).

(** The rows of [s'] are the rows of [s], one for one, and differ at most
    in the reports' columns of the rows named in [names]. *)
Definition touched_only (names : list str) (s s' : state) : Prop :=
  length (db s') = length (db s)
  /\ forall (i : nat) (r : FileRecord), db s !! i = Some r ->
       exists r', db s' !! i = Some r' /\ identity_of r' = identity_of r
                  /\ (~ In (nazwa r) names -> r' = r).

(** Everything of a state but the table, the report cache and the log. *)
Definition line_of (s : state) :=
  (waiting s, seen_in_b s, last_b_time s, processed s, errors s, fs s).

(** The ISO name a report of folder D stands for, if it is named after the
    convention. *)
Definition iso_name_of (nd : char -> bool) (report : str) : option str :=
  match name_search nd ISO_EXTRACT_PATTERN report with
  | Some token => Some (token ++ py ".iso")
  | None => None
  end.

(** What [_restore] leaves alone between [s] and [s']: the table, the
    engine's books, and the content of every file that is not under a
    [_restored_] name in folder A. *)
Definition restore_kept (cfg : config) (d : dialog) (s s' : state) : Prop :=
  db s' = db s /\ waiting s' = waiting s /\ seen_in_b s' = seen_in_b s
  /\ forall p bytes, fs s !! p = Some bytes ->
       (forall (i : nat) nazwa, p <> path_join (folder_a cfg) (restored_name d nazwa i)) ->
       fs s' !! p = Some bytes.

(** * Properties *)

(** ** The text extractor *)

Local Open Scope N_scope.

Lemma lstrip_In (c : char) (s : str) : In c (lstrip s) -> In c s.
Proof.
  induction s as [|a s IH]; simpl; [tauto|].
  destruct (py_isspace a); simpl; tauto.
Qed.

Lemma strip_In (c : char) (s : str) : In c (strip s) -> In c s.
Proof.
  unfold strip, rstrip. intros H%lstrip_In.
  apply in_rev in H. apply lstrip_In in H. now apply in_rev.
Qed.

Lemma replace_comma_free (s : str) : ~ In 44 (replace 44 46 s).
Proof.
  unfold replace. rewrite in_map_iff. intros (c & Hc & _).
  destruct (N.eqb_spec c 44); [discriminate | congruence].
Qed.

(** The loop over the rules stops at the first rule that matches. *)
Lemma first_match_spec (nd : char -> bool) (ps : list pattern) (text : str) :
  (exists (i : nat) (p : pattern) (g : str),
      nth_error ps i = Some p
      /\ re_search nd time_flags p text = Some g
      /\ (forall (j : nat) (q : pattern), (j < i)%nat -> nth_error ps j = Some q ->
            re_search nd time_flags q text = None)
      /\ first_match nd ps text = Some (strip (replace 44 46 g)))
  \/ ((forall p, In p ps -> re_search nd time_flags p text = None)
      /\ first_match nd ps text = None).
Proof.
  induction ps as [|p ps IH]; simpl.
  - right. split; [intros p [] | reflexivity].
  - destruct (re_search nd time_flags p text) as [g|] eqn:Hp.
    + left. exists 0%nat, p, g. repeat split; try assumption. intros j q Hj. lia.
    + destruct IH as [(i & q & g & Hi & Hq & Hbefore & Hres) | [Hnone Hres]].
      * left. exists (S i), q, g. repeat split; try assumption.
        intros [|j] r Hj Hr; simpl in Hr.
        -- congruence.
        -- apply (Hbefore j r); [lia | assumption].
      * right. split; [|assumption]. intros q [<-|Hq]; auto.
Qed.

(** C4, as the design document states it, fails on the sentinel: a text
    without a time gives the string "Brak", not "unknown". *)
Lemma extract_cnc_time_sentinel_counterexample :
  extract_cnc_time ascii_digits (py "no time here") = py "Brak"
  /\ extract_cnc_time ascii_digits (py "no time here") <> py "unknown".
Proof. split; [vm_compute; reflexivity | vm_compute; discriminate]. Qed.

(** C4 (amended): for every text, [extract_cnc_time] searches its five rules
    in order, case-insensitively and multiline, and returns group 1 of the
    first rule that matches, commas replaced by periods (and stripped), so
    the result has no comma; it returns the sentinel "Brak" when no rule
    matches.  On the three texts of the design document it gives
    "01:23:45", "00:05:00" and "Brak". *)
Theorem extract_cnc_time_first_rule (nd : char -> bool) (text : str) :
  time_flags = Flags true true
  /\ ((exists (i : nat) (p : pattern) (g : str),
         nth_error patterns i = Some p
         /\ re_search nd time_flags p text = Some g
         /\ (forall (j : nat) (q : pattern), (j < i)%nat -> nth_error patterns j = Some q ->
               re_search nd time_flags q text = None)
         /\ extract_cnc_time nd text = strip (replace 44 46 g)
         /\ ~ In 44 (extract_cnc_time nd text))
      \/ ((forall p, In p patterns -> re_search nd time_flags p text = None)
          /\ extract_cnc_time nd text = py "Brak"))
  /\ extract_cnc_time nd (py "Cycle Time: 01:23:45") = py "01:23:45"
  /\ extract_cnc_time nd (py ";TIME=00:05:00") = py "00:05:00"
  /\ extract_cnc_time nd (py "no time here") = py "Brak".
Proof.
  split; [reflexivity|]. split.
  - unfold extract_cnc_time.
    destruct (first_match_spec nd patterns text)
      as [(i & p & g & Hi & Hp & Hbefore & Hres) | [Hnone Hres]]; rewrite Hres.
    + left. exists i, p, g. repeat split; try assumption.
      intros H%strip_In. exact (replace_comma_free g H).
    + right. split; [assumption | reflexivity].
  - repeat split; vm_compute; reflexivity.
Qed.

(** *** [_parse_material] *)

Lemma split1_hyphen (sep : char) (s : str) :
  if contains sep s
  then exists l r, s = l ++ sep :: r /\ ~ In sep l /\ split1 sep s = [l; r]
  else split1 sep s = [s].
Proof.
  induction s as [|c s IH]; simpl; [reflexivity|].
  rewrite (N.eqb_sym sep c).
  destruct (N.eqb_spec c sep) as [->|Hne]; simpl.
  - exists [], s. repeat split. intros [].
  - revert IH. unfold contains. destruct (existsb (N.eqb sep) s); intros IH.
    + destruct IH as (l & r & -> & Hl & ->). exists (c :: l), r.
      repeat split. intros [H|H]; [congruence | tauto].
    + now rewrite IH.
Qed.

Lemma split_material_spec (line : str) :
  if contains 45 line
  then exists l r, line = l ++ 45 :: r /\ ~ In 45 l
                   /\ split_material line = (take 50 (strip l), take 20 (strip r))
  else split_material line = (take 50 line, Brak).
Proof.
  unfold split_material. pose proof (split1_hyphen 45 line) as H.
  destruct (contains 45 line); simpl; [|reflexivity].
  destruct H as (l & r & Hline & Hl & ->). exists l, r. now repeat split.
Qed.

(** C5, as the design document states it, fails: the sentinel is the
    string "Brak", for a text without lines as for a line without hyphen. *)
Lemma parse_material_counterexample :
  _parse_material (py "") = (py "Brak", py "Brak")
  /\ _parse_material (py "") <> (py "unknown", py "unknown")
  /\ _parse_material (py "PLATE") = (py "PLATE", py "Brak")
  /\ _parse_material (py "PLATE") <> (py "PLATE", py "unknown").
Proof. vm_compute. repeat split; discriminate. Qed.

(** C5 (amended): [_parse_material] works on the stripped non-blank lines.
    With none it returns ("Brak", "Brak").  When the first starts with "("
    or ";" the line chosen is the first of the next two that contains a
    hyphen and does not start with "(", and without one the result is
    ("Brak", "Brak"); otherwise the first line is chosen.  A chosen line
    without hyphen gives its first 50 characters and "Brak"; one with a
    hyphen is split at its first hyphen: the material is the left part,
    stripped, first 50 characters, and the thickness, when the stripped right
    part is not empty, is its first 20 characters. *)
Theorem parse_material_spec (text : str) :
  match nonblank_lines text with
  | [] => _parse_material text = (py "Brak", py "Brak")
  | first :: rest =>
      let chosen :=
        if startswith first 40 || startswith first 59
        then List.find (fun line => contains 45 line && negb (startswith line 40))
                       (take 2 rest)
        else Some first in
      match chosen with
      | None => _parse_material text = (py "Brak", py "Brak")
      | Some line =>
          if contains 45 line
          then exists l r, line = l ++ 45 :: r /\ ~ In 45 l
                 /\ fst (_parse_material text) = take 50 (strip l)
                 /\ (strip r <> [] -> snd (_parse_material text) = take 20 (strip r))
          else _parse_material text = (take 50 line, py "Brak")
      end
  end
  /\ _parse_material (py "STEEL-3MM") = (py "STEEL", py "3MM")
  /\ _parse_material (py ("(comment)" ++ LF ++ "ALU - 5MM" ++ LF)) = (py "ALU", py "5MM")
  /\ _parse_material (py "") = (py "Brak", py "Brak").
Proof.
  assert (Hsplit : forall line,
            if contains 45 line
            then exists l r, line = l ++ 45 :: r /\ ~ In 45 l
                   /\ fst (split_material line) = take 50 (strip l)
                   /\ (strip r <> [] -> snd (split_material line) = take 20 (strip r))
            else split_material line = (take 50 line, py "Brak")).
  { intros line. pose proof (split_material_spec line) as H.
    destruct (contains 45 line); [|exact H].
    destruct H as (l & r & Hline & Hl & ->). exists l, r. now repeat split. }
  split; [|repeat split; vm_compute; reflexivity].
  unfold _parse_material.
  destruct (nonblank_lines text) as [|first rest]; [reflexivity|].
  cbv zeta. destruct (startswith first 40 || startswith first 59).
  - change (drop 1 (first :: rest)) with rest. unfold is_candidate.
    destruct (List.find _ (take 2 rest)) as [line|]; [|reflexivity].
    apply Hsplit.
  - apply Hsplit.
Qed.

(** *** [total_seconds] and [int] *)

Local Open Scope Z_scope.

Lemma float_unit_pos : 0 < float_unit.
Proof. unfold float_unit. apply Z.pow_pos_nonneg; lia. Qed.

Lemma round_half_even_near (n d : Z) :
  0 < d ->
  2 * (round_half_even n d * d) <= 2 * n + d
  /\ 2 * n <= 2 * (round_half_even n d * d) + d.
Proof.
  intros Hd. unfold round_half_even. cbv zeta.
  pose proof (Z.div_mod n d ltac:(lia)) as E.
  pose proof (Z.mod_pos_bound n d Hd) as Hr.
  set (q := n / d) in *. set (r := n mod d) in *. clearbody q r.
  destruct (Z.ltb_spec (2 * r) d); [nia|].
  destruct (Z.ltb_spec d (2 * r)); [nia|].
  destruct (Z.even q); nia.
Qed.

Lemma round_half_even_floor (n d : Z) : 0 < d -> n / d <= round_half_even n d.
Proof.
  intros Hd. unfold round_half_even. cbv zeta.
  destruct (_ <? _); [lia|]. destruct (_ <? _); [lia|]. destruct (Z.even _); lia.
Qed.

Lemma true_divide_nonneg (a b : Z) : 0 <= a -> 0 < b -> 0 <= true_divide a b.
Proof.
  intros Ha Hb. unfold true_divide. cbv zeta.
  pose proof float_unit_pos as HF.
  set (ulp := 2 ^ _). assert (Hu : 0 < ulp) by (apply Z.pow_pos_nonneg; lia).
  apply Z.mul_nonneg_nonneg; [|lia].
  etransitivity; [|apply round_half_even_floor; nia].
  apply Z.div_pos; nia.
Qed.

(** Below 2^34 the floats are less than 2^-19 apart: the quotient by
    [10**6] is rounded to a float that lies within half a millionth. *)
Lemma true_divide_small_form (a : Z) :
  0 <= a < 2 ^ 34 * usec_per_sec ->
  exists m ulp P : Z,
    true_divide a usec_per_sec = m * ulp /\ float_unit = ulp * P
    /\ 0 < ulp /\ 2 ^ 19 <= P
    /\ 2 * (m * usec_per_sec) <= 2 * (a * P) + usec_per_sec
    /\ 2 * (a * P) <= 2 * (m * usec_per_sec) + usec_per_sec.
Proof.
  intros Ha. unfold true_divide. cbv zeta.
  assert (Hb : 0 < usec_per_sec) by reflexivity.
  pose proof float_unit_pos as HF.
  set (s := a * float_unit / usec_per_sec).
  assert (Hs : 0 <= s < 2 ^ 1108).
  { subst s. split; [apply Z.div_pos; nia|].
    apply Z.div_lt_upper_bound; [exact Hb|].
    change (2 ^ 1108) with (2 ^ 34 * float_unit). nia. }
  assert (Hj : 0 <= Z.max 0 (Z.log2 s - 52) <= 1055).
  { split; [lia|]. destruct (Z.eq_dec s 0) as [->|Hne]; [cbn; lia|].
    assert (Z.log2 s < 1108) by (apply Z.log2_lt_pow2; lia). lia. }
  set (j := Z.max 0 (Z.log2 s - 52)) in *. clearbody j. clear Hs. clearbody s.
  assert (Hu : 0 < 2 ^ j) by (apply Z.pow_pos_nonneg; lia).
  assert (HP : 2 ^ 19 <= 2 ^ (1074 - j)) by (apply Z.pow_le_mono_r; lia).
  assert (HFe : float_unit = 2 ^ j * 2 ^ (1074 - j)).
  { unfold float_unit. rewrite <- Z.pow_add_r by lia. f_equal. lia. }
  set (ulp := 2 ^ j) in *. set (P := 2 ^ (1074 - j)) in *. clearbody ulp P.
  exists (round_half_even (a * float_unit) (usec_per_sec * ulp)), ulp, P.
  split; [reflexivity|]. split; [exact HFe|]. split; [exact Hu|]. split; [exact HP|].
  destruct (round_half_even_near (a * float_unit) (usec_per_sec * ulp)) as [H1 H2]; [nia|].
  set (m := round_half_even _ _) in *. clearbody m. rewrite HFe in H1, H2.
  split.
  - apply (Z.mul_le_mono_pos_l _ _ ulp Hu). lia.
  - apply (Z.mul_le_mono_pos_l _ _ ulp Hu). lia.
Qed.

(** From 2^34 on the result is at least 2^34. *)
Lemma true_divide_large (a : Z) :
  2 ^ 34 * usec_per_sec <= a -> 2 ^ 34 * float_unit <= true_divide a usec_per_sec.
Proof.
  intros Ha. unfold true_divide. cbv zeta.
  assert (Hb : 0 < usec_per_sec) by reflexivity.
  pose proof float_unit_pos as HF.
  set (s := a * float_unit / usec_per_sec).
  assert (Hs : 2 ^ 1108 <= s).
  { subst s. apply Z.div_le_lower_bound; [exact Hb|].
    change (2 ^ 1108) with (2 ^ 34 * float_unit). nia. }
  assert (Hl : 1108 <= Z.log2 s) by (apply Z.log2_le_pow2; lia).
  assert (Hpos : 0 < s) by (assert (0 < 2 ^ 1108) by (apply Z.pow_pos_nonneg; lia); lia).
  destruct (Z.log2_spec s Hpos) as [Hlo _].
  rewrite Z.max_r by lia.
  set (L := Z.log2 s) in *. clearbody L.
  assert (Hu : 0 < 2 ^ (L - 52)) by (apply Z.pow_pos_nonneg; lia).
  assert (HL : 2 ^ L = 2 ^ 52 * 2 ^ (L - 52)).
  { rewrite <- Z.pow_add_r by lia. f_equal. lia. }
  assert (Hm : 2 ^ 52 <= round_half_even (a * float_unit) (usec_per_sec * 2 ^ (L - 52))).
  { etransitivity; [|apply round_half_even_floor; nia].
    rewrite <- Z.div_div by lia. fold s.
    apply Z.div_le_lower_bound; [exact Hu|]. lia. }
  assert (H34 : 2 ^ 34 * float_unit <= 2 ^ L).
  { change (2 ^ 34 * float_unit) with (2 ^ 1108). apply Z.pow_le_mono_r; lia. }
  set (m := round_half_even _ _) in *. clearbody m.
  set (ulp := 2 ^ (L - 52)) in *. clearbody ulp. nia.
Qed.

(** The division rounds as the floats do: [1 / 10] is the float
    3602879701896397 / 2^55, a third of a second in microseconds is cut
    to whole seconds exactly, and a microsecond short of 2^34 + 1 seconds is
    rounded up to it. *)
Example true_divide_rounds :
  true_divide 1 10 = 3602879701896397 * 2 ^ 1019
  /\ int_of_float (timedelta_total_seconds 333333) = 0
  /\ int_of_float (timedelta_total_seconds (- 1999999)) = -1
  /\ int_of_float (timedelta_total_seconds 17179869184999999) = 17179869185.
Proof.
  split; [vm_compute; reflexivity|]. split; [vm_compute; reflexivity|].
  split; vm_compute; reflexivity.
Qed.

(** Up to 2^34 seconds [int(td.total_seconds())] is the number of whole
    seconds, rounded towards zero. *)
Lemma int_total_seconds_exact (td : timedelta) :
  Z.abs td < 2 ^ 34 * usec_per_sec ->
  int_of_float (timedelta_total_seconds td) = Z.quot td usec_per_sec.
Proof.
  intros Htd. unfold int_of_float, timedelta_total_seconds.
  assert (Hmag : Z.quot (true_divide (Z.abs td) usec_per_sec) float_unit
                 = Z.abs td / usec_per_sec).
  { destruct (true_divide_small_form (Z.abs td)) as (m & ulp & P & -> & -> & Hu & HP & H1 & H2);
      [lia|].
    assert (Hb : usec_per_sec = 1000000) by reflexivity. rewrite Hb in *.
    change (2 ^ 19) with 524288 in HP.
    pose proof (Z.div_mod (Z.abs td) 1000000 ltac:(lia)) as E.
    pose proof (Z.mod_pos_bound (Z.abs td) 1000000 ltac:(lia)) as Hr.
    set (a := Z.abs td) in *. set (q := a / 1000000) in *. set (r := a mod 1000000) in *.
    assert (Hq : 0 <= q) by (subst q; apply Z.div_pos; lia).
    clearbody q r a.
    assert (Hm : q * P <= m < q * P + P) by nia.
    rewrite Z.quot_div_nonneg by nia.
    rewrite (Z.mul_comm ulp P), Z.div_mul_cancel_r by lia.
    symmetry. apply (Z.div_unique m P q (m - q * P)); lia. }
  destruct (Z.abs_spec td) as [[Hpos E]|[Hneg E]]; rewrite E in *.
  - destruct (Z.eq_dec td 0) as [->|Hne]; [reflexivity|].
    rewrite Z.sgn_pos by lia. rewrite Z.mul_1_l, Hmag. symmetry. apply Z.quot_div_nonneg; lia.
  - rewrite Z.sgn_neg by lia.
    replace (-1 * true_divide (- td) usec_per_sec) with (- true_divide (- td) usec_per_sec) by lia.
    rewrite Z.quot_opp_l by (pose proof float_unit_pos; lia). rewrite Hmag.
    rewrite <- Z.quot_div_nonneg by (unfold usec_per_sec; lia).
    rewrite Z.quot_opp_l by discriminate. lia.
Qed.

(** One second or more never reads as less than one, whatever the size. *)
Lemma int_total_seconds_sign (td : timedelta) :
  (usec_per_sec <= td -> 1 <= int_of_float (timedelta_total_seconds td))
  /\ (td <= - usec_per_sec -> int_of_float (timedelta_total_seconds td) <= -1)
  /\ (0 <= td -> 0 <= int_of_float (timedelta_total_seconds td)).
Proof.
  pose proof float_unit_pos as HF.
  assert (Hbig : forall a, usec_per_sec <= a ->
                   1 <= Z.quot (true_divide a usec_per_sec) float_unit).
  { intros a Ha. destruct (Z.lt_ge_cases a (2 ^ 34 * usec_per_sec)) as [Hlt|Hge].
    - pose proof (int_total_seconds_exact a) as E.
      unfold int_of_float, timedelta_total_seconds in E.
      assert (H0 : 0 < a) by (unfold usec_per_sec in Ha; lia).
      rewrite Z.abs_eq, Z.sgn_pos, Z.mul_1_l in E by lia. rewrite E by exact Hlt.
      unfold usec_per_sec in *. Z.to_euclidean_division_equations. lia.
    - pose proof (true_divide_large a Hge) as H.
      rewrite Z.quot_div_nonneg by lia.
      apply Z.div_le_lower_bound; [exact HF|]. change (2 ^ 34) with 17179869184 in H. lia. }
  unfold int_of_float, timedelta_total_seconds. split; [|split].
  - intros H. assert (H0 : 0 < td) by (unfold usec_per_sec in H; lia).
    rewrite Z.abs_eq, Z.sgn_pos, Z.mul_1_l by lia. now apply Hbig.
  - intros H. assert (H0 : td < 0) by (unfold usec_per_sec in H; lia).
    rewrite Z.abs_neq, Z.sgn_neg by lia.
    replace (-1 * true_divide (- td) usec_per_sec) with (- true_divide (- td) usec_per_sec) by lia.
    rewrite Z.quot_opp_l by lia. specialize (Hbig (- td) ltac:(lia)). lia.
  - intros H. destruct (Z.eq_dec td 0) as [->|Hne]; [vm_compute; discriminate|].
    rewrite Z.abs_eq, Z.sgn_pos, Z.mul_1_l by lia.
    apply Z.quot_pos; [|exact HF]. apply true_divide_nonneg; [lia | reflexivity].
Qed.

(** [td.total_seconds() < ARCHIVE_DELAY] holds exactly when [td] is less
    than 420 seconds, to the microsecond. *)
Lemma total_seconds_lt_delay (td : timedelta) :
  (timedelta_total_seconds td <? ARCHIVE_DELAY * float_unit)
  = (td <? ARCHIVE_DELAY * usec_per_sec).
Proof.
  pose proof float_unit_pos as HF.
  assert (Hb : 0 < usec_per_sec) by reflexivity.
  change ARCHIVE_DELAY with 420.
  unfold timedelta_total_seconds.
  destruct (Z.ltb_spec td (420 * usec_per_sec)) as [Hlt|Hge]; [apply Z.ltb_lt | apply Z.ltb_ge].
  - destruct (Z.le_gt_cases td 0) as [Hneg|Hpos].
    + pose proof (true_divide_nonneg (Z.abs td) usec_per_sec ltac:(lia) Hb) as H0.
      destruct (Z.eq_dec td 0) as [->|Hne]; [cbn; lia|].
      rewrite Z.sgn_neg by lia. lia.
    + rewrite Z.abs_eq, Z.sgn_pos, Z.mul_1_l by lia.
      destruct (true_divide_small_form td) as (m & ulp & P & -> & -> & Hu & HP & H1 & H2).
      { unfold usec_per_sec in *. change (2 ^ 34) with 17179869184. lia. }
      unfold usec_per_sec in *. change (2 ^ 19) with 524288 in HP.
      assert (m < 420 * P) by nia. nia.
  - assert (H0 : 0 < td) by (unfold usec_per_sec in Hge; lia).
    rewrite Z.abs_eq, Z.sgn_pos, Z.mul_1_l by lia.
    destruct (Z.lt_ge_cases td (2 ^ 34 * usec_per_sec)) as [Hsm|Hla].
    + destruct (true_divide_small_form td) as (m & ulp & P & -> & -> & Hu & HP & H1 & H2);
        [lia|].
      unfold usec_per_sec in *. change (2 ^ 19) with 524288 in HP.
      assert (420 * P <= m) by nia. nia.
    + pose proof (true_divide_large td Hla) as H.
      change (2 ^ 34) with 17179869184 in H. lia.
Qed.

(** *** The dict [waiting] *)

Lemma dict_get_keys {V} (k : str) (d : list (str * V)) :
  is_Some (dict_get k d) <-> In k (dict_keys d).
Proof.
  unfold dict_get, dict_keys. induction d as [|[k' v] d IH]; cbn.
  - split; [intros [? [=]] | intros []].
  - destruct (bool_decide_reflect (k' = k)) as [->|Hne]; cbn.
    + split; eauto.
    + rewrite IH. split; [tauto | intros [H|H]; [congruence | exact H]].
Qed.

Lemma dict_mem_keys {V} (k : str) (d : list (str * V)) :
  dict_mem k d = true <-> In k (dict_keys d).
Proof. unfold dict_mem. rewrite bool_decide_eq_true. apply dict_get_keys. Qed.

Lemma dict_keys_del {V} (k : str) (d : list (str * V)) :
  dict_keys (dict_del k d) = List.filter (fun k' => negb (bool_decide (k' = k))) (dict_keys d).
Proof.
  unfold dict_keys, dict_del. induction d as [|[k' v] d IH]; cbn; [reflexivity|].
  destruct (bool_decide (k' = k)); cbn; congruence.
Qed.

Lemma dict_keys_del_In {V} (k k' : str) (d : list (str * V)) :
  In k' (dict_keys (dict_del k d)) <-> In k' (dict_keys d) /\ k' <> k.
Proof.
  rewrite dict_keys_del, filter_In, negb_true_iff, bool_decide_eq_false. tauto.
Qed.

Lemma dict_keys_del_NoDup {V} (k : str) (d : list (str * V)) :
  List.NoDup (dict_keys d) -> List.NoDup (dict_keys (dict_del k d)).
Proof. rewrite dict_keys_del. apply List.NoDup_filter. Qed.

Lemma dict_keys_set {V} (k : str) (v : V) (d : list (str * V)) :
  ~ In k (dict_keys d) -> dict_keys (dict_set k v d) = dict_keys d ++ [k].
Proof.
  unfold dict_keys. induction d as [|[k' v'] d IH]; cbn; [reflexivity|].
  intros H. destruct (bool_decide_reflect (k' = k)) as [->|Hne]; [tauto|].
  cbn. rewrite IH; tauto.
Qed.

Lemma dict_get_del_ne {V} (f g : str) (d : list (str * V)) :
  f <> g -> dict_get f (dict_del g d) = dict_get f d.
Proof.
  intros Hne. unfold dict_get, dict_del. induction d as [|[k v] d IH]; cbn; [reflexivity|].
  destruct (bool_decide_reflect (k = g)) as [->|Hk]; cbn.
  - rewrite bool_decide_eq_false_2 by congruence. exact IH.
  - destruct (bool_decide (k = f)); [reflexivity | exact IH].
Qed.


(** ** The polling engine *)

Local Open Scope Z_scope.

Arguments py : simpl never.
Arguments path_join : simpl never.
Arguments format_timedelta : simpl never.
Arguments Brak : simpl never.
Arguments name_matches : simpl never.
Arguments name_search : simpl never.
Arguments _parse_material : simpl never.
Arguments extract_cnc_time : simpl never.
Arguments events_since : simpl never.
Arguments float_unit : simpl never.
Arguments timedelta_total_seconds : simpl never.
Arguments max_rowid : simpl never.

(** *** Running the monad by hand *)

Lemma bool_decide_is_Some {A} (o : option A) :
  bool_decide (is_Some o) = match o with Some _ => true | None => false end.
Proof.
  destruct o; [apply bool_decide_eq_true_2; eauto
              | apply bool_decide_eq_false_2; intros [? [=]]].
Qed.

Lemma temp_path_ne (p : str) : p ++ py ".tmp" <> p.
Proof.
  intros H. apply (f_equal length) in H. rewrite length_app in H.
  change (length (py ".tmp")) with 4%nat in H. lia.
Qed.

Lemma take_same_length {A} (n : nat) (l : list A) :
  length (take n l) = length l -> take n l = l.
Proof. intros H. apply take_ge. rewrite length_take in H. lia. Qed.

Lemma state_ext (s1 s2 : state) :
  waiting s1 = waiting s2 -> seen_in_b s1 = seen_in_b s2 ->
  last_b_time s1 = last_b_time s2 -> d_cache s1 = d_cache s2 ->
  processed s1 = processed s2 -> errors s1 = errors s2 ->
  fs s1 = fs s2 -> db s1 = db s2 -> trace s1 = trace s2 -> s1 = s2.
Proof. destruct s1, s2; cbn; intros; subst; reflexivity. Qed.

Ltac unfold_os :=
  unfold shutil_copy2, os_path_exists, os_path_getsize, os_replace, os_remove,
    os_path_isfile, os_listdir, os_path_getmtime, read_text, time_sleep,
    Database_insert, Database_update_cnc_data,
    try_except, mbind, M_bind, ret, mret, M_ret, gets, modify, emit, raise.

Ltac fs_simpl :=
  repeat first
    [ rewrite bool_decide_is_Some
    | rewrite lookup_insert_eq
    | rewrite lookup_delete_eq
    | rewrite lookup_insert_ne by congruence
    | rewrite lookup_delete_ne by congruence ].

Ltac head_of t := lazymatch t with ?f _ => head_of f | _ => t end.

Ltac destruct_head x :=
  lazymatch x with
  | negb (?a =? ?b) =>
      let H := fresh "Hsize" in destruct (Z.eqb_spec a b) as [H|H]
  | _ => destruct x eqn:?
  end.

(** Case analysis on the scrutinee the running term is stuck on. *)
Ltac step_on t :=
  let h := head_of t in
  lazymatch h with
  | match ?x with _ => _ end => first [ step_on x | destruct_head x ]
  end.

Ltac case_step :=
  lazymatch goal with
  | |- exists _, ?lhs = _ /\ _ => step_on lhs
  | |- exists _ _, ?lhs = _ /\ _ => step_on lhs
  end.

Ltac exec := repeat (repeat (cbn; progress fs_simpl); cbn; try case_step).

Ltac frame_fs := intros; fs_simpl; reflexivity.

Ltac trace_eq := cbn; rewrite <- ?app_assoc; cbn; reflexivity.

Ltac cleanup_events :=
  repeat first [ apply List.Forall_nil | apply List.Forall_cons; [solve [eauto 6]|] ].

Ltac moved_by_then :=
  first [ intros Hk; exfalso; lia
        | intros _; eexists; split; [eassumption | fs_simpl; reflexivity] ].

Ltac try_prefix k :=
  exists k; eexists; split; [trace_eq | split; [cleanup_events | moved_by_then]].

Ltac find_prefix :=
  first [ try_prefix 7%nat | try_prefix 6%nat | try_prefix 5%nat | try_prefix 4%nat
        | try_prefix 3%nat | try_prefix 2%nat | try_prefix 1%nat | try_prefix 0%nat ].

Ltac temp_gone :=
  first [ right; first [assumption | reflexivity]
        | left; fs_simpl; first [assumption | reflexivity] ].

Ltac leaf_done :=
  left; do 4 eexists;
  split; [reflexivity|]; split; [eassumption|];
  split; [first [eassumption | reflexivity]|];
  apply state_ext; cbn; first [reflexivity | trace_eq].

Ltac leaf_early :=
  right; left; do 2 eexists; cbn;
  split; [reflexivity|]; do 7 (split; [reflexivity|]);
  split; [frame_fs|]; split; [temp_gone|]; find_prefix.

Ltac leaf_late :=
  right; right; do 3 eexists; cbn;
  split; [reflexivity|]; split; [eassumption|];
  split; [first [left; first [assumption | reflexivity]
                | right; first [assumption | reflexivity]]|];
  do 7 (split; [reflexivity|]);
  split; [fs_simpl; reflexivity|];
  eexists; split; [trace_eq | cleanup_events].

Ltac untruncate :=
  repeat match goal with
  | H : length (take ?n ?l) = length ?l |- _ =>
      let E := fresh in
      pose proof (take_same_length n l H) as E; clear H; try rewrite E in *; clear E
  end.

Ltac leaf :=
  untruncate;
  lazymatch goal with
  | |- context [incr_processed] => leaf_done
  | |- context [set_last_b_time] => leaf_late
  | |- _ => leaf_early
  end.

(** *** [_archive_file] *)

(** Every call of [_archive_file] on a file in flight returns, in one of
    three ways. *)
Lemma archive_file_cases cfg e f now s pa t0 :
  dict_get f (waiting s) = Some (pa, t0) ->
  pa <> temp_path cfg f -> pa <> path_c cfg f ->
  exists s', _archive_file cfg e f now s = (Ok tt, s')
    /\ (archive_done cfg f now s s'
        \/ archive_failed_early cfg e f s s'
        \/ archive_failed_late cfg e f now s s').
Proof.
  intros H Hat Hac.
  unfold _archive_file, archive_done, archive_failed_early, archive_failed_late.
  unfold move_events, archive_record, cleanup_event.
  unfold temp_path in *. fold (path_c cfg f) in *.
  assert (Htc : path_c cfg f ++ py ".tmp" <> path_c cfg f) by apply temp_path_ne.
  set (pb := path_join (folder_b cfg) f).
  set (pc := path_c cfg f) in *. set (tmp := pc ++ py ".tmp") in *.
  clearbody tmp. clearbody pc. clearbody pb.
  unfold mbind at 1, M_bind at 1, gets at 1. rewrite H.
  unfold_os. exec.
  all: eexists; (split; [reflexivity|]).
  all: simplify_eq.
  all: leaf.
Qed.

(** The same without any assumption on the paths: what a call does to the
    engine's own attributes and to the table. *)
Lemma archive_file_frame cfg e f now s :
  is_Some (dict_get f (waiting s)) ->
  exists s', _archive_file cfg e f now s = (Ok tt, s')
    /\ (d_cache s' = d_cache s
    /\ ((waiting s' = waiting s /\ seen_in_b s' = seen_in_b s
         /\ processed s' = processed s /\ errors s' = errors s + 1
         /\ db s' = db s)
        \/ (waiting s' = dict_del f (waiting s) /\ seen_in_b s' = delete f (seen_in_b s)
            /\ processed s' = processed s + 1 /\ errors s' = errors s
            /\ last_b_time s' = Some now
            /\ exists pa t0 tb,
                 dict_get f (waiting s) = Some (pa, t0)
                 /\ seen_in_b s !! f = Some tb
                 /\ db s' = db s ++ [with_id (max_rowid (db s) + 1)
                                       (archive_record cfg f now pa t0 tb (last_b_time s))]))
    /\ exists pa t0 rest, dict_get f (waiting s) = Some (pa, t0)
         /\ trace s' = trace s ++ Copy2 pa (temp_path cfg f) :: rest).
Proof.
  intros [[pa t0] H]. unfold _archive_file, archive_record, temp_path, path_c.
  set (pb := path_join (folder_b cfg) f).
  set (pc := path_join (folder_c cfg) f) in *. set (tmp := pc ++ py ".tmp") in *.
  clearbody tmp. clearbody pc. clearbody pb.
  unfold mbind at 1, M_bind at 1, gets at 1. rewrite H.
  unfold_os. exec.
  all: eexists; (split; [reflexivity|]); cbn; split; [reflexivity|].
  all: (split;
        [first [ left; repeat (split; [reflexivity|]); reflexivity
               | right; do 5 (split; [reflexivity|]); exists pa, t0; eexists;
                 split; [reflexivity|];
                 split; [first [eassumption | reflexivity] | reflexivity] ]|]).
  all: exists pa, t0; eexists; split; [reflexivity|]; trace_eq.
Qed.

(** *** The steps leave the engine's dicts consistent *)

Lemma engine_inv_alt (s : state) :
  engine_inv s <->
  List.NoDup (dict_keys (waiting s))
  /\ forall f, is_Some (seen_in_b s !! f) -> In f (dict_keys (waiting s)).
Proof.
  unfold engine_inv, waiting_dom. split; intros [Hnd Hsub]; (split; [exact Hnd|]).
  - intros f Hf. assert (H1 : f ∈ dom (seen_in_b s)) by (apply elem_of_dom; exact Hf).
    apply Hsub in H1. apply elem_of_list_to_set in H1. now apply list_elem_of_In in H1.
  - intros f Hf. apply elem_of_dom in Hf. apply elem_of_list_to_set.
    apply list_elem_of_In. now apply Hsub.
Qed.

(** What one visit of [_process_folder_b] does to the dicts. *)
Lemma check_b_file_frame cfg e now f s :
  In f (dict_keys (waiting s)) ->
  exists s', check_b_file cfg e now f s = (Ok tt, s')
    /\ d_cache s' = d_cache s
    /\ ((waiting s' = waiting s
         /\ (seen_in_b s' = seen_in_b s \/ seen_in_b s' = <[f := now]> (seen_in_b s)))
        \/ (waiting s' = dict_del f (waiting s)
            /\ seen_in_b s' = delete f (seen_in_b s))).
Proof.
  intros Hf%dict_get_keys. unfold check_b_file.
  set (pb := path_join (folder_b cfg) f). clearbody pb.
  unfold os_path_exists, mbind, M_bind, ret, mret, M_ret, gets, modify, emit. cbn.
  destruct (bool_decide (is_Some (fs s !! pb))); cbn.
  2:{ eexists; split; [reflexivity|]. cbn. auto. }
  destruct (seen_in_b s !! f) as [t|]; cbn.
  2:{ eexists; split; [reflexivity|]. cbn. auto. }
  destruct (timedelta_total_seconds (now - t) <? ARCHIVE_DELAY * float_unit).
  { eexists; split; [reflexivity|]. cbn. auto. }
  destruct (archive_file_frame cfg e f now (log_event (Exists pb) s) Hf)
    as (s' & -> & Hd & Hmaps & _).
  exists s'. split; [reflexivity|]. cbn in *. split; [exact Hd|].
  destruct Hmaps as [(-> & -> & _) | (-> & -> & _)]; auto.
Qed.

Lemma check_b_file_inv cfg e now f s :
  In f (dict_keys (waiting s)) -> engine_inv s ->
  exists s', check_b_file cfg e now f s = (Ok tt, s') /\ engine_inv s'
    /\ (forall g, g <> f -> In g (dict_keys (waiting s)) -> In g (dict_keys (waiting s'))).
Proof.
  intros Hf Hinv. destruct (check_b_file_frame cfg e now f s Hf) as (s' & Hrun & _ & Hmaps).
  exists s'. split; [exact Hrun|]. apply engine_inv_alt in Hinv as [Hnd Hsub].
  rewrite engine_inv_alt.
  destruct Hmaps as [[Hw [Hs|Hs]] | [Hw Hs]]; rewrite Hw, Hs.
  - auto.
  - repeat split; auto. intros g. destruct (decide (f = g)) as [<-|Hne].
    + auto.
    + rewrite lookup_insert_ne by exact Hne. auto.
  - repeat split.
    + now apply dict_keys_del_NoDup.
    + intros g. destruct (decide (f = g)) as [<-|Hne].
      * rewrite lookup_delete_eq. intros [? [=]].
      * rewrite lookup_delete_ne by exact Hne. intros Hg.
        apply dict_keys_del_In. split; [auto | congruence].
    + intros g Hg Hin. apply dict_keys_del_In. auto.
Qed.

(** The loop of [_process_folder_b] over a snapshot of the keys. *)
Lemma process_b_loop_inv cfg e now (keys : list str) (s : state) :
  List.NoDup keys -> (forall f, In f keys -> In f (dict_keys (waiting s))) ->
  engine_inv s ->
  exists s', for_each keys (fun _ filename => check_b_file cfg e now filename) tt s
             = (Ok tt, s')
    /\ engine_inv s'.
Proof.
  revert s. induction keys as [|f keys IH]; intros s Hnd Hin Hinv; cbn.
  - exists s. split; [reflexivity | exact Hinv].
  - apply List.NoDup_cons_iff in Hnd as [Hf Hnd].
    destruct (check_b_file_inv cfg e now f s (Hin f (or_introl eq_refl)) Hinv)
      as (s1 & Hrun & Hinv1 & Hkeep).
    unfold mbind, M_bind. rewrite Hrun.
    apply IH; [exact Hnd | | exact Hinv1].
    intros g Hg. apply Hkeep; [intros -> ; tauto | apply Hin; now right].
Qed.

Lemma process_folder_b_inv cfg e s :
  engine_inv s ->
  exists s', _process_folder_b cfg e s = (Ok tt, s') /\ engine_inv s'.
Proof.
  intros Hinv. unfold _process_folder_b, mbind, M_bind, gets.
  apply process_b_loop_inv; [apply Hinv | auto | exact Hinv].
Qed.

(** [for x in xs] keeps what its body keeps. *)
Lemma for_each_preserves {X A} (P : state -> Prop) (body : A -> X -> M A) :
  (forall a x s, P s -> P (snd (body a x s))) ->
  forall xs a s, P s -> P (snd (for_each xs body a s)).
Proof.
  intros Hbody xs. induction xs as [|x xs IH]; intros a s Hs; cbn; [exact Hs|].
  unfold mbind, M_bind. specialize (Hbody a x s Hs).
  destruct (body a x s) as [[a'|x'] s1]; cbn in *; [now apply IH | exact Hbody].
Qed.

(** [_safe_listdir] changes nothing but the log. *)
Lemma safe_listdir_frame (e : env) (path : str) (s : state) :
  exists r, _safe_listdir e path s = (r, log_event (Listdir path) s)
    /\ match listdir_result e path with
       | LsNames names => r = Ok names
       | LsOSError => r = Ok []
       | LsError => r = Raise (Error "listdir")
       end.
Proof.
  unfold _safe_listdir, os_listdir, try_except, mbind, M_bind, emit, modify, ret, mret,
    M_ret, raise. cbn.
  destruct (listdir_result e path); cbn; eexists; split; reflexivity.
Qed.

(** What one visit of [_process_folder_a] does: at most a new entry, at the
    end of [waiting]. *)
Lemma scan_a_file_frame nd cfg e f s :
  exists s', scan_a_file nd cfg e f s = (Ok tt, s')
    /\ (seen_in_b s' = seen_in_b s /\ d_cache s' = d_cache s
        /\ last_b_time s' = last_b_time s /\ db s' = db s
        /\ processed s' = processed s /\ errors s' = errors s
        /\ (waiting s' = waiting s
            \/ (dict_mem f (waiting s) = false
                /\ waiting s' = dict_set f (path_join (folder_a cfg) f, clock_a e f)
                                  (waiting s)))).
Proof.
  unfold scan_a_file. set (pa := path_join (folder_a cfg) f). clearbody pa.
  unfold_os. exec.
  all: eexists; (split; [reflexivity|]); cbn.
  all: repeat (split; [reflexivity|]).
  all: first [left; reflexivity | right; split; [assumption | reflexivity]].
Qed.

Lemma scan_a_file_inv nd cfg e f s :
  engine_inv s -> engine_inv (snd (scan_a_file nd cfg e f s)).
Proof.
  intros Hinv. destruct (scan_a_file_frame nd cfg e f s)
    as (s' & -> & Hs & _ & _ & _ & _ & _ & Hw). cbn.
  apply engine_inv_alt in Hinv as [Hnd Hsub]. rewrite engine_inv_alt, Hs.
  destruct Hw as [-> | [Hmem ->]]; [auto|].
  assert (Hf : ~ In f (dict_keys (waiting s))).
  { intros H%dict_mem_keys. congruence. }
  rewrite dict_keys_set by exact Hf. split.
  - apply List.NoDup_app; [exact Hnd | repeat constructor; intros [] |].
    intros g Hg [<-|[]]. tauto.
  - intros g Hg. apply in_or_app. left. auto.
Qed.

Lemma process_folder_a_inv nd cfg e s :
  engine_inv s -> engine_inv (snd (_process_folder_a nd cfg e s)).
Proof.
  intros Hinv. unfold _process_folder_a, mbind, M_bind.
  destruct (safe_listdir_frame e (folder_a cfg) s) as (r & -> & _).
  destruct r as [files|x]; cbn; [|exact Hinv].
  apply for_each_preserves; [|exact Hinv].
  intros _ f s1. apply scan_a_file_inv.
Qed.

(** *** [_process_folder_d] *)

(** The body of the scanning loop, case by case. *)
Lemma scan_d_file_cases nd cfg e updates f s :
  let path := path_join (folder_d cfg) f in
  scan_d_file nd cfg e updates f s =
    if negb (name_matches nd TXT_PATTERN f) then (Ok updates, s)
    else
      match getmtime_result e path with
      | None => (Ok updates, log_event (Getmtime path) s)
      | Some mtime =>
          if bool_decide (d_cache s !! f = Some mtime)
          then (Ok updates, log_event (Getmtime path) s)
          else
            let s1 := set_d_cache <[f := mtime]> (log_event (Getmtime path) s) in
            match name_search nd ISO_EXTRACT_PATTERN f with
            | None => (Ok updates, s1)
            | Some token =>
                match read_result e path with
                | None => (Ok updates, log_event (ReadText path) s1)
                | Some content =>
                    (Ok (updates ++ [(fst (_parse_material content),
                                      snd (_parse_material content),
                                      extract_cnc_time nd content,
                                      token ++ py ".iso")]),
                     log_event (ReadText path) s1)
                end
            end
      end.
Proof.
  intros path. unfold scan_d_file. fold path. clearbody path.
  destruct (name_matches nd TXT_PATTERN f); cbn; [|reflexivity].
  unfold_os. cbn.
  destruct (getmtime_result e path) as [mtime|]; cbn; [|reflexivity].
  destruct (bool_decide (d_cache s !! f = Some mtime)); cbn; [reflexivity|].
  destruct (name_search nd ISO_EXTRACT_PATTERN f) as [token|]; cbn; [|reflexivity].
  destruct (read_result e path) as [content|]; cbn; [|reflexivity].
  destruct (_parse_material content) as [mat gru]. reflexivity.
Qed.

(** The scan touches the cache and the log only, and never raises. *)
Lemma scan_d_file_frame nd cfg e updates f s :
  exists updates' s', scan_d_file nd cfg e updates f s = (Ok updates', s')
    /\ waiting s' = waiting s /\ seen_in_b s' = seen_in_b s
    /\ last_b_time s' = last_b_time s /\ processed s' = processed s
    /\ errors s' = errors s /\ fs s' = fs s /\ db s' = db s.
Proof.
  rewrite scan_d_file_cases. cbv zeta.
  repeat match goal with
         | |- context [match ?x with _ => _ end] => destruct x
         end; do 2 eexists; (split; [reflexivity|]); cbn; repeat split.
Qed.

Lemma scan_d_file_caches nd cfg e updates f s :
  cached nd cfg e (snd (scan_d_file nd cfg e updates f s)) f.
Proof.
  intros Htxt m Hm. rewrite scan_d_file_cases. cbv zeta. rewrite Htxt, Hm. cbn.
  destruct (bool_decide_reflect (d_cache s !! f = Some m)) as [Hc|Hc]; cbn; [exact Hc|].
  destruct (name_search nd ISO_EXTRACT_PATTERN f); cbn.
  - destruct (read_result e _); cbn; apply lookup_insert_eq.
  - apply lookup_insert_eq.
Qed.

Lemma scan_d_file_keeps_cached nd cfg e updates f s g :
  cached nd cfg e s g -> cached nd cfg e (snd (scan_d_file nd cfg e updates f s)) g.
Proof.
  intros Hg. destruct (decide (f = g)) as [<-|Hne]; [apply scan_d_file_caches|].
  intros Htxt m Hm. specialize (Hg Htxt m Hm).
  rewrite scan_d_file_cases. cbv zeta.
  repeat match goal with
         | |- context [match ?x with _ => _ end] => destruct x
         end; cbn; rewrite ?lookup_insert_ne by exact Hne; exact Hg.
Qed.

(** After the scanning loop every report it visited is cached. *)
Lemma scan_d_loop_caches nd cfg e (files : list str) :
  forall updates s g,
    In g files \/ cached nd cfg e s g ->
    cached nd cfg e (snd (for_each files (scan_d_file nd cfg e) updates s)) g.
Proof.
  induction files as [|f files IH]; intros updates s g Hg; cbn.
  - destruct Hg as [[]|Hg]. exact Hg.
  - unfold mbind, M_bind.
    destruct (scan_d_file_frame nd cfg e updates f s) as (u1 & s1 & Hrun & _).
    pose proof (scan_d_file_caches nd cfg e updates f s) as Hf.
    pose proof (scan_d_file_keeps_cached nd cfg e updates f s g) as Hk.
    rewrite Hrun in *. cbn in *. apply IH.
    destruct Hg as [[<-|Hg]|Hg]; auto.
Qed.

(** A loop over cached reports reads nothing and collects nothing. *)
Lemma scan_d_loop_skips nd cfg e (files : list str) :
  forall updates s,
    (forall g, In g files -> cached nd cfg e s g) ->
    exists s', for_each files (scan_d_file nd cfg e) updates s = (Ok updates, s')
      /\ d_cache s' = d_cache s /\ db s' = db s
      /\ exists evs, trace s' = trace s ++ evs
           /\ Forall (fun ev => exists p, ev = Getmtime p) evs.
Proof.
  induction files as [|f files IH]; intros updates s Hall; cbn.
  - exists s. repeat split. exists []. split; [now rewrite app_nil_r | constructor].
  - unfold mbind, M_bind. rewrite scan_d_file_cases. cbv zeta.
    assert (Hf := Hall f (or_introl eq_refl)). unfold cached in Hf.
    destruct (name_matches nd TXT_PATTERN f); cbn.
    + specialize (Hf eq_refl).
      destruct (getmtime_result e (path_join (folder_d cfg) f)) as [m|] eqn:Hm.
      * rewrite (bool_decide_eq_true_2 _ (Hf m eq_refl)).
        destruct (IH updates (log_event (Getmtime (path_join (folder_d cfg) f)) s))
          as (s' & Hrun & Hc & Hdb & evs & Htr & Hevs).
        { intros g Hg. apply Hall. now right. }
        exists s'. rewrite Hrun. repeat split; [exact Hc | exact Hdb |].
        exists (Getmtime (path_join (folder_d cfg) f) :: evs). split.
        -- rewrite Htr. cbn. now rewrite <- app_assoc.
        -- constructor; [eauto | exact Hevs].
      * destruct (IH updates (log_event (Getmtime (path_join (folder_d cfg) f)) s))
          as (s' & Hrun & Hc & Hdb & evs & Htr & Hevs).
        { intros g Hg. apply Hall. now right. }
        exists s'. rewrite Hrun. repeat split; [exact Hc | exact Hdb |].
        exists (Getmtime (path_join (folder_d cfg) f) :: evs). split.
        -- rewrite Htr. cbn. now rewrite <- app_assoc.
        -- constructor; [eauto | exact Hevs].
    + apply IH. intros g Hg. apply Hall. now right.
Qed.

Lemma cached_d_cache nd cfg e e' s s' g :
  d_cache s' = d_cache s ->
  (forall p, getmtime_result e' p = getmtime_result e p) ->
  cached nd cfg e s g -> cached nd cfg e' s' g.
Proof. intros Hc He Hg Htxt m Hm. rewrite Hc. rewrite He in Hm. now apply Hg. Qed.

Lemma same_dicts_refl s : same_dicts s s.
Proof. now repeat split. Qed.

Lemma same_dicts_trans s1 s2 s3 : same_dicts s1 s2 -> same_dicts s2 s3 -> same_dicts s1 s3.
Proof. intros (?&?&?) (?&?&?). repeat split; congruence. Qed.

Lemma apply_update_frame e n u s :
  same_dicts s (snd (apply_update e n u s)).
Proof.
  destruct u as [[[mat gru] czas] name]. unfold apply_update. unfold_os. cbn.
  destruct (update_fails e name); cbn; now repeat split.
Qed.

Lemma apply_updates_frame e (updates : list update) :
  forall n s, same_dicts s (snd (for_each updates (apply_update e) n s)).
Proof.
  intros n s. apply (for_each_preserves (same_dicts s)); [|apply same_dicts_refl].
  intros a u s1 H1. eapply same_dicts_trans; [exact H1 | apply apply_update_frame].
Qed.

Lemma scan_d_loop_frame nd cfg e (files : list str) :
  forall updates s,
    exists updates' s', for_each files (scan_d_file nd cfg e) updates s = (Ok updates', s')
      /\ waiting s' = waiting s /\ seen_in_b s' = seen_in_b s.
Proof.
  induction files as [|f files IH]; intros updates s; cbn.
  - exists updates, s. now repeat split.
  - unfold mbind, M_bind.
    destruct (scan_d_file_frame nd cfg e updates f s) as (u1 & s1 & -> & Hw & Hs & _).
    destruct (IH u1 s1) as (u2 & s2 & -> & Hw2 & Hs2).
    exists u2, s2. repeat split; congruence.
Qed.

(** [_process_folder_d] leaves [waiting] and [seen_in_b] alone. *)
Lemma process_folder_d_frame nd cfg e s :
  waiting (snd (_process_folder_d nd cfg e s)) = waiting s
  /\ seen_in_b (snd (_process_folder_d nd cfg e s)) = seen_in_b s.
Proof.
  destruct (_process_folder_d nd cfg e s) as [r s'] eqn:E. cbn. revert E.
  unfold _process_folder_d, mbind at 1, M_bind at 1.
  destruct (safe_listdir_frame e (folder_d cfg) s) as (rl & -> & _).
  destruct rl as [files|x]; cbn; [|intros [= <- <-]; split; reflexivity].
  unfold mbind at 1, M_bind at 1.
  destruct (scan_d_loop_frame nd cfg e files [] (log_event (Listdir (folder_d cfg)) s))
    as (updates & s1 & -> & Hw & Hs).
  unfold ret, mret, M_ret.
  destruct updates as [|u updates]; cbv beta iota; [intros [= <- <-]; split; assumption|].
  unfold mbind, M_bind.
  pose proof (apply_updates_frame e (u :: updates) 0 s1) as (Hw' & Hs' & _).
  destruct (for_each (u :: updates) (apply_update e) 0 s1) as [[n|x] s2]; cbn [snd] in *.
  all: cbn in Hw, Hs; intros [= <- <-]; split; congruence.
Qed.

Lemma engine_inv_dicts s s' :
  waiting s' = waiting s -> seen_in_b s' = seen_in_b s -> engine_inv s -> engine_inv s'.
Proof. unfold engine_inv, waiting_dom. now intros -> ->. Qed.

Lemma process_folder_d_inv nd cfg e s :
  engine_inv s -> engine_inv (snd (_process_folder_d nd cfg e s)).
Proof.
  destruct (process_folder_d_frame nd cfg e s) as [Hw Hs]. now apply engine_inv_dicts.
Qed.

(** *** [_run] *)

(** One iteration: the cycle's exception, if any, is counted and dropped. *)
Lemma tick_cases nd cfg e s :
  tick nd cfg e s =
    match cycle nd cfg e (log_event CycleStart s) with
    | (Ok _, s') => (Ok tt, s')
    | (Raise _, s') => (Ok tt, incr_errors s')
    end.
Proof.
  unfold tick, try_except, mbind, M_bind, emit, modify, any_Exception. cbn.
  destruct (cycle nd cfg e (log_event CycleStart s)) as [[[]|x] s']; reflexivity.
Qed.

Lemma cycle_inv nd cfg e s :
  engine_inv s -> engine_inv (snd (cycle nd cfg e s)).
Proof.
  intros Hinv. unfold cycle, mbind, M_bind.
  pose proof (process_folder_a_inv nd cfg e s Hinv) as Ha.
  destruct (_process_folder_a nd cfg e s) as [[[]|x] sa]; cbn in *; [|exact Ha].
  destruct (process_folder_b_inv cfg e sa Ha) as (sb & -> & Hb).
  apply process_folder_d_inv, Hb.
Qed.

Lemma tick_inv nd cfg e s :
  engine_inv s -> engine_inv (snd (tick nd cfg e s)).
Proof.
  intros Hinv. rewrite tick_cases.
  assert (H0 : engine_inv (log_event CycleStart s)) by exact Hinv.
  pose proof (cycle_inv nd cfg e _ H0) as Hc.
  destruct (cycle nd cfg e (log_event CycleStart s)) as [[[]|x] s']; exact Hc.
Qed.

Lemma run_cons nd cfg e envs s :
  _run nd cfg (e :: envs) s =
  _run nd cfg envs (set_fs (meanwhile e) (snd (tick nd cfg e s))).
Proof.
  cbn. unfold mbind, M_bind, modify. rewrite tick_cases.
  destruct (cycle nd cfg e (log_event CycleStart s)) as [[[]|x] s']; reflexivity.
Qed.

Lemma run_returns nd cfg envs :
  forall s, exists s', _run nd cfg envs s = (Ok tt, s').
Proof.
  induction envs as [|e envs IH]; intros s.
  - exists s. reflexivity.
  - rewrite run_cons. apply IH.
Qed.

Lemma run_inv nd cfg envs :
  forall s, engine_inv s -> engine_inv (snd (_run nd cfg envs s)).
Proof.
  induction envs as [|e envs IH]; intros s Hinv; [exact Hinv|].
  rewrite run_cons. apply IH. apply (tick_inv nd cfg e s Hinv).
Qed.

(** ** The archival transition *)

(** What a failed archival leaves behind, for every state and every way
    the calls can fail: the error counter goes up by one and the dicts and
    the table stay as they were; when a step up to the removal of the source
    fails the source is untouched and the temporary is gone, unless its
    removal fails too; when the insert fails the source is gone. *)
Lemma archive_failure_policy cfg e f now s pa t0 :
  dict_get f (waiting s) = Some (pa, t0) ->
  pa <> temp_path cfg f -> pa <> path_c cfg f ->
  let s' := snd (_archive_file cfg e f now s) in
  processed s' = processed s ->
  errors s' = errors s + 1 /\ waiting s' = waiting s /\ seen_in_b s' = seen_in_b s
  /\ db s' = db s
  /\ ((fs s' !! pa = fs s !! pa /\ last_b_time s' = last_b_time s
       /\ (fs s' !! temp_path cfg f = None \/ remove_fails e (temp_path cfg f) = true))
      \/ (fs s' !! pa = None /\ is_Some (fs s !! pa) /\ last_b_time s' = Some now
          /\ (insert_fails e f = true \/ seen_in_b s !! f = None))).
Proof.
  intros Hw Hat Hac.
  destruct (archive_file_cases cfg e f now s pa t0 Hw Hat Hac) as (s1 & -> & Hcases).
  cbn. intros Hp. destruct Hcases as [Hdone | [Hearly | Hlate]].
  - destruct Hdone as (? & ? & ? & ? & _ & _ & _ & ->). cbn in Hp. lia.
  - destruct Hearly as (pa' & t0' & Hw' & -> & -> & -> & _ & _ & -> & -> & Hfs & Htmp & _).
    rewrite Hw in Hw'. injection Hw' as <- <-.
    repeat split. left. repeat split; [apply Hfs; assumption | exact Htmp].
  - destruct Hlate as (pa' & t0' & bytes & Hw' & Hpa & Hwhy & -> & -> & -> & _ & _ & -> & -> & -> & _).
    rewrite Hw in Hw'. injection Hw' as <- <-.
    repeat split. right. rewrite lookup_delete_eq, Hpa. eauto.
Qed.

(** C1: the insert fails after the file has been moved.  The source in
    folder A is gone although the archival failed; the entry stays in
    [waiting] and [seen_in_b], so the next cycle tries again, finds no source
    and fails again: the file is never recorded. *)
Theorem archive_insert_failure_deletes_source :
  let s := job1_at_machine (seconds 4) None in
  let path_a := path_join (folder_a demo_cfg) job1 in
  let s1 := snd (_archive_file demo_cfg (database_down (seconds 424)) job1 (seconds 424) s) in
  let s2 := snd (check_b_file demo_cfg (quiet (seconds 426)) (seconds 426) job1 s1) in
  fs s !! path_a = Some demo_bytes
  /\ fs s1 !! path_a = None
  /\ fs s1 !! path_c demo_cfg job1 = Some demo_bytes
  /\ db s1 = [] /\ errors s1 = 1 /\ processed s1 = 0
  /\ waiting s1 = waiting s /\ seen_in_b s1 = seen_in_b s
  /\ db s2 = [] /\ errors s2 = 2 /\ waiting s2 = waiting s.
Proof. cbv zeta. repeat apply conj; vm_compute; reflexivity. Qed.




Lemma events_since_app (s s' : state) (evs : list event) :
  trace s' = trace s ++ evs -> events_since s s' = evs.
Proof. unfold events_since. intros ->. apply drop_app_length. Qed.




(** ** The dwell at the machine stage *)

(** One visit of the machine-stage scan to a file in flight: a file that
    is not there is passed over; the first visit that finds it records the
    time and does nothing else; a later one calls [_archive_file] if and only
    if at least [ARCHIVE_DELAY] seconds have passed since. *)
Lemma check_b_file_dwell cfg e now f s :
  is_Some (dict_get f (waiting s)) ->
  let pb := path_join (folder_b cfg) f in
  let s1 := log_event (Exists pb) s in
  let visit := check_b_file cfg e now f s in
  match fs s !! pb with
  | None => visit = (Ok tt, s1)
  | Some _ =>
      match seen_in_b s !! f with
      | None => visit = (Ok tt, set_seen_in_b <[f := now]> s1)
      | Some first_seen =>
          (seconds ARCHIVE_DELAY <= now - first_seen ->
           visit = _archive_file cfg e f now s1)
          /\ (now - first_seen < seconds ARCHIVE_DELAY -> visit = (Ok tt, s1))
          /\ ((exists src dst, In (Copy2 src dst) (events_since s (snd visit)))
              <-> seconds ARCHIVE_DELAY <= now - first_seen)
      end
  end.
Proof.
  intros Hf. cbv zeta.
  unfold check_b_file. set (pb := path_join (folder_b cfg) f) in *. clearbody pb.
  unfold os_path_exists, mbind, M_bind, ret, mret, M_ret, gets, modify, emit. cbn.
  rewrite bool_decide_is_Some.
  destruct (fs s !! pb) as [bytes|]; cbn; [|reflexivity].
  destruct (seen_in_b s !! f) as [t|]; cbn; [|reflexivity].
  unfold seconds. rewrite total_seconds_lt_delay.
  destruct (Z.ltb_spec (now - t) (ARCHIVE_DELAY * usec_per_sec)) as [Hlt|Hge].
  - split; [intros; lia|]. split; [intros _; reflexivity|]. split; [|intros; lia].
    cbn [snd]. rewrite (events_since_app s (log_event (Exists pb) s) [Exists pb] eq_refl).
    intros (src & dst & [H|[]]). discriminate.
  - split; [intros _; reflexivity|]. split; [intros; lia|]. split; [intros _; exact Hge|].
    intros _.
    destruct (archive_file_frame cfg e f now (log_event (Exists pb) s) Hf)
      as (s' & -> & _ & _ & pa & t0 & rest & _ & Htr).
    cbn in Htr. rewrite <- app_assoc in Htr. cbn in Htr.
    cbn [snd]. rewrite (events_since_app s s' _ Htr). do 2 eexists. right. left. reflexivity.
Qed.

(** A visit returns, adds to the log, and leaves the entries of every
    other file as they are. *)
Lemma check_b_file_others cfg e now g s :
  is_Some (dict_get g (waiting s)) ->
  exists s1, check_b_file cfg e now g s = (Ok tt, s1)
    /\ (exists evs, trace s1 = trace s ++ evs)
    /\ forall h, h <> g ->
         dict_get h (waiting s1) = dict_get h (waiting s)
         /\ seen_in_b s1 !! h = seen_in_b s !! h.
Proof.
  intros Hg. unfold check_b_file.
  set (pb := path_join (folder_b cfg) g). clearbody pb.
  unfold os_path_exists, mbind, M_bind, ret, mret, M_ret, gets, modify, emit. cbn.
  destruct (bool_decide (is_Some (fs s !! pb))); cbn.
  2:{ eexists; split; [reflexivity|]. cbn. eauto. }
  destruct (seen_in_b s !! g) as [t|]; cbn.
  2:{ eexists; split; [reflexivity|]. cbn. split; [eauto|].
      intros h Hh. split; [reflexivity | now apply lookup_insert_ne]. }
  destruct (timedelta_total_seconds (now - t) <? ARCHIVE_DELAY * float_unit).
  { eexists; split; [reflexivity|]. cbn. eauto. }
  destruct (archive_file_frame cfg e g now (log_event (Exists pb) s) Hg)
    as (s' & -> & _ & Hmaps & pa & t0 & rest & _ & Htr).
  exists s'. split; [reflexivity|]. cbn in *. split.
  - rewrite Htr, <- app_assoc. eauto.
  - intros h Hh. destruct Hmaps as [(-> & -> & _) | (-> & -> & _)]; [auto|].
    split; [now apply dict_get_del_ne | now apply lookup_delete_ne].
Qed.

(** The scan over the files other than [f] leaves the entries of [f]. *)
Lemma process_b_loop_others cfg e now f (keys : list str) :
  forall s,
    List.NoDup keys -> ~ In f keys ->
    (forall g, In g keys -> is_Some (dict_get g (waiting s))) ->
    exists s', for_each keys (fun _ filename => check_b_file cfg e now filename) tt s
               = (Ok tt, s')
      /\ dict_get f (waiting s') = dict_get f (waiting s)
      /\ seen_in_b s' !! f = seen_in_b s !! f.
Proof.
  induction keys as [|g keys IH]; intros s Hnd Hf Hin; cbn.
  - exists s. auto.
  - apply List.NoDup_cons_iff in Hnd as [Hg Hnd].
    destruct (check_b_file_others cfg e now g s (Hin g (or_introl eq_refl)))
      as (s1 & Hrun & _ & Hkeep).
    unfold mbind, M_bind. rewrite Hrun.
    destruct (IH s1 Hnd) as (s' & Hloop & Hw & Hs).
    + intros H. apply Hf. now right.
    + intros h Hh. destruct (Hkeep h) as [-> _]; [intros ->; tauto|]. apply Hin. now right.
    + exists s'. split; [exact Hloop|].
      destruct (Hkeep f) as [Hw1 Hs1]; [intros ->; apply Hf; now left|].
      rewrite Hw, Hs. auto.
Qed.

(** The scan is the visits to the files before [f], the visit to [f] and
    the visits to the files after it, none of which raises; the visits
    before leave the entries of [f] as the scan found them, those after as
    its own visit left them. *)
Lemma process_b_loop_visits cfg e now f (keys : list str) :
  forall s,
    List.NoDup keys -> In f keys ->
    (forall g, In g keys -> is_Some (dict_get g (waiting s))) ->
    exists (earlier later : list str) (s0 s' : state),
      keys = earlier ++ f :: later
      /\ for_each earlier (fun _ filename => check_b_file cfg e now filename) tt s
         = (Ok tt, s0)
      /\ dict_get f (waiting s0) = dict_get f (waiting s)
      /\ seen_in_b s0 !! f = seen_in_b s !! f
      /\ for_each later (fun _ filename => check_b_file cfg e now filename) tt
           (snd (check_b_file cfg e now f s0)) = (Ok tt, s')
      /\ for_each keys (fun _ filename => check_b_file cfg e now filename) tt s
         = (Ok tt, s')
      /\ dict_get f (waiting s') = dict_get f (waiting (snd (check_b_file cfg e now f s0)))
      /\ seen_in_b s' !! f = seen_in_b (snd (check_b_file cfg e now f s0)) !! f.
Proof.
  induction keys as [|g keys IH]; intros s Hnd Hf Hin; [destruct Hf|].
  apply List.NoDup_cons_iff in Hnd as [Hg Hnd].
  destruct (check_b_file_others cfg e now g s (Hin g (or_introl eq_refl)))
    as (s1 & Hrun & _ & Hkeep).
  assert (Hin1 : forall h, In h keys -> is_Some (dict_get h (waiting s1))).
  { intros h Hh. destruct (Hkeep h) as [-> _]; [intros ->; tauto|]. apply Hin. now right. }
  destruct (decide (g = f)) as [->|Hne].
  - destruct (process_b_loop_others cfg e now f keys s1 Hnd Hg Hin1)
      as (s' & Hloop & Hw & Hs).
    exists [], keys, s, s'. cbn [for_each app]. unfold mbind, M_bind. rewrite Hrun. cbn [snd].
    repeat split; assumption.
  - destruct Hf as [Hf|Hf]; [congruence|].
    destruct (IH s1 Hnd Hf Hin1)
      as (earlier & later & s0 & s' & -> & Hearlier & Hw0 & Hs0 & Hlater & Hall & Hw & Hs).
    exists (g :: earlier), later, s0, s'.
    destruct (Hkeep f) as [Hw1 Hs1]; [congruence|].
    cbn [for_each app]. unfold mbind, M_bind. rewrite Hrun.
    repeat split; [assumption | congruence | congruence | assumption..].
Qed.

(** C7: the machine-stage scan over a dict [waiting] (no key twice) returns,
    and it visits every file in flight: the scan is the visits to the files
    before this one, which lead to a state [s0] that holds this file's entry
    and sighting as the scan found them, then the visit to this file, then the
    visits to the files after it, and the entry and the sighting of this file
    at the end of the scan are those its visit left.  In the visit, a file
    that is not at the machine stage is passed over; the first visit that
    finds it there records the time of the sighting and does nothing else; a
    later one calls [_archive_file] if and only if at least [ARCHIVE_DELAY] =
    420 seconds have passed since the sighting, and otherwise does
    nothing. *)
Theorem dwell_threshold cfg e s f :
  List.NoDup (dict_keys (waiting s)) ->
  is_Some (dict_get f (waiting s)) ->
  let now := clock_b e in
  let pb := path_join (folder_b cfg) f in
  let visits := fun keys => for_each keys (fun _ g => check_b_file cfg e now g) tt in
  let s' := snd (_process_folder_b cfg e s) in
  ARCHIVE_DELAY = 420
  /\ fst (_process_folder_b cfg e s) = Ok tt
  /\ exists (earlier later : list str) (s0 : state),
       dict_keys (waiting s) = earlier ++ f :: later
       /\ visits earlier s = (Ok tt, s0)
       /\ dict_get f (waiting s0) = dict_get f (waiting s)
       /\ seen_in_b s0 !! f = seen_in_b s !! f
       /\ let s1 := log_event (Exists pb) s0 in
          let visit := check_b_file cfg e now f s0 in
          visits later (snd visit) = (Ok tt, s')
          /\ dict_get f (waiting s') = dict_get f (waiting (snd visit))
          /\ seen_in_b s' !! f = seen_in_b (snd visit) !! f
          /\ match fs s0 !! pb with
             | None => visit = (Ok tt, s1)
             | Some _ =>
                 match seen_in_b s !! f with
                 | None => visit = (Ok tt, set_seen_in_b <[f := now]> s1)
                 | Some first_seen =>
                     (seconds ARCHIVE_DELAY <= now - first_seen ->
                      visit = _archive_file cfg e f now s1)
                     /\ (now - first_seen < seconds ARCHIVE_DELAY -> visit = (Ok tt, s1))
                     /\ ((exists src dst, In (Copy2 src dst) (events_since s0 (snd visit)))
                         <-> seconds ARCHIVE_DELAY <= now - first_seen)
                 end
             end.
Proof.
  intros Hnd Hf. cbv zeta. split; [reflexivity|].
  unfold _process_folder_b, mbind, M_bind, gets.
  destruct (process_b_loop_visits cfg e (clock_b e) f (dict_keys (waiting s)) s Hnd)
    as (earlier & later & s0 & s' & Hkeys & Hearlier & Hw0 & Hs0 & Hlater & -> & Hw & Hs).
  - now apply dict_get_keys.
  - intros g Hg. now apply dict_get_keys.
  - cbn [fst snd]. split; [reflexivity|]. exists earlier, later, s0.
    split; [exact Hkeys|]. split; [exact Hearlier|]. split; [exact Hw0|].
    split; [exact Hs0|]. split; [exact Hlater|]. split; [exact Hw|]. split; [exact Hs|].
    rewrite <- Hs0. apply check_b_file_dwell. now rewrite Hw0.
Qed.

Lemma dwell_threshold_witness :
  let s := two_at_machine (seconds 4) in
  let e := quiet (seconds 424) in
  let f := job2 in
  let now := clock_b e in
  let pb := path_join (folder_b demo_cfg) f in
  let visits := fun keys => for_each keys (fun _ g => check_b_file demo_cfg e now g) tt in
  let s' := snd (_process_folder_b demo_cfg e s) in
  List.NoDup (dict_keys (waiting s))
  /\ is_Some (dict_get f (waiting s))
  /\ ARCHIVE_DELAY = 420
  /\ fst (_process_folder_b demo_cfg e s) = Ok tt
  /\ exists (earlier later : list str) (s0 : state),
       dict_keys (waiting s) = earlier ++ f :: later
       /\ visits earlier s = (Ok tt, s0)
       /\ dict_get f (waiting s0) = dict_get f (waiting s)
       /\ seen_in_b s0 !! f = seen_in_b s !! f
       /\ let s1 := log_event (Exists pb) s0 in
          let visit := check_b_file demo_cfg e now f s0 in
          visits later (snd visit) = (Ok tt, s')
          /\ dict_get f (waiting s') = dict_get f (waiting (snd visit))
          /\ seen_in_b s' !! f = seen_in_b (snd visit) !! f
          /\ match fs s0 !! pb with
             | None => visit = (Ok tt, s1)
             | Some _ =>
                 match seen_in_b s !! f with
                 | None => visit = (Ok tt, set_seen_in_b <[f := now]> s1)
                 | Some first_seen =>
                     (seconds ARCHIVE_DELAY <= now - first_seen ->
                      visit = _archive_file demo_cfg e f now s1)
                     /\ (now - first_seen < seconds ARCHIVE_DELAY -> visit = (Ok tt, s1))
                     /\ ((exists src dst, In (Copy2 src dst) (events_since s0 (snd visit)))
                         <-> seconds ARCHIVE_DELAY <= now - first_seen)
                 end
             end.
Proof.
  cbv zeta.
  assert (H1 : List.NoDup (dict_keys (waiting (two_at_machine (seconds 4))))).
  { change (List.NoDup [job1; job2]).
    constructor; [intros [H|[]]; vm_compute in H; discriminate H|].
    constructor; [intros []|constructor]. }
  assert (H2 : is_Some (dict_get job2 (waiting (two_at_machine (seconds 4)))))
    by (vm_compute; eauto).
  split; [exact H1|]. split; [exact H2|].
  exact (dwell_threshold demo_cfg (quiet (seconds 424)) (two_at_machine (seconds 4)) job2
           H1 H2).
Defined.

(** Both files of [two_at_machine] are visited in one scan: the first has
    dwelt its seven minutes and is archived, the second is sighted. *)
Example dwell_two_files :
  let s' := snd (_process_folder_b demo_cfg (quiet (seconds 424)) (two_at_machine (seconds 4))) in
  dict_keys (waiting s') = [job2]
  /\ seen_in_b s' = {[ job2 := seconds 424 ]}
  /\ processed s' = 1.
Proof.
  cbv zeta. split; [vm_compute; reflexivity|]. split; [vm_compute; reflexivity|].
  vm_compute; reflexivity.
Qed.

(** At the threshold the file is archived; a microsecond earlier it is
    not. *)
Example dwell_boundary :
  let s := job1_at_machine (seconds 4) None in
  let at_threshold := seconds 424 in
  let just_below := seconds 424 - 1 in
  processed (snd (check_b_file demo_cfg (quiet at_threshold) at_threshold job1 s)) = 1
  /\ dict_keys (waiting (snd (check_b_file demo_cfg (quiet at_threshold) at_threshold job1 s))) = []
  /\ snd (check_b_file demo_cfg (quiet just_below) just_below job1 s)
     = log_event (Exists (path_join (folder_b demo_cfg) job1)) s.
Proof. cbv zeta. repeat apply conj; vm_compute; reflexivity. Qed.

(** ** The polling loop *)

Lemma scan_a_loop_returns nd cfg e (files : list str) :
  forall s, exists s',
    for_each files (fun _ filename => scan_a_file nd cfg e filename) tt s = (Ok tt, s').
Proof.
  induction files as [|f files IH]; intros s; cbn.
  - exists s. reflexivity.
  - unfold mbind, M_bind. destruct (scan_a_file_frame nd cfg e f s) as (s1 & -> & _).
    apply IH.
Qed.

(** The intake scan raises exactly when [os.listdir] raises something that
    is not an [OSError]. *)
Lemma process_folder_a_raises nd cfg e s :
  match listdir_result e (folder_a cfg) with
  | LsError => _process_folder_a nd cfg e s
               = (Raise (Error "listdir"), log_event (Listdir (folder_a cfg)) s)
  | _ => exists s', _process_folder_a nd cfg e s = (Ok tt, s')
  end.
Proof.
  unfold _process_folder_a, mbind, M_bind.
  destruct (safe_listdir_frame e (folder_a cfg) s) as (r & -> & Hr).
  destruct (listdir_result e (folder_a cfg)); subst r; cbv beta iota;
    [apply scan_a_loop_returns | apply scan_a_loop_returns | reflexivity].
Qed.

(** C3, as the design document states it, fails: when the listing of
    folder A raises, the machine-stage scan and the report scan of that cycle
    do not run.  [job1.iso] has dwelt its seven minutes and is archived by a
    cycle that can list folder A, but not by this one. *)
Lemma intake_exception_skips_cycle_counterexample :
  let s := job1_at_machine (seconds 4) None in
  let s' := snd (tick ascii_digits demo_cfg (intake_unlistable (seconds 424)) s) in
  let s'' := snd (tick ascii_digits demo_cfg (quiet (seconds 424)) s) in
  fst (_process_folder_a ascii_digits demo_cfg (intake_unlistable (seconds 424))
         (log_event CycleStart s)) = Raise (Error "listdir")
  /\ events_since s s' = [CycleStart; Listdir (folder_a demo_cfg)]
  /\ ~ In (Listdir (folder_d demo_cfg)) (events_since s s')
  /\ processed s' = 0 /\ errors s' = 1
  /\ processed s'' = 1 /\ errors s'' = 0
  /\ In (Listdir (folder_d demo_cfg)) (events_since s s'').
Proof.
  cbv zeta.
  split; [vm_compute; reflexivity|].
  split; [vm_compute; reflexivity|].
  split; [vm_compute; intros [H|[H|[]]]; discriminate|].
  do 4 (split; [vm_compute; reflexivity|]).
  vm_compute. auto 20.
Qed.

(** C3 (amended): an iteration of the loop never raises.  An exception
    that leaves the intake scan, the machine-stage scan or the report scan
    ends the cycle at that point: the steps after it are not run in that
    cycle, and the error counter goes up by one.  The loop then goes on with
    the next iteration, from the state the cycle was left in. *)
Theorem tick_fault_containment nd cfg e s :
  (exists s', tick nd cfg e s = (Ok tt, s'))
  /\ match _process_folder_a nd cfg e (log_event CycleStart s) with
     | (Raise _, sa) => tick nd cfg e s = (Ok tt, incr_errors sa)
     | (Ok _, sa) =>
         match _process_folder_b cfg e sa with
         | (Raise _, sb) => tick nd cfg e s = (Ok tt, incr_errors sb)
         | (Ok _, sb) =>
             match _process_folder_d nd cfg e sb with
             | (Raise _, sd) => tick nd cfg e s = (Ok tt, incr_errors sd)
             | (Ok _, sd) => tick nd cfg e s = (Ok tt, sd)
             end
         end
     end
  /\ (forall envs,
        _run nd cfg (e :: envs) s
        = _run nd cfg envs (set_fs (meanwhile e) (snd (tick nd cfg e s))))
  /\ (forall envs, exists s', _run nd cfg envs s = (Ok tt, s')).
Proof.
  split; [|split; [|split]].
  - rewrite tick_cases.
    destruct (cycle nd cfg e (log_event CycleStart s)) as [[[]|x] s']; eauto.
  - rewrite tick_cases. unfold cycle, mbind, M_bind.
    destruct (_process_folder_a nd cfg e (log_event CycleStart s)) as [[[]|xa] sa];
      [|reflexivity].
    destruct (_process_folder_b cfg e sa) as [[[]|xb] sb]; [|reflexivity].
    destruct (_process_folder_d nd cfg e sb) as [[[]|xd] sd]; reflexivity.
  - intros envs. apply run_cons.
  - intros envs. apply run_returns.
Qed.

(** ** The report scan *)

(** After [_process_folder_d] every report the folder listed is cached. *)
Lemma process_folder_d_caches nd cfg e s (files : list str) (g : str) :
  listdir_result e (folder_d cfg) = LsNames files -> In g files ->
  cached nd cfg e (snd (_process_folder_d nd cfg e s)) g.
Proof.
  intros Hls Hg. unfold _process_folder_d, mbind at 1, M_bind at 1.
  destruct (safe_listdir_frame e (folder_d cfg) s) as (r & -> & Hr).
  rewrite Hls in Hr. subst r. cbv beta iota.
  unfold mbind at 1, M_bind at 1.
  pose proof (scan_d_loop_caches nd cfg e files [] (log_event (Listdir (folder_d cfg)) s)
                g (or_introl Hg)) as Hc.
  destruct (scan_d_loop_frame nd cfg e files [] (log_event (Listdir (folder_d cfg)) s))
    as (updates & s1 & Hrun & _).
  rewrite Hrun in *. cbn [snd] in Hc. unfold ret, mret, M_ret.
  destruct updates as [|u updates]; cbv beta iota; [exact Hc|].
  unfold mbind, M_bind.
  pose proof (apply_updates_frame e (u :: updates) 0 s1) as (_ & _ & Hd).
  destruct (for_each (u :: updates) (apply_update e) 0 s1) as [[n|x] s2]; cbn [snd] in *.
  all: apply (cached_d_cache nd cfg e e s1 s2 g Hd (fun _ => eq_refl) Hc).
Qed.

(** C8: a report whose cached modification time equals the present one is
    passed over: nothing is read, collected, or written.  Consequently a
    second report scan over the same listing with the same modification
    times writes nothing to the table: it only lists the folder and reads
    the modification times. *)
Theorem unchanged_report_skipped nd cfg e s :
  (forall updates f m,
      name_matches nd TXT_PATTERN f = true ->
      getmtime_result e (path_join (folder_d cfg) f) = Some m ->
      d_cache s !! f = Some m ->
      scan_d_file nd cfg e updates f s
      = (Ok updates, log_event (Getmtime (path_join (folder_d cfg) f)) s))
  /\ (forall e',
        listdir_result e' (folder_d cfg) = listdir_result e (folder_d cfg) ->
        (forall p, getmtime_result e' p = getmtime_result e p) ->
        let s1 := snd (_process_folder_d nd cfg e s) in
        let s2 := snd (_process_folder_d nd cfg e' s1) in
        db s2 = db s1 /\ d_cache s2 = d_cache s1
        /\ Forall scan_only (events_since s1 s2)).
Proof.
  split.
  - intros updates f m Htxt Hm Hc. rewrite scan_d_file_cases. cbv zeta.
    rewrite Htxt, Hm. cbn. now rewrite (bool_decide_eq_true_2 _ Hc).
  - intros e' Hls Hmt. cbv zeta.
    set (s1 := snd (_process_folder_d nd cfg e s)).
    assert (Hcached : forall files g, listdir_result e (folder_d cfg) = LsNames files ->
                        In g files -> cached nd cfg e' s1 g).
    { intros files g Hf Hg.
      apply (cached_d_cache nd cfg e e' s1 s1 g eq_refl Hmt).
      now apply (process_folder_d_caches nd cfg e s files g). }
    clearbody s1.
    destruct (_process_folder_d nd cfg e' s1) as [r2 s2] eqn:E2. cbn [snd]. revert E2.
    unfold _process_folder_d, mbind at 1, M_bind at 1.
    destruct (safe_listdir_frame e' (folder_d cfg) s1) as (r & -> & Hr).
    rewrite Hls in Hr.
    destruct (listdir_result e (folder_d cfg)) as [files| |] eqn:Hfiles; subst r;
      cbv beta iota.
    + unfold mbind at 1, M_bind at 1.
      destruct (scan_d_loop_skips nd cfg e' files [] (log_event (Listdir (folder_d cfg)) s1))
        as (s3 & -> & Hc & Hdb & evs & Htr & Hevs).
      { intros g Hg. apply (cached_d_cache nd cfg e' e' s1 _ g eq_refl (fun _ => eq_refl)).
        now apply (Hcached files). }
      cbv beta iota. unfold ret, mret, M_ret. intros [= <- <-].
      repeat split; [exact Hdb | exact Hc |].
      cbn in Htr. rewrite <- app_assoc in Htr. rewrite (events_since_app s1 s3 _ Htr).
      cbn. constructor; [left; eauto|].
      eapply List.Forall_impl; [|exact Hevs]. intros ev Hev. now right.
    + cbn. intros [= <- <-]. repeat split.
      rewrite (events_since_app s1 (log_event (Listdir (folder_d cfg)) s1) _ eq_refl).
      constructor; [left; eauto | constructor].
    + intros [= <- <-]. repeat split.
      rewrite (events_since_app s1 (log_event (Listdir (folder_d cfg)) s1) _ eq_refl).
      constructor; [left; eauto | constructor].
Qed.

(** C9: when a report's modification time differs from the cached one, the
    cache takes the new time before the name is matched against
    [#<name>.iso.txt] and before the content is read; a report whose name
    does not match, or whose content cannot be read, is collected nowhere,
    and is passed over by every later scan that finds the same modification
    time. *)
Theorem report_cached_before_parsing nd cfg e updates f s m :
  name_matches nd TXT_PATTERN f = true ->
  getmtime_result e (path_join (folder_d cfg) f) = Some m ->
  d_cache s !! f <> Some m ->
  let path := path_join (folder_d cfg) f in
  let r := scan_d_file nd cfg e updates f s in
  d_cache (snd r) = <[f := m]> (d_cache s)
  /\ (name_search nd ISO_EXTRACT_PATTERN f = None ->
      r = (Ok updates, set_d_cache <[f := m]> (log_event (Getmtime path) s)))
  /\ (read_result e path = None -> fst r = Ok updates /\ db (snd r) = db s)
  /\ (forall e' updates',
        getmtime_result e' path = Some m ->
        scan_d_file nd cfg e' updates' f (snd r)
        = (Ok updates', log_event (Getmtime path) (snd r))).
Proof.
  intros Htxt Hm Hc. cbv zeta.
  assert (Hd : d_cache (snd (scan_d_file nd cfg e updates f s)) = <[f := m]> (d_cache s)).
  { rewrite scan_d_file_cases. cbv zeta. rewrite Htxt, Hm. cbn.
    rewrite (bool_decide_eq_false_2 _ Hc).
    destruct (name_search nd ISO_EXTRACT_PATTERN f); cbn; [|reflexivity].
    destruct (read_result e _); reflexivity. }
  split; [exact Hd|]. split; [|split].
  - intros Hname. rewrite scan_d_file_cases. cbv zeta. rewrite Htxt, Hm. cbn.
    now rewrite (bool_decide_eq_false_2 _ Hc), Hname.
  - intros Hread. rewrite scan_d_file_cases. cbv zeta. rewrite Htxt, Hm. cbn.
    rewrite (bool_decide_eq_false_2 _ Hc), Hread.
    destruct (name_search nd ISO_EXTRACT_PATTERN f); split; reflexivity.
  - intros e' updates' Hm'. rewrite (scan_d_file_cases nd cfg e'). cbv zeta.
    rewrite Htxt, Hm'. cbn.
    rewrite bool_decide_eq_true_2; [reflexivity|]. rewrite Hd. apply lookup_insert_eq.
Qed.

Lemma report_cached_before_parsing_witness :
  let f := py "notes.txt" in
  let e := one_report f 5 (Some (py "STEEL-3MM")) in
  let s := init ∅ [] in
  let path := path_join (folder_d demo_cfg) f in
  let r := scan_d_file ascii_digits demo_cfg e [] f s in
  name_matches ascii_digits TXT_PATTERN f = true
  /\ getmtime_result e (path_join (folder_d demo_cfg) f) = Some 5
  /\ d_cache s !! f <> Some 5
  /\ d_cache (snd r) = <[f := 5]> (d_cache s)
  /\ (name_search ascii_digits ISO_EXTRACT_PATTERN f = None ->
      r = (Ok [], set_d_cache <[f := 5]> (log_event (Getmtime path) s)))
  /\ (read_result e path = None -> fst r = Ok [] /\ db (snd r) = db s)
  /\ (forall e' updates',
        getmtime_result e' path = Some 5 ->
        scan_d_file ascii_digits demo_cfg e' updates' f (snd r)
        = (Ok updates', log_event (Getmtime path) (snd r))).
Proof.
  cbv zeta.
  assert (H1 : name_matches ascii_digits TXT_PATTERN (py "notes.txt") = true)
    by (vm_compute; reflexivity).
  assert (H2 : getmtime_result (one_report (py "notes.txt") 5 (Some (py "STEEL-3MM")))
                 (path_join (folder_d demo_cfg) (py "notes.txt")) = Some 5)
    by (vm_compute; reflexivity).
  assert (H3 : d_cache (init ∅ []) !! py "notes.txt" <> Some 5)
    by (vm_compute; discriminate).
  split; [exact H1|]. split; [exact H2|]. split; [exact H3|].
  exact (report_cached_before_parsing ascii_digits demo_cfg
           (one_report (py "notes.txt") 5 (Some (py "STEEL-3MM"))) []
           (py "notes.txt") (init ∅ []) 5 H1 H2 H3).
Defined.

(** A report is parsed once: the first scan updates the row of
    [job1.iso], a second scan with the modification time unchanged does not
    touch the table; a report named outside the convention is cached and
    never read. *)
Example report_scanned_once :
  let content := py ("STEEL-3MM" ++ LF ++ "Cycle Time: 01:23:45") in
  let e := one_report report1 5 (Some content) in
  let row := mkFileRecord (Some 1) job1 [] [] [] 0 None None None Brak Brak Brak in
  let s1 := snd (_process_folder_d ascii_digits demo_cfg e (init ∅ [row])) in
  let s2 := snd (_process_folder_d ascii_digits demo_cfg e s1) in
  List.map (fun r => (material r, grubosc r, czas_realny_cnc r)) (db s1)
    = [(py "STEEL", py "3MM", py "01:23:45")]
  /\ d_cache s1 !! report1 = Some 5
  /\ db s2 = db s1
  /\ events_since s1 s2
     = [Listdir (folder_d demo_cfg); Getmtime (path_join (folder_d demo_cfg) report1)].
Proof. cbv zeta. repeat apply conj; vm_compute; reflexivity. Qed.

(** ** Sightings belong to files in flight *)

Lemma archive_file_inv cfg e f now s :
  In f (dict_keys (waiting s)) -> engine_inv s ->
  engine_inv (snd (_archive_file cfg e f now s))
  /\ (processed (snd (_archive_file cfg e f now s)) = processed s + 1 ->
      dict_get f (waiting (snd (_archive_file cfg e f now s))) = None
      /\ seen_in_b (snd (_archive_file cfg e f now s)) !! f = None).
Proof.
  intros Hf%dict_get_keys Hinv.
  destruct (archive_file_frame cfg e f now s Hf) as (s' & -> & _ & Hmaps & _). cbn [snd].
  apply engine_inv_alt in Hinv as [Hnd Hsub]. rewrite engine_inv_alt.
  destruct Hmaps as [(Hw & Hs & Hp & _) | (Hw & Hs & _)]; rewrite Hw, Hs.
  - split; [auto | lia].
  - split; [split|].
    + now apply dict_keys_del_NoDup.
    + intros g. destruct (decide (f = g)) as [<-|Hne].
      * rewrite lookup_delete_eq. intros [? [=]].
      * rewrite lookup_delete_ne by exact Hne. intros Hg.
        apply dict_keys_del_In. split; [auto | congruence].
    + intros _. split; [|apply lookup_delete_eq].
      destruct (dict_get f (dict_del f (waiting s))) eqn:Hget; [|reflexivity].
      assert (Hin : In f (dict_keys (dict_del f (waiting s))))
        by (apply dict_get_keys; eauto).
      apply dict_keys_del_In in Hin. tauto.
Qed.

(** C10: in every state in which each sighting belongs to a file in
    flight, [dom seen_in_b ⊆ dom waiting] (and [waiting], a dict, has no key
    twice), this is so again after the intake scan, after the machine-stage
    scan, after the report scan, after a whole iteration and after any
    number of iterations, whatever the environment does; a visit of the
    machine-stage scan creates a sighting only for a key of [waiting], and a
    successful archival removes the file's entry and its sighting together.
    The state the engine starts in is such a state. *)
Theorem sightings_within_waiting nd cfg e s :
  engine_inv s ->
  engine_inv (snd (_process_folder_a nd cfg e s))
  /\ engine_inv (snd (_process_folder_b cfg e s))
  /\ engine_inv (snd (_process_folder_d nd cfg e s))
  /\ engine_inv (snd (tick nd cfg e s))
  /\ (forall envs, engine_inv (snd (_run nd cfg envs s)))
  /\ (forall f now, In f (dict_keys (waiting s)) ->
        engine_inv (snd (check_b_file cfg e now f s))
        /\ engine_inv (snd (_archive_file cfg e f now s))
        /\ (processed (snd (_archive_file cfg e f now s)) = processed s + 1 ->
            dict_get f (waiting (snd (_archive_file cfg e f now s))) = None
            /\ seen_in_b (snd (_archive_file cfg e f now s)) !! f = None))
  /\ engine_inv (init (fs s) (db s)).
Proof.
  intros Hinv.
  split; [now apply process_folder_a_inv|].
  split; [destruct (process_folder_b_inv cfg e s Hinv) as (s' & -> & H'); exact H'|].
  split; [now apply process_folder_d_inv|].
  split; [now apply tick_inv|].
  split; [intros envs; now apply run_inv|].
  split.
  - intros f now Hf. split; [|now apply archive_file_inv].
    destruct (check_b_file_inv cfg e now f s Hf Hinv) as (s' & -> & H' & _). exact H'.
  - apply engine_inv_alt. cbn. split; [constructor|].
    intros f [x Hx]. rewrite lookup_empty in Hx. discriminate.
Qed.

Lemma sightings_within_waiting_witness :
  let s := job1_at_machine (seconds 4) None in
  let e := quiet (seconds 424) in
  engine_inv s
  /\ engine_inv (snd (_process_folder_a ascii_digits demo_cfg e s))
  /\ engine_inv (snd (_process_folder_b demo_cfg e s))
  /\ engine_inv (snd (_process_folder_d ascii_digits demo_cfg e s))
  /\ engine_inv (snd (tick ascii_digits demo_cfg e s))
  /\ (forall envs, engine_inv (snd (_run ascii_digits demo_cfg envs s)))
  /\ (forall f now, In f (dict_keys (waiting s)) ->
        engine_inv (snd (check_b_file demo_cfg e now f s))
        /\ engine_inv (snd (_archive_file demo_cfg e f now s))
        /\ (processed (snd (_archive_file demo_cfg e f now s)) = processed s + 1 ->
            dict_get f (waiting (snd (_archive_file demo_cfg e f now s))) = None
            /\ seen_in_b (snd (_archive_file demo_cfg e f now s)) !! f = None))
  /\ engine_inv (init (fs s) (db s)).
Proof.
  cbv zeta.
  assert (H : engine_inv (job1_at_machine (seconds 4) None)).
  { apply engine_inv_alt. split.
    - repeat constructor. intros [].
    - intros f [x Hx]. cbn in Hx. apply lookup_singleton_Some in Hx as [<- _]. now left. }
  split; [exact H|].
  exact (sightings_within_waiting ascii_digits demo_cfg (quiet (seconds 424))
           (job1_at_machine (seconds 4) None) H).
Defined.
(** * Further properties *)

(** ** [safe_filename] *)

Lemma unsafe_chars_In (c : char) :
  existsb (N.eqb c) unsafe_chars = true <-> In c unsafe_chars.
Proof.
  rewrite existsb_exists. split.
  - intros (x & Hx & Heq). apply N.eqb_eq in Heq. now subst.
  - intros H. exists c. split; [exact H | apply N.eqb_refl].
Qed.

(** X1: [safe_filename] keeps the length and every character outside the
    class where it is, puts an underscore for every character of the class,
    so the result has none of them; it changes nothing on a second
    application, and leaves a name as it is exactly when the name has no
    character of the class. *)
Theorem safe_filename_spec (name : str) :
  length (safe_filename name) = length name
  /\ (forall c, In c (safe_filename name) -> ~ In c unsafe_chars)
  /\ (forall (i : nat) (c : N), name !! i = Some c ->
        safe_filename name !! i = Some (if bool_decide (In c unsafe_chars) then 95%N else c))
  /\ safe_filename (safe_filename name) = safe_filename name
  /\ (safe_filename name = name <-> forall c, In c name -> ~ In c unsafe_chars).
Proof.
  unfold safe_filename. split; [apply length_map|]. split; [|split; [|split]].
  - intros c Hc. apply in_map_iff in Hc as (x & Hx & _).
    destruct (existsb (N.eqb x) unsafe_chars) eqn:E; subst c.
    + vm_compute. intuition discriminate.
    + intros H%unsafe_chars_In. congruence.
  - intros i c Hi. change (List.map ?f name) with (f <$> name).
    rewrite list_lookup_fmap, Hi. cbn [fmap option_fmap option_map]. f_equal.
    destruct (existsb (N.eqb c) unsafe_chars) eqn:E.
    + rewrite bool_decide_eq_true_2; [reflexivity | now apply unsafe_chars_In].
    + rewrite bool_decide_eq_false_2; [reflexivity|].
      intros H%unsafe_chars_In. congruence.
  - rewrite map_map. apply map_ext. intros c.
    destruct (existsb (N.eqb c) unsafe_chars) eqn:E; [reflexivity | now rewrite E].
  - split.
    + intros Heq c Hc Hu. apply unsafe_chars_In in Hu.
      apply In_nth_error in Hc as [i Hi].
      assert (Hi' := Hi). rewrite <- Heq in Hi' at 1.
      rewrite nth_error_map, Hi in Hi'. cbn [option_map] in Hi'. rewrite Hu in Hi'.
      injection Hi' as <-. vm_compute in Hu. discriminate.
    + intros H. rewrite <- (map_id name) at 2. apply map_ext_in. intros c Hc.
      destruct (existsb (N.eqb c) unsafe_chars) eqn:E; [|reflexivity].
      apply unsafe_chars_In in E. now apply H in Hc.
Qed.

(** ** [format_timedelta] *)

Lemma to_string_py (x : string) : to_string (py x) = x.
Proof.
  unfold to_string, py. rewrite map_map.
  rewrite (map_ext _ (fun a => a)) by apply ascii_N_embedding.
  rewrite map_id. apply string_of_list_ascii_of_string.
Qed.

Lemma read_decimal_print (n : N) :
  read_decimal (py (NilZero.string_of_uint (N.to_uint n))) = n.
Proof.
  unfold read_decimal. rewrite to_string_py.
  assert (Hnil : N.to_uint n <> Decimal.Nil).
  { destruct n; [discriminate | apply DecimalPos.Unsigned.to_uint_nonnil]. }
  assert (Hs : NilZero.string_of_uint (N.to_uint n) = NilEmpty.string_of_uint (N.to_uint n)).
  { destruct (N.to_uint n); [congruence | reflexivity..]. }
  rewrite Hs, NilEmpty.usu. apply DecimalN.Unsigned.of_to.
Qed.

Lemma read_decimal_zero (s : str) : read_decimal (48%N :: s) = read_decimal s.
Proof.
  unfold read_decimal, to_string. cbn [List.map string_of_list_ascii NilEmpty.uint_of_string].
  change (ascii_of_N 48) with "0"%char.
  destruct (NilEmpty.uint_of_string _); reflexivity.
Qed.

(** A printed number is made of ASCII digits. *)
Lemma decimal_digits (d : Decimal.uint) :
  Forall (fun c => (48 <= c <= 57)%N) (py (NilZero.string_of_uint d)).
Proof.
  assert (H : Forall (fun c => (48 <= c <= 57)%N) (py (NilEmpty.string_of_uint d))).
  { induction d; cbn; constructor; try exact IHd; cbn; lia. }
  destruct d; try exact H. repeat constructor; cbn; lia.
Qed.

Lemma format_02d_chars (n : Z) (c : char) :
  In c (format_02d n) -> c = 45%N \/ (48 <= c <= 57)%N.
Proof.
  unfold format_02d. cbv zeta.
  pose proof (decimal_digits (N.to_uint (Z.abs_N n))) as Hd.
  rewrite List.Forall_forall in Hd.
  destruct (n <? 0); [|destruct (_ <? 2)%nat]; cbn [In]; intros H.
  - destruct H as [<-|H]; auto.
  - destruct H as [<-|H]; [right; lia | auto].
  - auto.
Qed.

Lemma format_02d_nonneg_head (n : Z) :
  0 <= n -> exists c rest, format_02d n = c :: rest /\ (48 <= c <= 57)%N.
Proof.
  intros Hn. unfold format_02d. cbv zeta.
  destruct (Z.ltb_spec n 0); [lia|].
  pose proof (decimal_digits (N.to_uint (Z.abs_N n))) as Hd.
  destruct (py (NilZero.string_of_uint (N.to_uint (Z.abs_N n)))) as [|c ds] eqn:E.
  - cbn. exists 48%N, []. split; [reflexivity | lia].
  - apply List.Forall_cons_iff in Hd as [Hc _].
    destruct (_ <? 2)%nat; [exists 48%N; eexists; split; [reflexivity | lia]|].
    exists c, ds. split; [reflexivity | exact Hc].
Qed.

Lemma read_02d_format (n : Z) : read_02d (format_02d n) = n.
Proof.
  destruct (Z.ltb_spec n 0) as [Hneg|Hpos].
  - unfold format_02d. cbv zeta. rewrite (proj2 (Z.ltb_lt n 0) Hneg).
    cbn [read_02d]. rewrite read_decimal_print. lia.
  - destruct (format_02d_nonneg_head n Hpos) as (c & rest & E & Hc).
    assert (Hr : read_02d (format_02d n) = Z.of_N (read_decimal (format_02d n))).
    { rewrite E. unfold read_02d. destruct c as [|p]; [reflexivity|].
      destruct (N.eqb_spec (N.pos p) 45) as [Heq|Hne]; [rewrite Heq in Hc; lia|].
      do 6 (destruct p as [p|p|]; try reflexivity). now contradict Hne. }
    rewrite Hr. unfold format_02d. cbv zeta. rewrite (proj2 (Z.ltb_ge n 0) Hpos).
    destruct (_ <? 2)%nat; rewrite ?read_decimal_zero, read_decimal_print; lia.
Qed.

Lemma app_sep_inj {A} (x : A) (l1 l2 r1 r2 : list A) :
  ~ In x l1 -> ~ In x l2 -> l1 ++ x :: r1 = l2 ++ x :: r2 -> l1 = l2 /\ r1 = r2.
Proof.
  revert l2. induction l1 as [|a l1 IH]; intros [|b l2] H1 H2 E; cbn in *.
  - injection E as ->. auto.
  - injection E as <- _. tauto.
  - injection E as -> _. tauto.
  - injection E as -> E. destruct (IH l2) as [-> ->]; tauto.
Qed.

Lemma format_02d_no_colon (n : Z) : ~ In 58%N (format_02d n).
Proof. intros [H|H]%format_02d_chars; [discriminate | lia]. Qed.

Lemma format_02d_two_digits (n : Z) :
  0 <= n < 100 -> format_02d n = [digit (n / 10); digit (n mod 10)].
Proof.
  intros Hn. rewrite <- (Z2Nat.id n) by lia.
  assert (Hk : (Z.to_nat n < 100)%nat) by lia. revert Hk.
  generalize (Z.to_nat n). intros k.
  do 100 (destruct k as [|k]; [intros _; vm_compute; reflexivity|]). lia.
Qed.

(** X2: a duration from zero to just under a hundred hours is printed as
    eight characters, two digits each for the hours, the minutes and the
    seconds with colons between; fractions of a second are dropped. *)
Theorem format_timedelta_clock (td : timedelta) :
  0 <= td < seconds 360000 ->
  let t := td / usec_per_sec in
  format_timedelta td =
    [digit (t / 36000); digit (t / 3600 mod 10); 58%N;
     digit (t mod 3600 / 600); digit (t mod 3600 / 60 mod 10); 58%N;
     digit (t mod 60 / 10); digit (t mod 60 mod 10)]
  /\ t mod 3600 / 60 < 60 /\ t mod 60 < 60.
Proof.
  intros Htd. cbv zeta. unfold seconds, usec_per_sec in *.
  set (t := td / 1000000).
  assert (Ht : 0 <= t < 360000) by (subst t; Z.to_euclidean_division_equations; lia).
  assert (Hq : int_of_float (timedelta_total_seconds td) = t).
  { rewrite int_total_seconds_exact
      by (unfold usec_per_sec; change (2 ^ 34) with 17179869184; lia).
    subst t. apply Z.quot_div_nonneg; lia. }
  split; [|Z.to_euclidean_division_equations; lia].
  unfold format_timedelta. cbv zeta. rewrite Hq. clearbody t.
  rewrite !format_02d_two_digits by (Z.to_euclidean_division_equations; lia).
  rewrite !Z.div_div by lia. reflexivity.
Qed.

Lemma format_timedelta_clock_witness :
  let td := seconds 3725 + 999999 in
  0 <= td < seconds 360000
  /\ let t := td / usec_per_sec in
     format_timedelta td =
       [digit (t / 36000); digit (t / 3600 mod 10); 58%N;
        digit (t mod 3600 / 600); digit (t mod 3600 / 60 mod 10); 58%N;
        digit (t mod 60 / 10); digit (t mod 60 mod 10)]
     /\ t mod 3600 / 60 < 60 /\ t mod 60 < 60.
Proof.
  cbv zeta.
  assert (H : 0 <= seconds 3725 + 999999 < seconds 360000) by (vm_compute; split; congruence).
  split; [exact H|].
  exact (format_timedelta_clock (seconds 3725 + 999999) H).
Defined.

(** The text tells the whole seconds [int(td.total_seconds())] came to. *)
Lemma format_timedelta_seconds (a b : timedelta) :
  format_timedelta a = format_timedelta b
  <-> int_of_float (timedelta_total_seconds a) = int_of_float (timedelta_total_seconds b).
Proof.
  split; [|unfold format_timedelta; intros ->; reflexivity].
  unfold format_timedelta. cbv zeta.
  generalize (int_of_float (timedelta_total_seconds a))
             (int_of_float (timedelta_total_seconds b)). clear a b. intros a b E.
  cbn [app] in E.
  apply app_sep_inj in E as [Hh E]; try apply format_02d_no_colon.
  apply app_sep_inj in E as [Hm Hs]; try apply format_02d_no_colon.
  apply (f_equal read_02d) in Hh, Hm, Hs. rewrite !read_02d_format in Hh, Hm, Hs.
  Z.to_euclidean_division_equations. lia.
Qed.

(** X3: two durations of less than 2^34 seconds either way (some 544
    years) are printed alike exactly when they agree in their whole seconds
    (rounded towards zero): the text tells the duration to the second.  From
    2^34 seconds on the float of [total_seconds()] is too coarse for that:
    a microsecond short of 2^34 + 1 seconds is printed as 2^34 + 1
    seconds. *)
Theorem format_timedelta_injective (a b : timedelta) :
  Z.abs a < seconds (2 ^ 34) -> Z.abs b < seconds (2 ^ 34) ->
  (format_timedelta a = format_timedelta b
   <-> Z.quot a usec_per_sec = Z.quot b usec_per_sec)
  /\ format_timedelta (seconds (2 ^ 34) + 999999) = format_timedelta (seconds (2 ^ 34 + 1))
  /\ format_timedelta (seconds (2 ^ 34) + 999999) <> format_timedelta (seconds (2 ^ 34)).
Proof.
  intros Ha Hb. unfold seconds in Ha, Hb. rewrite Z.mul_comm in Ha. rewrite Z.mul_comm in Hb.
  split; [|split; vm_compute; congruence].
  rewrite format_timedelta_seconds, !int_total_seconds_exact by (rewrite Z.mul_comm; assumption).
  reflexivity.
Qed.

Lemma format_timedelta_injective_witness :
  let a := seconds 3725 + 999999 in
  let b := seconds 3725 in
  Z.abs a < seconds (2 ^ 34) /\ Z.abs b < seconds (2 ^ 34)
  /\ (format_timedelta a = format_timedelta b
      <-> Z.quot a usec_per_sec = Z.quot b usec_per_sec)
  /\ format_timedelta (seconds (2 ^ 34) + 999999) = format_timedelta (seconds (2 ^ 34 + 1))
  /\ format_timedelta (seconds (2 ^ 34) + 999999) <> format_timedelta (seconds (2 ^ 34)).
Proof.
  cbv zeta.
  assert (H1 : Z.abs (seconds 3725 + 999999) < seconds (2 ^ 34)) by (vm_compute; reflexivity).
  assert (H2 : Z.abs (seconds 3725) < seconds (2 ^ 34)) by (vm_compute; reflexivity).
  split; [exact H1|]. split; [exact H2|].
  exact (format_timedelta_injective (seconds 3725 + 999999) (seconds 3725) H1 H2).
Defined.

(** X4: the text starts with a minus sign exactly when the duration is
    minus one second or less, and then the hours are rounded down and the
    minutes and seconds count up from there: minus one second is printed
    [-1:59:59]; a duration within a second of zero is printed as zero. *)
Theorem format_timedelta_negative (td : timedelta) :
  (head (format_timedelta td) = Some 45%N <-> td <= - usec_per_sec)
  /\ (- usec_per_sec < td < usec_per_sec -> format_timedelta td = py "00:00:00")
  /\ format_timedelta (seconds (-1)) = py "-1:59:59".
Proof.
  destruct (int_total_seconds_sign td) as (Hpos & Hneg & Hnn).
  split; [|split; [|vm_compute; reflexivity]].
  - unfold format_timedelta. cbv zeta.
    set (h := int_of_float (timedelta_total_seconds td) / 3600).
    assert (Hh : h < 0 <-> td <= - usec_per_sec).
    { subst h. split.
      - intros H. destruct (Z.le_gt_cases td (- usec_per_sec)) as [|Hgt]; [assumption|].
        exfalso. destruct (Z.le_gt_cases 0 td) as [H0|H0].
        + specialize (Hnn H0). Z.to_euclidean_division_equations. lia.
        + rewrite int_total_seconds_exact in H
            by (unfold usec_per_sec in *; change (2 ^ 34) with 17179869184; lia).
          unfold usec_per_sec in *. Z.to_euclidean_division_equations. lia.
      - intros H. specialize (Hneg H). Z.to_euclidean_division_equations. lia. }
    rewrite <- Hh. clearbody h. split.
    + intros H. destruct (Z.ltb_spec h 0) as [|Hge]; [assumption|].
      destruct (format_02d_nonneg_head h Hge) as (c & rest & E & Hc).
      rewrite E in H. cbn in H. injection H as ->. lia.
    + intros Hlt. unfold format_02d. cbv zeta.
      rewrite (proj2 (Z.ltb_lt h 0) Hlt). reflexivity.
  - intros H.
    assert (Hq : int_of_float (timedelta_total_seconds td) = 0).
    { rewrite int_total_seconds_exact
        by (unfold usec_per_sec in *; change (2 ^ 34) with 17179869184; lia).
      unfold usec_per_sec in *. Z.to_euclidean_division_equations. lia. }
    unfold format_timedelta. cbv zeta. rewrite Hq. vm_compute. reflexivity.
Qed.

(** ** [_parse_material] and [extract_cnc_time]: what the fields can hold *)

Local Open Scope N_scope.

Lemma contains_In (c : char) (s : str) : contains c s = true <-> In c s.
Proof.
  unfold contains. rewrite existsb_exists. split.
  - intros (x & Hx & Heq). apply N.eqb_eq in Heq. now subst.
  - intros H. exists c. split; [exact H | apply N.eqb_refl].
Qed.

Lemma take_In {A} (n : nat) (l : list A) (x : A) : In x (take n l) -> In x l.
Proof.
  revert n. induction l as [|a l IH]; intros [|n]; cbn; try tauto.
  intros [H|H]; [auto | right; eauto].
Qed.

Lemma splitlines_from_chars (n : nat) :
  forall (s cur : str), (length s <= n)%nat ->
    Forall (fun c => is_linebreak c = false) cur ->
    Forall (Forall (fun c => is_linebreak c = false)) (splitlines_from cur s).
Proof.
  induction n as [|n IH]; intros s cur Hn Hcur.
  - destruct s; [|cbn in Hn; lia]. cbn.
    destruct cur; repeat constructor. apply List.Forall_rev. exact Hcur.
  - destruct s as [|c s]; cbn [splitlines_from].
    + destruct cur; repeat constructor. apply List.Forall_rev. exact Hcur.
    + cbn in Hn. destruct (c =? 13)%N.
      * destruct s as [|c' s].
        -- constructor; [now apply List.Forall_rev | apply IH; [cbn; lia | constructor]].
        -- assert (Hs : Forall (Forall (fun c => is_linebreak c = false))
                          (splitlines_from [] s))
             by (apply IH; [cbn in Hn; lia | constructor]).
           assert (Hs' : Forall (Forall (fun c => is_linebreak c = false))
                           (splitlines_from [] (c' :: s)))
             by (apply IH; [lia | constructor]).
           destruct c' as [|p]; [constructor; [now apply List.Forall_rev | exact Hs']|].
           do 4 (destruct p as [p|p|];
                 try (constructor; [now apply List.Forall_rev | exact Hs'])).
           constructor; [now apply List.Forall_rev | exact Hs].
      * destruct (is_linebreak c) eqn:Hc.
        -- constructor; [now apply List.Forall_rev | apply IH; [lia | constructor]].
        -- apply IH; [lia | constructor; assumption].
Qed.

Lemma nonblank_lines_chars (text line : str) (c : char) :
  In line (nonblank_lines text) -> In c line -> is_linebreak c = false.
Proof.
  unfold nonblank_lines, splitlines. intros Hl Hc.
  apply in_map_iff in Hl as (l & <- & Hl). apply filter_In in Hl as [Hl _].
  apply strip_In in Hc.
  pose proof (splitlines_from_chars (length text) text [] (le_n _) (List.Forall_nil _)) as H.
  rewrite List.Forall_forall in H. specialize (H l Hl).
  rewrite List.Forall_forall in H. now apply H.
Qed.

(** The two fields are cut out of one line, or are the sentinel. *)
Lemma split_material_fields (line : str) :
  (length (fst (split_material line)) <= 50)%nat
  /\ (length (snd (split_material line)) <= 20)%nat
  /\ ~ In 45%N (fst (split_material line))
  /\ (forall c, In c (fst (split_material line)) -> In c line)
  /\ (forall c, In c (snd (split_material line)) -> In c line \/ In c Brak).
Proof.
  pose proof (split_material_spec line) as H.
  destruct (contains 45 line) eqn:Hc.
  - destruct H as (l & r & -> & Hl & ->). cbn [fst snd].
    rewrite !length_take. repeat split; try lia.
    + intros H%take_In%strip_In. tauto.
    + intros c H%take_In%strip_In. apply in_or_app. now left.
    + intros c H%take_In%strip_In. left. apply in_or_app. right. now right.
  - rewrite H. cbn [fst snd]. rewrite length_take. repeat split; try lia.
    + change (length Brak) with 4%nat. lia.
    + intros H1%take_In. apply contains_In in H1. congruence.
    + intros c. apply take_In.
    + auto.
Qed.

(** X5: whatever the report holds, the material is at most 50 characters
    long and has no hyphen, the thickness is at most 20 characters long, and
    neither holds a line break. *)
Theorem parse_material_fields (text : str) :
  (length (fst (_parse_material text)) <= 50)%nat
  /\ (length (snd (_parse_material text)) <= 20)%nat
  /\ ~ In 45%N (fst (_parse_material text))
  /\ (forall c, In c (fst (_parse_material text)) \/ In c (snd (_parse_material text)) ->
        is_linebreak c = false).
Proof.
  assert (Hbrak : forall c, In c Brak -> is_linebreak c = false).
  { intros c [<-|[<-|[<-|[<-|[]]]]]; reflexivity. }
  assert (Hlen : length Brak = 4%nat) by reflexivity.
  assert (Hnone : ~ In 45%N Brak) by (vm_compute; intuition discriminate).
  pose proof (nonblank_lines_chars text) as Hlines.
  unfold _parse_material. cbv zeta.
  destruct (nonblank_lines text) as [|first rest].
  { cbn [fst snd]. rewrite Hlen. repeat split; try lia; [exact Hnone|].
    intros c [H|H]; auto. }
  assert (Hline : forall line, In line (first :: rest) ->
            (length (fst (split_material line)) <= 50)%nat
            /\ (length (snd (split_material line)) <= 20)%nat
            /\ ~ In 45%N (fst (split_material line))
            /\ (forall c, In c (fst (split_material line)) \/ In c (snd (split_material line)) ->
                  is_linebreak c = false)).
  { intros line Hin. destruct (split_material_fields line) as (H1 & H2 & H3 & H4 & H5).
    repeat split; try assumption.
    intros c [H|H]; [apply (Hlines line c Hin), H4, H|].
    destruct (H5 c H) as [H'|H']; [apply (Hlines line c Hin H') | auto]. }
  destruct (startswith first 40 || startswith first 59).
  - change (drop 1 (first :: rest)) with rest.
    destruct (List.find is_candidate (take 2 rest)) as [line|] eqn:Hfind.
    + apply Hline. right. apply find_some in Hfind as [Hin _]. now apply take_In in Hin.
    + cbn [fst snd]. rewrite Hlen. repeat split; try lia; [exact Hnone|].
      intros c [H|H]; auto.
  - apply Hline. now left.
Qed.


(** *** What a match consumes *)

Lemma rep_consumes (p : char -> bool) (g : bool) :
  forall (s : str) (lo : nat) (hi : option nat) (s2 : str),
    In s2 (rep p g lo hi s) ->
    exists u, s = u ++ s2 /\ Forall (fun c => p c = true) u.
Proof.
  induction s as [|c s IH]; intros lo hi s2 H.
  - exists []. cbn in H.
    assert (Hin : In s2 (match lo with O => [[]] | _ => [] end)).
    { destruct g, hi as [[|h]|], lo; cbn in H |- *; tauto. }
    destruct lo; [|destruct Hin]. destruct Hin as [<-|[]]. split; [reflexivity | constructor].
  - cbn [rep] in H.
    assert (Hin : In s2 (match lo with O => [c :: s] | _ => [] end)
                  \/ (p c = true
                      /\ exists lo' hi', In s2 (rep p g lo' hi' s))).
    { destruct g; apply in_app_or in H as [H|H].
      all: first [ left; exact H | idtac ].
      all: destruct hi as [[|h]|]; try destruct H.
      all: destruct (p c) eqn:Hp; try destruct H.
      all: right; split; [reflexivity|]; eauto. }
    destruct Hin as [Hin | (Hp & lo' & hi' & Hin)].
    + destruct lo; [|destruct Hin]. destruct Hin as [<-|[]].
      exists []. split; [reflexivity | constructor].
    + destruct (IH lo' hi' s2 Hin) as (u & -> & Hu).
      exists (c :: u). split; [reflexivity | constructor; assumption].
Qed.

Lemma rmatch_consumes (nd : char -> bool) (fl : flags) (ok : atom -> bool)
    (Q : char -> Prop) :
  (forall a c, ok a = true -> atom_matches nd fl a c = true -> Q c) ->
  forall (r : regex) (s s2 : str),
    forall_atoms ok r = true -> In s2 (rmatch nd fl r s) ->
    exists u, s = u ++ s2 /\ Forall Q u.
Proof.
  intros Hok. induction r as [|a|a lo hi g|r IH|r1 IH1 r2 IH2|r1 IH1 r2 IH2|];
    intros s s2 Hr H; cbn in Hr, H.
  - destruct H as [<-|[]]. exists []. split; [reflexivity | constructor].
  - destruct s as [|c s]; [destruct H|].
    destruct (atom_matches nd fl a c) eqn:Hc; [|destruct H].
    destruct H as [<-|[]]. exists [c]. split; [reflexivity|].
    constructor; [eauto | constructor].
  - apply rep_consumes in H as (u & -> & Hu). exists u. split; [reflexivity|].
    eapply List.Forall_impl; [|exact Hu]. intros c Hc. eauto.
  - apply in_app_or in H as [H|[<-|[]]]; [eauto|].
    exists []. split; [reflexivity | constructor].
  - apply andb_true_iff in Hr as [Hr1 Hr2].
    apply in_flat_map in H as (s1 & H1 & H2).
    destruct (IH1 s s1 Hr1 H1) as (u1 & -> & Hu1).
    destruct (IH2 s1 s2 Hr2 H2) as (u2 & -> & Hu2).
    exists (u1 ++ u2). split; [now rewrite <- app_assoc | now apply List.Forall_app].
  - apply andb_true_iff in Hr as [Hr1 Hr2].
    apply in_app_or in H as [H|H]; eauto.
  - destruct (at_eol fl s); [|destruct H]. destruct H as [<-|[]].
    exists []. split; [reflexivity | constructor].
Qed.

(** The text of group 1 is what the group consumed. *)
Lemma match_here_group (nd : char -> bool) (fl : flags) (ok : atom -> bool)
    (Q : char -> Prop) (p : pattern) (s g : str) :
  (forall a c, ok a = true -> atom_matches nd fl a c = true -> Q c) ->
  forall_atoms ok (grp p) = true ->
  In g (match_here nd fl p s) -> Forall Q g.
Proof.
  intros Hok Hp H. unfold match_here in H.
  apply in_flat_map in H as (s1 & _ & H).
  apply in_flat_map in H as (s2 & H2 & H).
  apply in_map_iff in H as (_ & <- & _).
  destruct (rmatch_consumes nd fl ok Q Hok (grp p) s1 s2 Hp H2) as (u & -> & Hu).
  rewrite length_app. replace (length u + length s2 - length s2)%nat with (length u) by lia.
  now rewrite take_app_length.
Qed.

(** A search finds a match at some place of the text. *)
Lemma re_search_Some (nd : char -> bool) (fl : flags) (p : pattern) :
  forall (s g : str), re_search nd fl p s = Some g ->
    exists before rest, s = before ++ rest
      /\ (exists others, match_here nd fl p rest = g :: others)
      /\ forall (k : nat), (k < length before)%nat -> match_here nd fl p (drop k s) = [].
Proof.
  induction s as [|c s IH]; intros g H; cbn [re_search] in H.
  - destruct (match_here nd fl p []) as [|g' others] eqn:E; [discriminate|].
    injection H as ->. exists [], []. repeat split; [eauto | cbn; lia].
  - destruct (match_here nd fl p (c :: s)) as [|g' others] eqn:E.
    + destruct (IH g H) as (before & rest & -> & Hrest & Hnone).
      exists (c :: before), rest. repeat split; [exact Hrest|].
      intros [|k] Hk; [exact E | cbn in Hk; apply Hnone; lia].
    + injection H as ->. exists [], (c :: s). repeat split; [eauto | cbn; lia].
Qed.

Lemma lit_matches_symbol (fl : flags) (p c : char) :
  p < 65 -> lit_matches fl p c = true -> c = p.
Proof.
  unfold lit_matches. intros Hp. destruct (IGNORECASE fl); [|now intros H%N.eqb_eq].
  assert (Hlo : ascii_lower p = p).
  { unfold ascii_lower. destruct (N.leb_spec 65 p); [lia | reflexivity]. }
  cbv zeta. rewrite Hlo.
  assert (Hlc : sre_lower c = p -> c = p).
  { unfold sre_lower, ascii_lower.
    destruct (N.eqb_spec c 304); [lia|]. destruct (N.eqb_spec c 8490); [lia|].
    destruct (N.leb_spec 65 c), (N.leb_spec c 90); cbn; lia. }
  destruct (N.eqb_spec (sre_lower c) p); [auto|].
  destruct (N.eqb_spec p 105); [lia|]. destruct (N.eqb_spec p 115); [lia|].
  cbn. discriminate.
Qed.

Lemma time_atom_matches (nd : char -> bool) (fl : flags) (a : atom) (c : char) :
  time_atom a = true -> atom_matches nd fl a c = true ->
  is_digit nd c = true \/ c = 58 \/ c = 46 \/ c = 44.
Proof.
  destruct a as [p|cs| | |]; cbn; try discriminate.
  - intros Hp%N.eqb_eq H. subst p. apply lit_matches_symbol in H; [auto | lia].
  - intros Hcs H. apply existsb_exists in H as (p & Hin & H).
    rewrite forallb_forall in Hcs. specialize (Hcs p Hin).
    apply orb_true_iff in Hcs as [Hp%N.eqb_eq | Hp%N.eqb_eq]; subst p;
      (apply lit_matches_symbol in H; [auto | lia]).
  - auto.
Qed.

Lemma first_match_chars (nd : char -> bool) (ps : list pattern) (text t : str) :
  forallb (fun p => forall_atoms time_atom (grp p)) ps = true ->
  first_match nd ps text = Some t ->
  Forall (fun c => time_char nd c = true) t.
Proof.
  induction ps as [|p ps IH]; cbn; [discriminate|].
  intros [Hp Hps]%andb_true_iff.
  destruct (re_search nd time_flags p text) as [g|] eqn:Hg; [|now apply IH].
  intros [= <-].
  apply re_search_Some in Hg as (before & rest & _ & (others & Hm) & _).
  assert (Hin : In g (match_here nd time_flags p rest)) by (rewrite Hm; now left).
  pose proof (match_here_group nd time_flags time_atom _ p rest g
                (time_atom_matches nd time_flags) Hp Hin) as HQ.
  rewrite List.Forall_forall in HQ. apply List.Forall_forall.
  intros c Hc%strip_In. unfold replace in Hc.
  apply in_map_iff in Hc as (x & <- & Hx). specialize (HQ x Hx). unfold time_char.
  destruct (N.eqb_spec x 44) as [->|Hne]; [reflexivity|].
  destruct HQ as [Hd | [-> | [-> | ->] ] ]; [now rewrite Hd | reflexivity.. | congruence].
Qed.

(** X6: whatever the text, the time [extract_cnc_time] returns is the
    sentinel or is made of digits, colons and periods only: a comma never
    comes through, nor a space or a letter. *)
Theorem extract_cnc_time_chars (nd : char -> bool) (text : str) :
  extract_cnc_time nd text = py "Brak"
  \/ Forall (fun c => time_char nd c = true) (extract_cnc_time nd text).
Proof.
  unfold extract_cnc_time.
  destruct (first_match nd patterns text) as [t|] eqn:E; [right | left; reflexivity].
  apply (first_match_chars nd patterns text t); [vm_compute; reflexivity | exact E].
Qed.


(** ** The patterns on file names *)

Lemma rmatch_lits (nd : char -> bool) (fl : flags) :
  forall (l : str) (s s2 : str),
    In s2 (rmatch nd fl (lits l) s)
    <-> exists u, s = u ++ s2 /\ Forall2 (fun p c => lit_matches fl p c = true) l u.
Proof.
  assert (Hatom : forall p s s2,
            In s2 (rmatch nd fl (RAtom (ALit p)) s)
            <-> exists c, s = c :: s2 /\ lit_matches fl p c = true).
  { intros p [|c s] s2; cbn.
    - split; [intros [] | intros (c & [=] & _)].
    - destruct (lit_matches fl p c) eqn:E; cbn.
      + split; [intros [<-|[]]; eauto | intros (c' & [= <- <-] & _); now left].
      + split; [intros [] | intros (c' & [= <- <-] & H); congruence]. }
  induction l as [|p l IH]; intros s s2.
  - cbn. split.
    + intros [<-|[]]. exists []. split; [reflexivity | constructor].
    + intros (u & -> & Hu). inversion Hu. now left.
  - destruct l as [|q l].
    + change (lits [p]) with (RAtom (ALit p)). rewrite Hatom. split.
      * intros (c & -> & Hc). exists [c]. split; [reflexivity | repeat constructor; exact Hc].
      * intros (u & -> & Hu). inversion Hu as [|? c ? u' Hc Hu']; subst.
        inversion Hu'; subst. eauto.
    + change (lits (p :: q :: l)) with (RSeq (RAtom (ALit p)) (lits (q :: l))).
      cbn [rmatch]. rewrite in_flat_map. split.
      * intros (s1 & H1 & H2). apply Hatom in H1 as (c & -> & Hc).
        apply IH in H2 as (u & -> & Hu). exists (c :: u).
        split; [reflexivity | now constructor].
      * intros (u & -> & Hu). inversion Hu as [|? c ? u' Hc Hu']; subst.
        exists (u' ++ s2). split; [apply Hatom; eauto | apply IH; eauto].
Qed.

Lemma at_eol_name (s : str) :
  at_eol name_flags s = true <-> s = [] \/ s = [10].
Proof.
  destruct s as [|c s]; [cbn; tauto|].
  destruct (N.eqb_spec c 10) as [->|Hne].
  - destruct s as [|c' s]; cbn; split.
    + auto.
    + reflexivity.
    + discriminate.
    + intros [H|H]; discriminate.
  - assert (H : at_eol name_flags (c :: s) = false).
    { cbn. destruct c as [|p]; [reflexivity|].
      do 4 (destruct p as [p|p|]; try reflexivity). now contradict Hne. }
    rewrite H. split; [discriminate | intros [H'|H']; congruence].
Qed.

(** A pattern [<ext>$] matches at the head of [s]. *)
Lemma match_here_extension (nd : char -> bool) (ext s : str) :
  match_here nd name_flags (Pattern (RSeq (lits ext) REol) REps REps) s <> []
  <-> exists e tail, s = e ++ tail
        /\ Forall2 (fun p c => lit_matches name_flags p c = true) ext e
        /\ (tail = [] \/ tail = [10]).
Proof.
  unfold match_here. cbn [pre grp post rmatch flat_map List.map app].
  split.
  - intros H.
    destruct (flat_map _ _) as [|g others] eqn:E; [congruence|].
    assert (Hin : In g (g :: others)) by now left. rewrite <- E in Hin.
    apply in_flat_map in Hin as (s1 & H1 & _).
    apply in_flat_map in H1 as (s0 & H0 & H1).
    apply rmatch_lits in H0 as (e & -> & He).
    destruct (at_eol name_flags s0) eqn:Heol; [|destruct H1].
    destruct H1 as [<-|[]]. exists e, s0. repeat split; [exact He | now apply at_eol_name].
  - intros (e & tail & -> & He & Htail) E.
    assert (Hin : In (take (length tail - length tail) tail)
              (flat_map (fun s1 => [take (length s1 - length s1) s1])
                 (flat_map (fun s0 => if at_eol name_flags s0 then [s0] else [])
                    (rmatch nd name_flags (lits ext) (e ++ tail))))).
    { apply in_flat_map. exists tail. split; [|now left].
      apply in_flat_map. exists tail. split; [apply rmatch_lits; eauto|].
      rewrite (proj2 (at_eol_name tail) Htail). now left. }
    cbn in E. rewrite E in Hin. destruct Hin.
Qed.

Lemma re_search_is_Some (nd : char -> bool) (fl : flags) (p : pattern) (s : str) :
  is_Some (re_search nd fl p s)
  <-> exists before rest, s = before ++ rest /\ match_here nd fl p rest <> [].
Proof.
  split.
  - intros [g Hg]. apply re_search_Some in Hg as (before & rest & -> & (others & Hm) & _).
    exists before, rest. split; [reflexivity | congruence].
  - intros (before & rest & -> & Hm). induction before as [|c before IH].
    + destruct rest as [|c rest]; cbn [app re_search];
        destruct (match_here nd fl p _); [congruence | eauto | congruence | eauto].
    + cbn [app re_search]. destruct (match_here nd fl p (c :: before ++ rest)); eauto.
Qed.

Lemma name_matches_extension (nd : char -> bool) (ext name : str) :
  name_matches nd (Pattern (RSeq (lits ext) REol) REps REps) name = true
  <-> ends_like ext name.
Proof.
  unfold name_matches, name_search, ends_like.
  rewrite bool_decide_eq_true, re_search_is_Some. split.
  - intros (stem & rest & -> & Hm). apply match_here_extension in Hm as (e & tail & -> & H).
    exists stem, e, tail. split; [reflexivity | exact H].
  - intros (stem & e & tail & -> & H). exists stem, (e ++ tail).
    split; [reflexivity|]. apply match_here_extension. exists e, tail. split; [reflexivity | exact H].
Qed.

(** Which characters a letter of the patterns matches. *)
Lemma lit_matches_letter (p c : char) :
  97 <= p <= 122 ->
  lit_matches name_flags p c = true
  <-> c = p \/ c = p - 32
      \/ (p = 105 /\ (c = 304 \/ c = 305))
      \/ (p = 107 /\ c = 8490)
      \/ (p = 115 /\ c = 383).
Proof.
  intros Hp. unfold lit_matches, name_flags, IGNORECASE. cbv zeta.
  assert (Hlo : ascii_lower p = p).
  { unfold ascii_lower. destruct (N.leb_spec 65 p), (N.leb_spec p 90); cbn; lia. }
  rewrite Hlo. unfold sre_lower, ascii_lower.
  destruct (N.eqb_spec c 304) as [->|H304].
  { destruct (N.eqb_spec 105 p), (N.eqb_spec p 105), (N.eqb_spec p 115); cbn;
      split; try discriminate; try lia; auto 10. }
  destruct (N.eqb_spec c 8490) as [->|H8490].
  { destruct (N.eqb_spec 107 p), (N.eqb_spec p 105), (N.eqb_spec p 115); cbn;
      split; try discriminate; try lia; auto 10. }
  destruct (N.leb_spec 65 c), (N.leb_spec c 90); cbn [andb].
  all: repeat match goal with
              | |- context [N.eqb ?a ?b] => destruct (N.eqb_spec a b)
              end; cbn; split; try discriminate; try lia; auto 10.
Qed.


(** X7: the intake scan and the report scan take a name for an ISO file or
    a report exactly when it ends in [.iso] or [.txt], the letters in either
    case (and, with them, the dotted capital I, the dotless i and the long
    s, which lower-case to [i] and [s]); a single line feed after the
    extension is let through. *)
Theorem extension_patterns (nd : char -> bool) (name : str) :
  (name_matches nd ISO_PATTERN name = true <-> ends_like (py ".iso") name)
  /\ (name_matches nd TXT_PATTERN name = true <-> ends_like (py ".txt") name)
  /\ (forall c, lit_matches name_flags 46 c = true <-> c = 46)
  /\ (forall p c, 97 <= p <= 122 ->
        lit_matches name_flags p c = true
        <-> c = p \/ c = p - 32
            \/ (p = 105 /\ (c = 304 \/ c = 305))
            \/ (p = 107 /\ c = 8490)
            \/ (p = 115 /\ c = 383)).
Proof.
  split; [apply name_matches_extension|]. split; [apply name_matches_extension|].
  split; [|apply lit_matches_letter].
  intros c. split; [apply lit_matches_symbol; lia | intros ->; reflexivity].
Qed.

(** *** [ISO_EXTRACT_PATTERN] *)

Lemma rep_lazy_zero (p : char -> bool) (s : str) :
  rep p false 0 None s
  = s :: match s with
         | c :: s' => if p c then rep p false 0 None s' else []
         | [] => []
         end.
Proof. destruct s; reflexivity. Qed.

(** The suffix [.iso.txt$] does not match before the end of
    [n ++ ".iso.txt"]. *)
Lemma extract_suffix_late (nd : char -> bool) (c : char) (n : str) :
  rmatch nd name_flags (RSeq (lits (py ".iso.txt")) REol) (c :: n ++ py ".iso.txt") = [].
Proof.
  destruct (rmatch _ _ _ _) as [|s2 others] eqn:E; [reflexivity|]. exfalso.
  assert (Hin : In s2 (s2 :: others)) by now left. rewrite <- E in Hin.
  cbn [rmatch] in Hin. apply in_flat_map in Hin as (s0 & H0 & H1).
  apply rmatch_lits in H0 as (u & Hu & Hlen%Forall2_length).
  cbn [rmatch] in H1. destruct (at_eol name_flags s0) eqn:Heol; [|destruct H1].
  apply at_eol_name in Heol.
  assert (Hl : length (c :: n ++ py ".iso.txt") = length (u ++ s0)) by now rewrite Hu.
  unfold char in *. cbn [length] in Hl. rewrite !length_app, <- Hlen in Hl.
  destruct Heol as [-> | ->]; cbn [length] in Hl; [lia|].
  assert (Hlast : last (c :: n ++ py ".iso.txt") = last (u ++ [10])) by now rewrite Hu.
  change (c :: n ++ py ".iso.txt") with ((c :: n) ++ py ".iso.txt") in Hlast.
  rewrite last_snoc in Hlast.
  change (py ".iso.txt") with ([46; 105; 115; 111; 46; 116; 120] ++ [116]) in Hlast.
  rewrite app_assoc, last_snoc in Hlast. discriminate.
Qed.

Lemma extract_lazy (nd : char -> bool) (F : str -> list str) (g : str) :
  (forall c n, F (c :: n ++ py ".iso.txt") = []) ->
  F (py ".iso.txt") = [g] ->
  forall n, ~ In 10 n ->
    exists others,
      flat_map F (rep (atom_matches nd name_flags ADot) false 0 None (n ++ py ".iso.txt"))
      = g :: others.
Proof.
  intros Hlate Hend. induction n as [|c n IH]; intros Hn.
  - rewrite rep_lazy_zero. cbn [app flat_map]. rewrite Hend. cbn. eauto.
  - rewrite rep_lazy_zero. cbn [app flat_map]. rewrite Hlate. cbn [app].
    assert (Hc : atom_matches nd name_flags ADot c = true).
    { cbn. destruct (N.eqb_spec c 10) as [->|]; [|reflexivity]. cbn in Hn. tauto. }
    rewrite Hc. apply IH. cbn in Hn. tauto.
Qed.

Lemma match_here_not_hash (nd : char -> bool) (c : char) (s : str) :
  c <> 35 -> match_here nd name_flags ISO_EXTRACT_PATTERN (c :: s) = [].
Proof.
  intros Hc. unfold match_here. cbn [pre ISO_EXTRACT_PATTERN rmatch atom_matches].
  destruct (lit_matches name_flags 35 c) eqn:E; [|reflexivity].
  apply lit_matches_symbol in E; [congruence | lia].
Qed.

(** A report named after the convention gives its token back. *)
Lemma report_name_token (nd : char -> bool) (prefix n : str) :
  ~ In 35 prefix -> n <> [] -> ~ In 10 n ->
  name_search nd ISO_EXTRACT_PATTERN (prefix ++ 35 :: n ++ py ".iso.txt") = Some n
  /\ name_matches nd TXT_PATTERN (prefix ++ 35 :: n ++ py ".iso.txt") = true.
Proof.
  intros Hprefix Hn Hlf. split.
  - unfold name_search. induction prefix as [|c prefix IH].
    + cbn [app re_search].
      destruct n as [|c n]; [congruence|].
      assert (Hm : exists others,
                match_here nd name_flags ISO_EXTRACT_PATTERN
                  (35 :: (c :: n) ++ py ".iso.txt") = (c :: n) :: others).
      { unfold match_here.
        cbn [pre grp post ISO_EXTRACT_PATTERN rmatch atom_matches flat_map].
        change (lit_matches name_flags 35 35) with true. cbn [flat_map].
        rewrite app_nil_r. cbn [app rep Nat.pred option_map].
        assert (Hc : atom_matches nd name_flags ADot c = true).
        { cbn. destruct (N.eqb_spec c 10) as [->|]; [|reflexivity]. cbn in Hlf. tauto. }
        cbn [atom_matches] in Hc |- *. rewrite Hc. cbn [app].
        apply (extract_lazy nd
                 (fun s2 => List.map
                    (fun _ => take (length (c :: n ++ py ".iso.txt") - length s2)
                                (c :: n ++ py ".iso.txt"))
                    (rmatch nd name_flags (RSeq (lits (py ".iso.txt")) REol) s2))).
        - intros c' n'. now rewrite extract_suffix_late.
        - change (rmatch nd name_flags (RSeq (lits (py ".iso.txt")) REol) (py ".iso.txt"))
            with [@nil N].
          cbn [List.map]. f_equal.
          change (c :: n ++ py ".iso.txt") with ((c :: n) ++ py ".iso.txt").
          rewrite length_app, Nat.add_sub. apply take_app_length.
        - cbn in Hlf. tauto. }
      destruct Hm as (others & ->). reflexivity.
    + cbn [app re_search]. rewrite match_here_not_hash by (cbn in Hprefix; tauto).
      apply IH. cbn in Hprefix. tauto.
  - apply name_matches_extension. exists (prefix ++ 35 :: n ++ py ".iso"), (py ".txt"), [].
    split; [|split; [|now left]].
    + rewrite app_nil_r, <- !app_assoc. cbn [app]. do 2 f_equal. now rewrite <- app_assoc.
    + repeat constructor.
Qed.

(** X8: a report named after the convention gives its ISO name back: in
    [<prefix>#<name>.iso.txt], where the prefix has no [#], the token taken
    is [<name>], whatever [#] or [.iso.txt] the name itself holds, as long as
    it is not empty and has no line feed; such a name is a report name, and
    the ISO name it stands for is [<name>.iso]. *)
Theorem report_name_round_trip (nd : char -> bool) (prefix n : str) :
  ~ In 35 prefix -> n <> [] -> ~ In 10 n ->
  name_search nd ISO_EXTRACT_PATTERN (prefix ++ 35 :: n ++ py ".iso.txt") = Some n
  /\ name_matches nd TXT_PATTERN (prefix ++ 35 :: n ++ py ".iso.txt") = true
  /\ iso_name_of nd (prefix ++ 35 :: n ++ py ".iso.txt") = Some (n ++ py ".iso").
Proof.
  intros Hprefix Hn Hlf.
  destruct (report_name_token nd prefix n Hprefix Hn Hlf) as [Htoken Htxt].
  split; [exact Htoken|]. split; [exact Htxt|].
  unfold iso_name_of. now rewrite Htoken.
Qed.

Lemma report_name_round_trip_witness :
  ~ In 35 (py "cut_") /\ py "job1" <> [] /\ ~ In 10 (py "job1")
  /\ name_search ascii_digits ISO_EXTRACT_PATTERN
       (py "cut_" ++ 35 :: py "job1" ++ py ".iso.txt") = Some (py "job1")
  /\ name_matches ascii_digits TXT_PATTERN
       (py "cut_" ++ 35 :: py "job1" ++ py ".iso.txt") = true
  /\ iso_name_of ascii_digits (py "cut_" ++ 35 :: py "job1" ++ py ".iso.txt")
     = Some (py "job1" ++ py ".iso").
Proof.
  assert (H1 : ~ In 35 (py "cut_")) by (vm_compute; intuition discriminate).
  assert (H2 : py "job1" <> []) by discriminate.
  assert (H3 : ~ In 10 (py "job1")) by (vm_compute; intuition discriminate).
  split; [exact H1|]. split; [exact H2|]. split; [exact H3|].
  exact (report_name_round_trip ascii_digits (py "cut_") (py "job1") H1 H2 H3).
Defined.

Local Open Scope Z_scope.


(** ** The intake scan *)

(** [for x in xs] with its accumulator: what the body keeps, the loop
    keeps, and what holds when the body raises holds when the loop does. *)
Lemma for_each_inv {X A} (P : A -> state -> Prop) (Q : state -> Prop)
    (body : A -> X -> M A) (xs : list X) :
  (forall a x s, In x xs -> P a s ->
     match body a x s with
     | (Ok a', s') => P a' s'
     | (Raise _, s') => Q s'
     end) ->
  forall a s, P a s ->
    match for_each xs body a s with
    | (Ok a', s') => P a' s'
    | (Raise _, s') => Q s'
    end.
Proof.
  induction xs as [|x xs IH]; intros Hbody a s Hs; cbn; [exact Hs|].
  unfold mbind, M_bind. specialize (Hbody a x s (or_introl eq_refl) Hs) as Hx.
  destruct (body a x s) as [[a'|ex] s1]; [|exact Hx].
  apply IH; [|exact Hx]. intros a0 x0 s0 Hin. apply Hbody. now right.
Qed.

Lemma dict_set_new {V} (k : str) (v : V) (d : list (str * V)) :
  dict_mem k d = false -> dict_set k v d = d ++ [(k, v)].
Proof.
  intros H. assert (Hk : ~ In k (dict_keys d)) by (rewrite <- dict_mem_keys; congruence).
  clear H. induction d as [|[k' v'] d IH]; cbn; [reflexivity|].
  destruct (bool_decide_reflect (k' = k)) as [->|Hne]; [cbn in Hk; tauto|].
  rewrite IH; [reflexivity | cbn in Hk; tauto].
Qed.

Lemma dict_get_app {V} (k : str) (v : V) (d d' : list (str * V)) :
  dict_get k d = Some v -> dict_get k (d ++ d') = Some v.
Proof.
  unfold dict_get. induction d as [|[k' v'] d IH]; cbn; [discriminate|].
  destruct (bool_decide (k' = k)); [auto | exact IH].
Qed.

(** The body of the intake loop, case by case. *)
Lemma scan_a_file_cases nd cfg e f s :
  let p := path_join (folder_a cfg) f in
  scan_a_file nd cfg e f s =
    if negb (name_matches nd ISO_PATTERN f) then (Ok tt, s)
    else if dict_mem f (waiting s) then (Ok tt, s)
    else
      match fs s !! p with
      | None => (Ok tt, log_event (Isfile p) s)
      | Some bytes =>
          let s1 :=
            State (waiting s) (seen_in_b s) (last_b_time s) (d_cache s) (processed s)
              (errors s) (during_sleep e p (fs s)) (db s)
              (trace s ++ [Isfile p; Getsize p; Sleep p; Getsize p]) in
          match during_sleep e p (fs s) !! p with
          | None => (Ok tt, s1)
          | Some bytes' =>
              if Z.of_nat (length bytes') =? Z.of_nat (length bytes)
              then (Ok tt, set_waiting (dict_set f (p, clock_a e f)) s1)
              else (Ok tt, s1)
          end
      end.
Proof.
  intros p. unfold scan_a_file. fold p. clearbody p.
  destruct (name_matches nd ISO_PATTERN f); cbn [negb]; [|reflexivity].
  unfold mbind at 1, M_bind at 1, gets at 1.
  destruct (dict_mem f (waiting s)); [reflexivity|].
  unfold_os. cbn. rewrite bool_decide_is_Some.
  destruct (fs s !! p) as [bytes|] eqn:Hp; cbn; [|reflexivity].
  rewrite Hp. cbn.
  destruct (during_sleep e p (fs s) !! p) as [bytes'|]; cbn.
  - destruct (_ =? _); cbn; f_equal; apply state_ext; cbn;
      rewrite <- ?app_assoc; reflexivity.
  - f_equal. apply state_ext; cbn; rewrite <- ?app_assoc; reflexivity.
Qed.

(** X9: the intake scan registers a file only when its name ends in
    [.iso], it is not registered yet, it is a regular file, and its size is
    the same before and after the wait of a tenth of a second; a file that
    grows, shrinks or vanishes meanwhile is left for a later cycle, and
    nothing is raised either way. *)
Theorem intake_decision nd cfg e f s :
  dict_mem f (waiting s) = false ->
  let p := path_join (folder_a cfg) f in
  let s' := snd (scan_a_file nd cfg e f s) in
  fst (scan_a_file nd cfg e f s) = Ok tt
  /\ (dict_mem f (waiting s') = true
      <-> name_matches nd ISO_PATTERN f = true
          /\ exists bytes bytes',
               fs s !! p = Some bytes
               /\ during_sleep e p (fs s) !! p = Some bytes'
               /\ length bytes' = length bytes)
  /\ (dict_mem f (waiting s') = true ->
      waiting s' = waiting s ++ [(f, (p, clock_a e f))])
  /\ (dict_mem f (waiting s') = false -> waiting s' = waiting s).
Proof.
  intros Hf. cbv zeta. rewrite scan_a_file_cases. cbv zeta. rewrite Hf.
  set (p := path_join (folder_a cfg) f). clearbody p.
  assert (Hnew : dict_mem f (waiting s ++ [(f, (p, clock_a e f))]) = true).
  { apply dict_mem_keys. unfold dict_keys. rewrite map_app. apply in_or_app.
    right. now left. }
  destruct (name_matches nd ISO_PATTERN f); cbn [negb fst snd].
  2:{ rewrite Hf. repeat split; try discriminate. intros [H _]. discriminate. }
  destruct (fs s !! p) as [bytes|]; cbn [fst snd waiting log_event].
  2:{ rewrite Hf. repeat split; try discriminate. intros (_ & b & b' & H & _). discriminate. }
  destruct (during_sleep e p (fs s) !! p) as [bytes'|]; cbn [fst snd waiting].
  2:{ rewrite Hf. repeat split; try discriminate. intros (_ & b & b' & _ & H & _). discriminate. }
  destruct (Z.eqb_spec (Z.of_nat (length bytes')) (Z.of_nat (length bytes))) as [Heq|Hne];
    cbn [fst snd waiting set_waiting].
  - rewrite (dict_set_new _ _ _ Hf), Hnew. repeat split; try discriminate.
    exists bytes, bytes'. repeat split. lia.
  - rewrite Hf. repeat split; try discriminate.
    intros (_ & b & b' & [= <-] & [= <-] & H). lia.
Qed.

Lemma intake_decision_witness :
  let s := init two_jobs_files [] in
  let e := intake (seconds 1) [job1] (fun files => files) in
  let p := path_join (folder_a demo_cfg) job1 in
  let s' := snd (scan_a_file ascii_digits demo_cfg e job1 s) in
  dict_mem job1 (waiting s) = false
  /\ fst (scan_a_file ascii_digits demo_cfg e job1 s) = Ok tt
  /\ (dict_mem job1 (waiting s') = true
      <-> name_matches ascii_digits ISO_PATTERN job1 = true
          /\ exists bytes bytes',
               fs s !! p = Some bytes
               /\ during_sleep e p (fs s) !! p = Some bytes'
               /\ length bytes' = length bytes)
  /\ (dict_mem job1 (waiting s') = true ->
      waiting s' = waiting s ++ [(job1, (p, clock_a e job1))])
  /\ (dict_mem job1 (waiting s') = false -> waiting s' = waiting s).
Proof.
  cbv zeta.
  assert (H : dict_mem job1 (waiting (init two_jobs_files [])) = false) by reflexivity.
  split; [exact H|].
  exact (intake_decision ascii_digits demo_cfg
           (intake (seconds 1) [job1] (fun files => files)) job1
           (init two_jobs_files []) H).
Defined.


Lemma scan_a_file_step nd cfg e f s :
  exists s', scan_a_file nd cfg e f s = (Ok tt, s')
    /\ seen_in_b s' = seen_in_b s /\ last_b_time s' = last_b_time s
    /\ d_cache s' = d_cache s /\ db s' = db s
    /\ processed s' = processed s /\ errors s' = errors s
    /\ (waiting s' = waiting s
        \/ (name_matches nd ISO_PATTERN f = true
            /\ dict_mem f (waiting s) = false
            /\ waiting s' = waiting s ++ [(f, (path_join (folder_a cfg) f, clock_a e f))])).
Proof.
  rewrite scan_a_file_cases. cbv zeta.
  destruct (name_matches nd ISO_PATTERN f) eqn:Hname; cbn [negb].
  2:{ eexists. split; [reflexivity|]. repeat split. now left. }
  destruct (dict_mem f (waiting s)) eqn:Hf.
  { eexists. split; [reflexivity|]. repeat split. now left. }
  destruct (fs s !! _) as [bytes|].
  2:{ eexists. split; [reflexivity|]. repeat split. now left. }
  destruct (during_sleep e _ (fs s) !! _) as [bytes'|].
  2:{ eexists. split; [reflexivity|]. repeat split. now left. }
  destruct (_ =? _).
  - eexists. split; [reflexivity|]. cbn. repeat split. right.
    repeat split. now apply dict_set_new.
  - eexists. split; [reflexivity|]. repeat split. now left.
Qed.

(** X10: the intake scan only adds to the end of [waiting]: the entries
    there keep their place, their path and their intake time, and every
    entry added is for a listed name that ends in [.iso] and was not
    registered, with its path in folder A and the clock reading of its
    registration; sightings, table and counters are not touched. *)
Theorem intake_only_appends nd cfg e s :
  let s' := snd (_process_folder_a nd cfg e s) in
  (exists new,
     waiting s' = waiting s ++ new
     /\ Forall (fun kv =>
          name_matches nd ISO_PATTERN (fst kv) = true
          /\ ~ In (fst kv) (dict_keys (waiting s))
          /\ snd kv = (path_join (folder_a cfg) (fst kv), clock_a e (fst kv))
          /\ exists names, listdir_result e (folder_a cfg) = LsNames names
                           /\ In (fst kv) names) new)
  /\ (forall f v, dict_get f (waiting s) = Some v -> dict_get f (waiting s') = Some v)
  /\ seen_in_b s' = seen_in_b s /\ last_b_time s' = last_b_time s
  /\ d_cache s' = d_cache s /\ db s' = db s
  /\ processed s' = processed s /\ errors s' = errors s.
Proof.
  cbv zeta.
  set (good := fun (names : list str) (kv : str * (str * datetime)) =>
         name_matches nd ISO_PATTERN (fst kv) = true
         /\ ~ In (fst kv) (dict_keys (waiting s))
         /\ snd kv = (path_join (folder_a cfg) (fst kv), clock_a e (fst kv))
         /\ In (fst kv) names).
  set (P := fun (names : list str) (s1 : state) =>
         (exists new, waiting s1 = waiting s ++ new /\ Forall (good names) new)
         /\ seen_in_b s1 = seen_in_b s /\ last_b_time s1 = last_b_time s
         /\ d_cache s1 = d_cache s /\ db s1 = db s
         /\ processed s1 = processed s /\ errors s1 = errors s).
  assert (Hloop : forall names s0, P names s0 ->
            P names (snd (for_each names (fun _ f => scan_a_file nd cfg e f) tt s0))).
  { intros names s0 H0.
    assert (Hbody : forall (a : unit) f s1, In f names -> P names s1 ->
              match scan_a_file nd cfg e f s1 with
              | (Ok _, s2) => P names s2
              | (Raise _, s2) => P names s2
              end).
    { intros a f s1 Hin ((new & Hw & Hnew) & Hs & Hl & Hd & Hdb & Hp & He).
      destruct (scan_a_file_step nd cfg e f s1)
        as (s2 & -> & Hs2 & Hl2 & Hd2 & Hdb2 & Hp2 & He2 & Hw2).
      split; [|repeat split; congruence].
      destruct Hw2 as [-> | (Hname & Hmem & ->)]; [exists new; split; assumption|].
      exists (new ++ [(f, (path_join (folder_a cfg) f, clock_a e f))]).
      split; [rewrite Hw; now rewrite <- app_assoc|].
      apply List.Forall_app. split; [exact Hnew|].
      constructor; [|constructor].
      repeat split; try assumption. cbn [fst]. intros Hk.
      assert (Hk' : dict_mem f (waiting s1) = true).
      { apply dict_mem_keys. rewrite Hw. unfold dict_keys in *. rewrite map_app.
        apply in_or_app. now left. }
      congruence. }
    pose proof (for_each_inv (fun _ => P names) (P names)
                  (fun _ f => scan_a_file nd cfg e f) names Hbody tt s0 H0) as Hfor.
    destruct (for_each names _ tt s0) as [[a|x] s1]; exact Hfor. }
  assert (HP : exists names, P names (snd (_process_folder_a nd cfg e s))
             /\ (names = [] \/ listdir_result e (folder_a cfg) = LsNames names)).
  { unfold _process_folder_a, mbind, M_bind.
    destruct (safe_listdir_frame e (folder_a cfg) s) as (r & -> & Hr).
    assert (H0 : forall names, P names (log_event (Listdir (folder_a cfg)) s)).
    { intros names. split; [|repeat split]. exists []. split; [|constructor].
      cbn. now rewrite app_nil_r. }
    destruct (listdir_result e (folder_a cfg)) as [names| |]; subst r.
    - exists names. split; [apply Hloop, H0 | now right].
    - exists []. split; [apply (Hloop []), H0 | now left].
    - exists []. split; [apply H0 | now left]. }
  destruct HP as (names & ((new & Hw & Hnew) & Hrest) & Hnames).
  split; [|split; [|exact Hrest]].
  - exists new. split; [exact Hw|].
    eapply List.Forall_impl; [|exact Hnew].
    intros kv (H1 & H2 & H3 & H4). repeat split; try assumption.
    destruct Hnames as [-> | Hls]; [destruct H4 | eauto].
  - intros f v Hf. rewrite Hw. now apply dict_get_app.
Qed.


(** ** The counters *)

Lemma accounted_refl s : accounted s s.
Proof. unfold accounted. lia. Qed.

Lemma accounted_trans s1 s2 s3 : accounted s1 s2 -> accounted s2 s3 -> accounted s1 s3.
Proof. unfold accounted. lia. Qed.

Lemma accounted_same s s' :
  processed s' = processed s -> errors s' = errors s -> length (db s') = length (db s) ->
  accounted s s'.
Proof. unfold accounted. lia. Qed.

(** The body of the machine-stage loop, case by case. *)
Lemma check_b_file_cases cfg e now f s :
  let pb := path_join (folder_b cfg) f in
  let s1 := log_event (Exists pb) s in
  check_b_file cfg e now f s =
    match fs s !! pb with
    | None => (Ok tt, s1)
    | Some _ =>
        match seen_in_b s !! f with
        | None => (Ok tt, set_seen_in_b <[f := now]> s1)
        | Some first_seen =>
            if now - first_seen <? ARCHIVE_DELAY * usec_per_sec then (Ok tt, s1)
            else _archive_file cfg e f now s1
        end
    end.
Proof.
  intros pb s1. unfold check_b_file. fold pb. subst s1. clearbody pb.
  unfold os_path_exists, mbind, M_bind, ret, mret, M_ret, gets, modify, emit. cbn.
  rewrite bool_decide_is_Some.
  destruct (fs s !! pb); cbn; [|reflexivity].
  destruct (seen_in_b s !! f); [|reflexivity].
  rewrite total_seconds_lt_delay. destruct (_ <? _); reflexivity.
Qed.

(** A call for a file that is not in [waiting] raises at once. *)
Lemma archive_file_untracked cfg e f now s :
  dict_get f (waiting s) = None -> _archive_file cfg e f now s = (Raise KeyError, s).
Proof.
  intros H. unfold _archive_file, mbind, M_bind, gets. now rewrite H.
Qed.

Lemma archive_file_accounted cfg e f now s :
  accounted s (snd (_archive_file cfg e f now s)).
Proof.
  destruct (dict_get f (waiting s)) as [v|] eqn:Hf.
  - destruct (archive_file_frame cfg e f now s (ex_intro _ v Hf)) as (s' & -> & _ & H & _).
    cbn [snd]. unfold accounted.
    destruct H as [(_ & _ & -> & -> & ->) | (_ & _ & -> & -> & _ & pa & t0 & tb & _ & _ & ->)].
    + lia.
    + rewrite length_app. cbn [length]. lia.
  - rewrite archive_file_untracked by exact Hf. apply accounted_refl.
Qed.

Lemma check_b_file_accounted cfg e now f s :
  accounted s (snd (check_b_file cfg e now f s)).
Proof.
  rewrite check_b_file_cases. cbv zeta.
  destruct (fs s !! _); [|now apply accounted_same].
  destruct (seen_in_b s !! f); [|now apply accounted_same].
  destruct (_ <? _); [now apply accounted_same|].
  apply (accounted_trans _ (log_event (Exists (path_join (folder_b cfg) f)) s));
    [now apply accounted_same | apply archive_file_accounted].
Qed.

(** One update of the batch: the rows of that name get the three values. *)
Lemma apply_update_cases e n mat gru czas name s :
  apply_update e n (mat, gru, czas, name) s =
    let s1 := log_event (UpdateCnc name mat gru czas) s in
    if update_fails e name then (Raise (Error "sqlite3"), s1)
    else (Ok (if existsb (fun r => bool_decide (nazwa r = name)) (db s)
              then n + 1 else n),
          set_db (List.map (fun r => if bool_decide (nazwa r = name)
                                     then with_cnc mat gru czas r else r)) s1).
Proof.
  unfold apply_update. unfold_os. cbn.
  destruct (update_fails e name); reflexivity.
Qed.

Lemma apply_update_accounted e n u s :
  accounted s (snd (apply_update e n u s)).
Proof.
  destruct u as [[[mat gru] czas] name]. rewrite apply_update_cases. cbv zeta.
  destruct (update_fails e name); cbn [snd]; apply accounted_same; try reflexivity.
  cbn. now rewrite length_map.
Qed.

Lemma for_each_accounted {X A} (body : A -> X -> M A) :
  (forall a x s, accounted s (snd (body a x s))) ->
  forall xs a s, accounted s (snd (for_each xs body a s)).
Proof.
  intros Hbody xs a s. apply (for_each_preserves (accounted s)); [|apply accounted_refl].
  intros a' x s1 H1. eapply accounted_trans; [exact H1 | apply Hbody].
Qed.

Lemma safe_listdir_accounted e path s :
  accounted s (snd (_safe_listdir e path s)).
Proof. destruct (safe_listdir_frame e path s) as (r & -> & _). now apply accounted_same. Qed.

Lemma bind_accounted {A B} (m : M A) (k : A -> M B) s :
  accounted s (snd (m s)) -> (forall a s1, accounted s1 (snd (k a s1))) ->
  accounted s (snd ((m ≫= k) s)).
Proof.
  intros Hm Hk. unfold mbind, M_bind. destruct (m s) as [[a|x] s1]; cbn [snd] in *.
  - eapply accounted_trans; [exact Hm | apply Hk].
  - exact Hm.
Qed.

Lemma process_folder_a_accounted nd cfg e s :
  accounted s (snd (_process_folder_a nd cfg e s)).
Proof.
  apply bind_accounted; [apply safe_listdir_accounted|].
  intros files s1. apply for_each_accounted. intros _ f s2.
  destruct (scan_a_file_step nd cfg e f s2) as (s3 & -> & _ & _ & _ & Hdb & Hp & He & _).
  apply accounted_same; cbn [snd]; congruence.
Qed.

Lemma process_folder_b_accounted cfg e s :
  accounted s (snd (_process_folder_b cfg e s)).
Proof.
  unfold _process_folder_b. apply bind_accounted; [now apply accounted_same|].
  intros w s1. apply for_each_accounted. intros _ f s2. apply check_b_file_accounted.
Qed.

Lemma process_folder_d_accounted nd cfg e s :
  accounted s (snd (_process_folder_d nd cfg e s)).
Proof.
  apply bind_accounted; [apply safe_listdir_accounted|].
  intros files s1. apply bind_accounted.
  - apply for_each_accounted. intros updates f s2.
    destruct (scan_d_file_frame nd cfg e updates f s2)
      as (u & s3 & -> & _ & _ & _ & Hp & He & _ & Hdb).
    apply accounted_same; cbn [snd]; congruence.
  - intros [|u updates] s2; [now apply accounted_same|].
    apply bind_accounted; [|intros; now apply accounted_same].
    apply for_each_accounted. intros n u' s3. apply apply_update_accounted.
Qed.

Lemma tick_accounted nd cfg e s :
  accounted s (snd (tick nd cfg e s)).
Proof.
  rewrite tick_cases.
  assert (Hc : accounted (log_event CycleStart s)
                 (snd (cycle nd cfg e (log_event CycleStart s)))).
  { unfold cycle. apply bind_accounted; [apply process_folder_a_accounted|].
    intros _ s1. apply bind_accounted; [apply process_folder_b_accounted|].
    intros _ s2. apply process_folder_d_accounted. }
  destruct (cycle nd cfg e (log_event CycleStart s)) as [[[]|x] s']; cbn [snd] in *.
  - exact Hc.
  - unfold accounted in *. cbn in *. lia.
Qed.

Lemma run_accounted nd cfg envs :
  forall s, accounted s (snd (_run nd cfg envs s)).
Proof.
  induction envs as [|e envs IH]; intros s; [apply accounted_refl|].
  rewrite run_cons. eapply accounted_trans; [|apply IH].
  pose proof (tick_accounted nd cfg e s) as H. unfold accounted in *. cbn. exact H.
Qed.

(** X11: however long the engine runs and whatever fails, the counter of
    processed files goes up by exactly the number of rows the table gains;
    started on an empty table, it is the number of rows. *)
Theorem processed_counts_rows nd cfg envs s :
  let s' := snd (_run nd cfg envs s) in
  processed s' - processed s = Z.of_nat (length (db s')) - Z.of_nat (length (db s))
  /\ (forall files,
        processed (snd (_run nd cfg envs (init files [])))
        = Z.of_nat (length (db (snd (_run nd cfg envs (init files [])))))).
Proof.
  cbv zeta. split; [apply run_accounted|].
  intros files. pose proof (run_accounted nd cfg envs (init files [])) as (_ & _ & H).
  cbn in H. lia.
Qed.

(** X12: the two counters never go down while the engine runs, so the
    statistics label of the main window, red as soon as an error is counted,
    never turns black again. *)
Theorem error_light_stays_red nd cfg envs s (start_time now now' : datetime) :
  let st := get_stats start_time now s in
  let st' := get_stats start_time now' (snd (_run nd cfg envs s)) in
  stats_errors st <= stats_errors st'
  /\ stats_processed st <= stats_processed st'
  /\ (snd (_update_stats st) = red -> snd (_update_stats st') = red)
  /\ (snd (_update_stats st) = red <-> 0 < errors s).
Proof.
  cbv zeta. pose proof (run_accounted nd cfg envs s) as (Hp & He & _).
  unfold _update_stats, get_stats. cbn [snd stats_errors stats_processed].
  split; [exact He|]. split; [exact Hp|].
  destruct (Z.ltb_spec 0 (errors s)), (Z.ltb_spec 0 (errors (snd (_run nd cfg envs s))));
    repeat split; try discriminate; try tauto; lia.
Qed.

Lemma engine_inv_counts s :
  engine_inv s -> (size (seen_in_b s) <= length (waiting s))%nat.
Proof.
  intros [Hnd Hsub]. rewrite <- size_dom.
  apply subseteq_size in Hsub. unfold waiting_dom in Hsub.
  rewrite size_list_to_set in Hsub by now apply NoDup_ListNoDup.
  unfold dict_keys in Hsub. now rewrite length_map in Hsub.
Qed.

(** X13: in the statistics of an engine started by [__init__], the number
    of files waiting at the machine stage never exceeds the number of files
    in the queue, at any moment of any run. *)
Theorem sightings_counted nd cfg envs files rows (start_time now : datetime) :
  let st := get_stats start_time now (snd (_run nd cfg envs (init files rows))) in
  (in_b_count st <= waiting_count st)%nat.
Proof.
  cbv zeta. unfold get_stats. cbn [in_b_count waiting_count].
  apply engine_inv_counts, run_inv. apply engine_inv_alt. cbn. split; [constructor|].
  intros f [x Hx]. rewrite lookup_empty in Hx. discriminate.
Qed.


(** ** What a run keeps *)

(** An induction over the steps of a run, for a relation between states
    that looks at the two dicts and the table only. *)
Section Steps.

Variable nd : char -> bool.
Variable cfg : config.
Variable R : state -> state -> Prop.

Hypothesis R_trans : forall s1 s2 s3, R s1 s2 -> R s2 s3 -> R s1 s3.
Hypothesis R_minor : forall s s',
  waiting s' = waiting s -> seen_in_b s' = seen_in_b s -> db s' = db s -> R s s'.
Hypothesis R_scan_a : forall e f s, R s (snd (scan_a_file nd cfg e f s)).
Hypothesis R_check_b : forall e now f s, R s (snd (check_b_file cfg e now f s)).
Hypothesis R_update : forall e n u s, R s (snd (apply_update e n u s)).

Lemma steps_for_each {X A} (body : A -> X -> M A) :
  (forall a x s, R s (snd (body a x s))) ->
  forall xs a s, R s (snd (for_each xs body a s)).
Proof.
  intros Hbody xs a s. apply (for_each_preserves (R s)); [|now apply R_minor].
  intros a' x s1 H1. eapply R_trans; [exact H1 | apply Hbody].
Qed.

Lemma steps_bind {A B} (m : M A) (k : A -> M B) s :
  R s (snd (m s)) -> (forall a s1, R s1 (snd (k a s1))) -> R s (snd ((m ≫= k) s)).
Proof.
  intros Hm Hk. unfold mbind, M_bind. destruct (m s) as [[a|x] s1]; cbn [snd] in *.
  - eapply R_trans; [exact Hm | apply Hk].
  - exact Hm.
Qed.

Lemma steps_listdir e path s : R s (snd (_safe_listdir e path s)).
Proof. destruct (safe_listdir_frame e path s) as (r & -> & _). now apply R_minor. Qed.

Lemma steps_process_folder_a e s : R s (snd (_process_folder_a nd cfg e s)).
Proof.
  apply steps_bind; [apply steps_listdir|].
  intros files s1. apply steps_for_each. intros _ f s2. apply R_scan_a.
Qed.

Lemma steps_process_folder_b e s : R s (snd (_process_folder_b cfg e s)).
Proof.
  unfold _process_folder_b. apply steps_bind; [now apply R_minor|].
  intros w s1. apply steps_for_each. intros _ f s2. apply R_check_b.
Qed.

Lemma steps_process_folder_d e s : R s (snd (_process_folder_d nd cfg e s)).
Proof.
  apply steps_bind; [apply steps_listdir|].
  intros files s1. apply steps_bind.
  - apply steps_for_each. intros updates f s2.
    destruct (scan_d_file_frame nd cfg e updates f s2)
      as (u & s3 & -> & Hw & Hs & _ & _ & _ & _ & Hdb).
    now apply R_minor.
  - intros [|u updates] s2; [now apply R_minor|].
    apply steps_bind; [|intros; now apply R_minor].
    apply steps_for_each. intros n u' s3. apply R_update.
Qed.

Lemma steps_tick e s : R s (snd (tick nd cfg e s)).
Proof.
  rewrite tick_cases.
  assert (Hc : R (log_event CycleStart s) (snd (cycle nd cfg e (log_event CycleStart s)))).
  { unfold cycle. apply steps_bind; [apply steps_process_folder_a|].
    intros _ s1. apply steps_bind; [apply steps_process_folder_b|].
    intros _ s2. apply steps_process_folder_d. }
  apply (R_trans _ (log_event CycleStart s)); [now apply R_minor|].
  destruct (cycle nd cfg e (log_event CycleStart s)) as [[[]|x] s']; cbn [snd] in *.
  - exact Hc.
  - eapply R_trans; [exact Hc | now apply R_minor].
Qed.

Lemma steps_run envs : forall s, R s (snd (_run nd cfg envs s)).
Proof.
  induction envs as [|e envs IH]; intros s; [now apply R_minor|].
  rewrite run_cons. eapply R_trans; [apply steps_tick|].
  eapply R_trans; [|apply IH]. now apply R_minor.
Qed.

End Steps.

(** *** The table *)

Lemma rows_kept_trans s1 s2 s3 : rows_kept s1 s2 -> rows_kept s2 s3 -> rows_kept s1 s3.
Proof.
  intros [m1 H1] [m2 H2]. exists (m1 ++ m2). now rewrite H2, H1, app_assoc.
Qed.

Lemma rows_kept_same s s' : db s' = db s -> rows_kept s s'.
Proof. intros H. exists []. now rewrite H, app_nil_r. Qed.

(** What a call of [_archive_file] does to the table and the two dicts,
    whether the file is registered or not. *)
Lemma archive_file_books cfg e f now s :
  let s' := snd (_archive_file cfg e f now s) in
  (waiting s' = waiting s /\ seen_in_b s' = seen_in_b s /\ db s' = db s)
  \/ (exists pa t0 tb,
        dict_get f (waiting s) = Some (pa, t0) /\ seen_in_b s !! f = Some tb
        /\ waiting s' = dict_del f (waiting s) /\ seen_in_b s' = delete f (seen_in_b s)
        /\ db s' = db s ++ [with_id (max_rowid (db s) + 1)
                              (archive_record cfg f now pa t0 tb (last_b_time s))]).
Proof.
  cbv zeta. destruct (dict_get f (waiting s)) as [v|] eqn:Hf.
  - destruct (archive_file_frame cfg e f now s (ex_intro _ v Hf)) as (s' & -> & _ & H & _).
    cbn [snd].
    destruct H as [(Hw & Hs & _ & _ & Hdb) | (Hw & Hs & _ & _ & _ & pa & t0 & tb & Hg & Htb & Hdb)].
    + left. auto.
    + right. exists pa, t0, tb. rewrite Hf in Hg. auto.
  - rewrite archive_file_untracked by exact Hf. left. auto.
Qed.

Lemma check_b_file_rows cfg e now f s : rows_kept s (snd (check_b_file cfg e now f s)).
Proof.
  rewrite check_b_file_cases. cbv zeta.
  destruct (fs s !! _); [|now apply rows_kept_same].
  destruct (seen_in_b s !! f); [|now apply rows_kept_same].
  destruct (_ <? _); [now apply rows_kept_same|].
  destruct (archive_file_books cfg e f now (log_event (Exists (path_join (folder_b cfg) f)) s))
    as [(_ & _ & Hdb) | (pa & t0 & tb & _ & _ & _ & _ & Hdb)].
  - now apply rows_kept_same.
  - eexists. rewrite Hdb, map_app. reflexivity.
Qed.

Lemma with_cnc_identity mat gru czas r : identity_of (with_cnc mat gru czas r) = identity_of r.
Proof. reflexivity. Qed.

Lemma apply_update_rows e n u s : rows_kept s (snd (apply_update e n u s)).
Proof.
  destruct u as [[[mat gru] czas] name]. rewrite apply_update_cases. cbv zeta.
  destruct (update_fails e name); cbn [snd]; [now apply rows_kept_same|].
  exists []. cbn. rewrite app_nil_r, map_map. apply map_ext. intros r.
  now destruct (bool_decide (nazwa r = name)).
Qed.

Lemma run_rows_kept nd cfg envs s : rows_kept s (snd (_run nd cfg envs s)).
Proof.
  apply (steps_run nd cfg rows_kept).
  - apply rows_kept_trans.
  - intros s1 s2 _ _. apply rows_kept_same.
  - intros e f s1. destruct (scan_a_file_step nd cfg e f s1) as (s2 & -> & _ & _ & _ & Hdb & _).
    now apply rows_kept_same.
  - intros. apply check_b_file_rows.
  - intros. apply apply_update_rows.
Qed.

Lemma rows_kept_lookup s s' (i : nat) r :
  rows_kept s s' -> db s !! i = Some r ->
  exists r', db s' !! i = Some r' /\ identity_of r' = identity_of r.
Proof.
  intros [more H] Hi.
  assert (Hl : (List.map identity_of (db s')) !! i = Some (identity_of r)).
  { rewrite H. apply lookup_app_l_Some.
    change (List.map identity_of (db s)) with (identity_of <$> db s).
    now rewrite list_lookup_fmap, Hi. }
  change (List.map identity_of ?l) with (identity_of <$> l) in Hl.
  rewrite list_lookup_fmap in Hl.
  destruct (db s' !! i) as [r'|]; [|discriminate].
  exists r'. split; [reflexivity|].
  cbn [fmap option_fmap option_map] in Hl. congruence.
Qed.

Lemma rows_kept_length s s' : rows_kept s s' -> (length (db s) <= length (db s'))%nat.
Proof.
  intros [more H]. apply (f_equal length) in H.
  rewrite length_app, !length_map in H. lia.
Qed.

(** X14: the engine never deletes a row and never rewrites its identity:
    after any run the table starts with the rows it had, in their order,
    each with its id, name, three paths, three times and cycle duration;
    only the three columns the reports fill in can differ. *)
Theorem rows_never_lost nd cfg envs s :
  let s' := snd (_run nd cfg envs s) in
  (exists more, List.map identity_of (db s') = List.map identity_of (db s) ++ more)
  /\ (length (db s) <= length (db s'))%nat
  /\ (forall (i : nat) r, db s !! i = Some r ->
        exists r', db s' !! i = Some r' /\ identity_of r' = identity_of r).
Proof.
  cbv zeta. pose proof (run_rows_kept nd cfg envs s) as H.
  split; [exact H|]. split; [now apply rows_kept_length|].
  intros i r. now apply rows_kept_lookup.
Qed.

(** *** The books *)

Lemma recorded_kept f pa t0 ot (n : nat) s s' :
  rows_kept s s' -> recorded f pa t0 ot n s -> recorded f pa t0 ot n s'.
Proof.
  intros Hrows (i & r & Hn & Hi & H1 & H2 & H3 & H4).
  destruct (rows_kept_lookup s s' i r Hrows Hi) as (r' & Hi' & Hid).
  exists i, r'. unfold identity_of in Hid. injection Hid as _ -> -> _ _ -> Hp _ _.
  repeat split; try assumption. destruct ot; [congruence | exact I].
Qed.

Lemma booked_step f pa t0 ot (n : nat) s s' :
  rows_kept s s' ->
  ((n <= length (db s))%nat -> in_flight f pa t0 ot s ->
   in_flight f pa t0 ot s' \/ recorded f pa t0 ot n s') ->
  booked f pa t0 ot n s -> booked f pa t0 ot n s'.
Proof.
  intros Hrows Hstep [Hn [H|H]]; (split; [apply rows_kept_length in Hrows; lia|]).
  - auto.
  - right. now apply (recorded_kept f pa t0 ot n s).
Qed.

Lemma in_flight_same f pa t0 ot s s' :
  waiting s' = waiting s -> seen_in_b s' = seen_in_b s ->
  in_flight f pa t0 ot s -> in_flight f pa t0 ot s'.
Proof. unfold in_flight. now intros -> ->. Qed.

Lemma check_b_file_booked cfg e now g f pa t0 ot (n : nat) s :
  booked f pa t0 ot n s -> booked f pa t0 ot n (snd (check_b_file cfg e now g s)).
Proof.
  apply booked_step; [apply check_b_file_rows|]. intros Hn Hin.
  rewrite check_b_file_cases. cbv zeta.
  destruct (fs s !! _); [|left; now apply (in_flight_same f pa t0 ot s)].
  destruct (seen_in_b s !! g) as [tg|] eqn:Hg.
  2:{ left. destruct Hin as [Hw Hs]. split; [exact Hw|]. destruct ot as [t|]; [|exact I].
      cbn. destruct (decide (g = f)) as [->|Hne]; [congruence|].
      now rewrite lookup_insert_ne. }
  destruct (_ <? _); [left; now apply (in_flight_same f pa t0 ot s)|].
  destruct (archive_file_books cfg e g now (log_event (Exists (path_join (folder_b cfg) g)) s))
    as [(Hw & Hs & _) | (pa' & t0' & tb & Hgw & Hgs & Hw & Hs & Hdb)].
  - left. now apply (in_flight_same f pa t0 ot s).
  - cbn [waiting seen_in_b db last_b_time log_event] in Hgw, Hgs, Hw, Hs, Hdb.
    destruct Hin as [Hfw Hfs].
    destruct (decide (g = f)) as [->|Hne].
    + right. rewrite Hfw in Hgw. injection Hgw as <- <-.
      exists (length (db s)). eexists. split; [exact Hn|]. split.
      * rewrite Hdb. apply list_lookup_middle. reflexivity.
      * cbn. repeat split. destruct ot as [t|]; [congruence | exact I].
    + left. split.
      * rewrite Hw. now rewrite dict_get_del_ne by congruence.
      * destruct ot as [t|]; [|exact I]. rewrite Hs. now rewrite lookup_delete_ne.
Qed.

Lemma run_booked nd cfg envs f pa t0 ot (n : nat) s :
  booked f pa t0 ot n s -> booked f pa t0 ot n (snd (_run nd cfg envs s)).
Proof.
  apply (steps_run nd cfg (fun s1 s2 => booked f pa t0 ot n s1 -> booked f pa t0 ot n s2)).
  - auto.
  - intros s1 s2 Hw Hs Hdb. apply booked_step; [now apply rows_kept_same|].
    intros _ H. left. now apply (in_flight_same f pa t0 ot s1).
  - intros e g s1.
    destruct (scan_a_file_step nd cfg e g s1) as (s2 & -> & Hs & _ & _ & Hdb & _ & _ & Hw).
    cbn [snd]. apply booked_step; [now apply rows_kept_same|].
    intros _ [Hfw Hfs]. left. split.
    + destruct Hw as [-> | (_ & _ & ->)]; [exact Hfw | now apply dict_get_app].
    + now rewrite Hs.
  - intros e now g s1. apply check_b_file_booked.
  - intros e k u s1. apply booked_step; [apply apply_update_rows|].
    intros _ H. left. pose proof (apply_update_frame e k u s1) as (Hw & Hs & _).
    now apply (in_flight_same f pa t0 ot s1).
Qed.

(** X15: a registered file leaves the engine's books in one way only.
    After any run, whatever failed on the way, either the file is still
    registered with the same path and intake time, its first sighting
    unchanged if it had one, or the table has gained a row with its name,
    that path and intake time and, if it had one, that sighting: the dwell
    is never counted anew, and no file is forgotten. *)
Theorem in_flight_until_recorded nd cfg envs s f pa t0 :
  dict_get f (waiting s) = Some (pa, t0) ->
  let s' := snd (_run nd cfg envs s) in
  (dict_get f (waiting s') = Some (pa, t0) \/ recorded f pa t0 None (length (db s)) s')
  /\ (forall t, seen_in_b s !! f = Some t ->
        (dict_get f (waiting s') = Some (pa, t0) /\ seen_in_b s' !! f = Some t)
        \/ recorded f pa t0 (Some t) (length (db s)) s').
Proof.
  intros Hf. cbv zeta. split.
  - assert (H : booked f pa t0 None (length (db s)) s).
    { split; [lia|]. left. split; [exact Hf | exact I]. }
    apply (run_booked nd cfg envs) in H as [_ [[H _]|H]]; auto.
  - intros t Ht.
    assert (H : booked f pa t0 (Some t) (length (db s)) s).
    { split; [lia|]. left. split; [exact Hf | exact Ht]. }
    apply (run_booked nd cfg envs) in H as [_ [H|H]]; auto.
Qed.

Lemma in_flight_until_recorded_witness :
  let s := job1_at_machine (seconds 4) None in
  let pa := path_join (folder_a demo_cfg) job1 in
  let s' := snd (_run ascii_digits demo_cfg [quiet (seconds 424)] s) in
  dict_get job1 (waiting s) = Some (pa, seconds 1)
  /\ (dict_get job1 (waiting s') = Some (pa, seconds 1)
      \/ recorded job1 pa (seconds 1) None (length (db s)) s')
  /\ (forall t, seen_in_b s !! job1 = Some t ->
        (dict_get job1 (waiting s') = Some (pa, seconds 1) /\ seen_in_b s' !! job1 = Some t)
        \/ recorded job1 pa (seconds 1) (Some t) (length (db s)) s').
Proof.
  cbv zeta.
  assert (H : dict_get job1 (waiting (job1_at_machine (seconds 4) None))
              = Some (path_join (folder_a demo_cfg) job1, seconds 1))
    by (vm_compute; reflexivity).
  split; [exact H|].
  exact (in_flight_until_recorded ascii_digits demo_cfg [quiet (seconds 424)]
           (job1_at_machine (seconds 4) None) job1 _ _ H).
Defined.


(** ** The report scan and the table *)

Lemma touched_only_refl names s s' : db s' = db s -> touched_only names s s'.
Proof. intros H. split; [now rewrite H|]. intros i r Hi. exists r. now rewrite H. Qed.

Lemma touched_only_trans names s1 s2 s3 :
  touched_only names s1 s2 -> touched_only names s2 s3 -> touched_only names s1 s3.
Proof.
  intros [Hl1 H1] [Hl2 H2]. split; [congruence|]. intros i r Hi.
  destruct (H1 i r Hi) as (r' & Hi' & Hid & Hsame).
  destruct (H2 i r' Hi') as (r'' & Hi'' & Hid' & Hsame').
  exists r''. split; [exact Hi''|]. split; [congruence|].
  intros Hn. rewrite <- (Hsame Hn). apply Hsame'.
  unfold identity_of in Hid. injection Hid as _ Hname _ _ _ _ _ _ _. now rewrite Hname.
Qed.

Lemma touched_only_weaken names names' s s' :
  (forall nm, In nm names -> In nm names') ->
  touched_only names s s' -> touched_only names' s s'.
Proof.
  intros Hsub [Hl H]. split; [exact Hl|]. intros i r Hi.
  destruct (H i r Hi) as (r' & Hi' & Hid & Hsame). exists r'.
  split; [exact Hi'|]. split; [exact Hid|]. intros Hn. apply Hsame. auto.
Qed.

Lemma apply_update_touch e n mat gru czas name s :
  touched_only [name] s (snd (apply_update e n (mat, gru, czas, name) s))
  /\ line_of (snd (apply_update e n (mat, gru, czas, name) s)) = line_of s.
Proof.
  rewrite apply_update_cases. cbv zeta.
  destruct (update_fails e name); cbn [snd]; (split; [|reflexivity]);
    [now apply touched_only_refl|].
  split; [cbn; apply length_map|]. intros i r Hi. cbn [db set_db log_event].
  change (List.map ?g (db s)) with (g <$> db s). rewrite list_lookup_fmap, Hi.
  cbn [fmap option_fmap option_map]. eexists. split; [reflexivity|].
  destruct (bool_decide_reflect (nazwa r = name)) as [Heq|Hne].
  - split; [reflexivity|]. intros H. contradict H. now left.
  - split; reflexivity.
Qed.

(** The batch touches the rows named by the updates only. *)
Lemma apply_updates_touch e (updates : list update) (n : Z) s :
  touched_only (List.map snd updates) s (snd (for_each updates (apply_update e) n s))
  /\ line_of (snd (for_each updates (apply_update e) n s)) = line_of s.
Proof.
  set (P := fun s1 => touched_only (List.map snd updates) s s1 /\ line_of s1 = line_of s).
  assert (Hbody : forall (k : Z) u s1, In u updates -> P s1 ->
            match apply_update e k u s1 with
            | (Ok _, s2) => P s2
            | (Raise _, s2) => P s2
            end).
  { intros k [[[mat gru] czas] name] s1 Hin [Ht Hl].
    destruct (apply_update_touch e k mat gru czas name s1) as [Ht1 Hl1].
    assert (H2 : P (snd (apply_update e k (mat, gru, czas, name) s1))).
    { split; [|congruence]. apply (touched_only_trans _ s s1); [exact Ht|].
      apply (touched_only_weaken [name]); [|exact Ht1].
      intros nm [<-|[]]. apply in_map_iff. exists (mat, gru, czas, name). auto. }
    destruct (apply_update e k (mat, gru, czas, name) s1) as [[k'|x] s2]; exact H2. }
  pose proof (for_each_inv (fun _ => P) P (apply_update e) updates Hbody n s) as H.
  assert (H0 : P s) by (split; [now apply touched_only_refl | reflexivity]).
  specialize (H H0). destruct (for_each updates (apply_update e) n s) as [[k|x] s1]; exact H.
Qed.

(** The scanning loop collects updates for the ISO names of listed reports
    only, and leaves the line and the table alone. *)
Lemma scan_d_loop_names nd cfg e (files : list str) s :
  match for_each files (scan_d_file nd cfg e) [] s with
  | (Ok updates, s1) =>
      Forall (fun u => exists report, In report files
                         /\ iso_name_of nd report = Some (snd u)) updates
      /\ line_of s1 = line_of s /\ db s1 = db s
  | (Raise _, _) => False
  end.
Proof.
  set (P := fun (updates : list update) s1 =>
         Forall (fun u => exists report, In report files
                            /\ iso_name_of nd report = Some (snd u)) updates
         /\ line_of s1 = line_of s /\ db s1 = db s).
  apply (for_each_inv P (fun _ => False)); [|repeat split; constructor].
  intros updates f s1 Hin (Hu & Hl & Hdb). rewrite scan_d_file_cases. cbv zeta.
  destruct (name_matches nd TXT_PATTERN f); cbn [negb]; [|now repeat split].
  destruct (getmtime_result e _); [|now repeat split].
  destruct (bool_decide _); [now repeat split|].
  destruct (name_search nd ISO_EXTRACT_PATTERN f) as [token|] eqn:Htoken; [|now repeat split].
  destruct (read_result e _) as [content|]; [|now repeat split].
  split; [|now split]. apply List.Forall_app. split; [exact Hu|].
  constructor; [|constructor]. exists f. split; [exact Hin|].
  unfold iso_name_of. now rewrite Htoken.
Qed.

(** What the report scan does, whether it returns or raises. *)
Lemma process_folder_d_touch nd cfg e s :
  exists names,
    touched_only names s (snd (_process_folder_d nd cfg e s))
    /\ line_of (snd (_process_folder_d nd cfg e s)) = line_of s
    /\ Forall (fun nm => exists files report,
                  listdir_result e (folder_d cfg) = LsNames files
                  /\ In report files /\ iso_name_of nd report = Some nm) names.
Proof.
  destruct (_process_folder_d nd cfg e s) as [res s'] eqn:E. cbn [snd]. revert E.
  unfold _process_folder_d, mbind at 1, M_bind at 1.
  destruct (safe_listdir_frame e (folder_d cfg) s) as (r & -> & Hr).
  destruct r as [files|x].
  2:{ intros [= <- <-]. exists []. split; [now apply touched_only_refl|].
      split; [reflexivity | constructor]. }
  assert (Hls : files = [] \/ listdir_result e (folder_d cfg) = LsNames files).
  { destruct (listdir_result e (folder_d cfg));
      [right; congruence | left; congruence | discriminate]. }
  unfold mbind at 1, M_bind at 1.
  pose proof (scan_d_loop_names nd cfg e files (log_event (Listdir (folder_d cfg)) s)) as Hscan.
  destruct (for_each files (scan_d_file nd cfg e) [] _) as [[updates|x] s1]; [|destruct Hscan].
  destruct Hscan as (Hu & Hl & Hdb).
  change (line_of s1 = line_of s) in Hl. change (db s1 = db s) in Hdb.
  assert (Hnames : Forall (fun nm => exists files0 report,
                      listdir_result e (folder_d cfg) = LsNames files0
                      /\ In report files0 /\ iso_name_of nd report = Some nm)
                     (List.map snd updates)).
  { apply List.Forall_map. eapply List.Forall_impl; [|exact Hu].
    intros u (report & Hin & Hname). destruct Hls as [-> | Hls]; [destruct Hin|].
    exists files, report. auto. }
  revert Hnames.
  destruct updates as [|u updates]; cbv beta iota; unfold ret, mret, M_ret.
  - intros Hnames [= <- <-]. exists []. split; [now apply touched_only_refl|].
    split; [exact Hl | exact Hnames].
  - unfold mbind, M_bind. intros Hnames.
    pose proof (apply_updates_touch e (u :: updates) 0 s1) as [Ht Hl2].
    destruct (for_each (u :: updates) (apply_update e) 0 s1) as [[k|x] s2]; cbn [snd] in *.
    all: intros [= <- <-]; exists (List.map snd (u :: updates)).
    all: split; [apply (touched_only_trans _ s s1);
                   [now apply touched_only_refl | exact Ht]|].
    all: split; [congruence | exact Hnames].
Qed.

(** X16: the report scan changes nothing but the three report columns of
    the table (and its own cache): no row is added, removed or moved, every
    row keeps its id, name, paths, times and cycle duration; the files, the
    two dicts and the counters are as before, also when the scan raises. *)
Theorem report_scan_frame nd cfg e s :
  let s' := snd (_process_folder_d nd cfg e s) in
  List.map identity_of (db s') = List.map identity_of (db s)
  /\ fs s' = fs s /\ waiting s' = waiting s /\ seen_in_b s' = seen_in_b s
  /\ last_b_time s' = last_b_time s
  /\ processed s' = processed s /\ errors s' = errors s.
Proof.
  cbv zeta. destruct (process_folder_d_touch nd cfg e s) as (names & [Hlen Ht] & Hl & _).
  split.
  - apply list_eq. intros i.
    change (List.map identity_of ?l) with (identity_of <$> l). rewrite !list_lookup_fmap.
    destruct (db s !! i) as [r|] eqn:Hi.
    + destruct (Ht i r Hi) as (r' & -> & Hid & _). cbn. now rewrite Hid.
    + apply lookup_ge_None in Hi. rewrite <- Hlen in Hi. apply lookup_ge_None in Hi.
      now rewrite Hi.
  - unfold line_of in Hl. injection Hl as -> -> -> -> -> ->. repeat split.
Qed.

(** X17: the report scan changes a row only if a listed report stands for
    its name: the name is the token of some [...#<token>.iso.txt] followed
    by [.iso] in lower case.  A row whose name does not end in lower-case
    [.iso], as that of a file taken in as [JOB.ISO], is never filled in. *)
Theorem report_rows_by_name nd cfg e s (i : nat) r :
  db s !! i = Some r ->
  let s' := snd (_process_folder_d nd cfg e s) in
  (db s' !! i <> Some r ->
   exists files report,
     listdir_result e (folder_d cfg) = LsNames files
     /\ In report files /\ iso_name_of nd report = Some (nazwa r))
  /\ ((forall stem, nazwa r <> stem ++ py ".iso") -> db s' !! i = Some r).
Proof.
  intros Hi. cbv zeta.
  destruct (process_folder_d_touch nd cfg e s) as (names & [_ Ht] & _ & Hnames).
  destruct (Ht i r Hi) as (r' & Hi' & _ & Hsame). rewrite Hi'.
  rewrite List.Forall_forall in Hnames.
  assert (Hdec : In (nazwa r) names \/ r' = r).
  { destruct (in_dec (fun x y : str => decide (x = y)) (nazwa r) names); auto. }
  split.
  - intros Hne. destruct Hdec as [Hin | ->]; [apply Hnames, Hin | congruence].
  - intros Hstem. destruct Hdec as [Hin | ->]; [|reflexivity].
    destruct (Hnames _ Hin) as (files & report & _ & _ & Hname).
    unfold iso_name_of in Hname.
    destruct (name_search nd ISO_EXTRACT_PATTERN report) as [token|]; [|discriminate].
    injection Hname as Hname. symmetry in Hname. now apply Hstem in Hname.
Qed.

Lemma report_rows_by_name_witness :
  let row := mkFileRecord (Some 1) (py "JOB1.ISO") [] [] [] 0 None None None Brak Brak Brak in
  let e := one_report (py "#JOB1.ISO.txt") 5 (Some (py "STEEL-3MM")) in
  let s := init ∅ [row] in
  let s' := snd (_process_folder_d ascii_digits demo_cfg e s) in
  db s !! 0%nat = Some row
  /\ (db s' !! 0%nat <> Some row ->
      exists files report,
        listdir_result e (folder_d demo_cfg) = LsNames files
        /\ In report files /\ iso_name_of ascii_digits report = Some (nazwa row))
  /\ ((forall stem, nazwa row <> stem ++ py ".iso") -> db s' !! 0%nat = Some row).
Proof.
  cbv zeta.
  assert (H : db (init ∅ [mkFileRecord (Some 1) (py "JOB1.ISO") [] [] [] 0 None None None
                           Brak Brak Brak]) !! 0%nat
              = Some (mkFileRecord (Some 1) (py "JOB1.ISO") [] [] [] 0 None None None
                        Brak Brak Brak)) by reflexivity.
  split; [exact H|].
  exact (report_rows_by_name ascii_digits demo_cfg
           (one_report (py "#JOB1.ISO.txt") 5 (Some (py "STEEL-3MM")))
           (init ∅ [mkFileRecord (Some 1) (py "JOB1.ISO") [] [] [] 0 None None None
                      Brak Brak Brak]) 0 _ H).
Defined.


(** X18: a report named [<prefix>#<name>.iso.txt], new or modified since
    it was last seen, fills in every row named [<name>.iso], and no other:
    material and thickness as [_parse_material] reads them from its content,
    the time as [extract_cnc_time] does; and the report is cached. *)
Theorem report_fills_rows nd cfg e s (prefix n content : str) (m : Z) :
  let report := prefix ++ 35%N :: n ++ py ".iso.txt" in
  let path := path_join (folder_d cfg) report in
  ~ In 35%N prefix -> n <> [] -> ~ In 10%N n ->
  listdir_result e (folder_d cfg) = LsNames [report] ->
  getmtime_result e path = Some m -> d_cache s !! report <> Some m ->
  read_result e path = Some content ->
  update_fails e (n ++ py ".iso") = false ->
  let s' := snd (_process_folder_d nd cfg e s) in
  db s' = List.map (fun r =>
            if bool_decide (nazwa r = n ++ py ".iso")
            then with_cnc (fst (_parse_material content)) (snd (_parse_material content))
                   (extract_cnc_time nd content) r
            else r) (db s)
  /\ d_cache s' !! report = Some m
  /\ fst (_process_folder_d nd cfg e s) = Ok tt.
Proof.
  intros report path Hprefix Hn Hlf Hls Hm Hc Hread Hup. cbv zeta.
  destruct (report_name_token nd prefix n Hprefix Hn Hlf) as [Htoken Htxt].
  fold report in Htoken, Htxt.
  destruct (_process_folder_d nd cfg e s) as [res s'] eqn:E. cbn [fst snd]. revert E.
  unfold _process_folder_d, mbind at 1, M_bind at 1.
  destruct (safe_listdir_frame e (folder_d cfg) s) as (r & -> & Hr).
  rewrite Hls in Hr. subst r. cbv beta iota.
  unfold mbind at 1, M_bind at 1. cbn [for_each].
  unfold mbind at 1, M_bind at 1. rewrite scan_d_file_cases. cbv zeta. fold path.
  rewrite Htxt, Hm. cbn [negb d_cache log_event].
  rewrite (bool_decide_eq_false_2 _ Hc), Htoken, Hread.
  unfold mret, M_ret. cbn [app]. cbv beta iota.
  unfold mbind at 1, M_bind at 1. cbn [for_each].
  unfold mbind at 1, M_bind at 1. rewrite apply_update_cases. cbv zeta. rewrite Hup.
  unfold ret, mret, M_ret. intros [= <- <-]. cbn. split; [reflexivity|].
  split; [apply lookup_insert_eq | reflexivity].
Qed.

Lemma report_fills_rows_witness :
  let content := py ("STEEL-3MM" ++ LF ++ "Cycle Time: 01:23:45") in
  let e := one_report report1 5 (Some content) in
  let row := mkFileRecord (Some 1) job1 [] [] [] 0 None None None Brak Brak Brak in
  let s := init ∅ [row] in
  let n := py "job1" in
  let report := [] ++ 35%N :: n ++ py ".iso.txt" in
  let path := path_join (folder_d demo_cfg) report in
  let s' := snd (_process_folder_d ascii_digits demo_cfg e s) in
  ~ In 35%N [] /\ n <> [] /\ ~ In 10%N n
  /\ listdir_result e (folder_d demo_cfg) = LsNames [report]
  /\ getmtime_result e path = Some 5
  /\ d_cache s !! report <> Some 5
  /\ read_result e path = Some content
  /\ update_fails e (n ++ py ".iso") = false
  /\ db s' = List.map (fun r =>
               if bool_decide (nazwa r = n ++ py ".iso")
               then with_cnc (fst (_parse_material content)) (snd (_parse_material content))
                      (extract_cnc_time ascii_digits content) r
               else r) (db s)
  /\ d_cache s' !! report = Some 5
  /\ fst (_process_folder_d ascii_digits demo_cfg e s) = Ok tt.
Proof.
  intros content e row s n report path. cbv zeta.
  assert (H1 : ~ In 35%N []) by (intros []).
  assert (H2 : n <> []) by discriminate.
  assert (H3 : ~ In 10%N n) by (vm_compute; intuition discriminate).
  assert (H4 : listdir_result e (folder_d demo_cfg) = LsNames [report]) by reflexivity.
  assert (H5 : getmtime_result e path = Some 5) by (vm_compute; reflexivity).
  assert (H6 : d_cache s !! report <> Some 5) by (vm_compute; discriminate).
  assert (H7 : read_result e path = Some content) by reflexivity.
  assert (H8 : update_fails e (n ++ py ".iso") = false) by reflexivity.
  repeat (split; [assumption|]).
  exact (report_fills_rows ascii_digits demo_cfg e s [] n content 5 H1 H2 H3 H4 H5 H6 H7 H8).
Defined.

(** ** What an archival does to the files *)

(** X19: an archival touches three paths and no other: the source, the
    temporary and the final path; the copy at the machine stage and every
    other file stay as they are, however the call ends.  When it succeeds
    the source is gone, no temporary is left, and the final path holds the
    source's bytes, in place of whatever file of that name the archive held
    before. *)
Theorem archive_touches_three_paths cfg e f now s pa t0 :
  dict_get f (waiting s) = Some (pa, t0) ->
  pa <> temp_path cfg f -> pa <> path_c cfg f ->
  let s' := snd (_archive_file cfg e f now s) in
  (forall p, p <> pa -> p <> temp_path cfg f -> p <> path_c cfg f ->
     fs s' !! p = fs s !! p)
  /\ (processed s' = processed s + 1 ->
      exists bytes, fs s !! pa = Some bytes
        /\ fs s' !! pa = None /\ fs s' !! temp_path cfg f = None
        /\ fs s' !! path_c cfg f = Some bytes).
Proof.
  intros Hw Hat Hac.
  assert (Htc : temp_path cfg f <> path_c cfg f) by apply temp_path_ne.
  destruct (archive_file_cases cfg e f now s pa t0 Hw Hat Hac) as (s1 & -> & Hcases).
  cbn [snd]. destruct Hcases as [Hdone | [Hearly | Hlate]].
  - destruct Hdone as (pa' & t0' & bytes & tb & Hw' & Hpa & Htb & Hs1).
    rewrite Hw in Hw'. injection Hw' as <- <-. cbv zeta in Hs1. subst s1.
    cbn [fs processed]. split.
    + intros p H1 H2 H3.
      rewrite lookup_delete_ne, lookup_insert_ne, lookup_delete_ne, lookup_insert_ne;
        congruence.
    + intros _. exists bytes. split; [exact Hpa|]. split; [apply lookup_delete_eq|].
      split.
      * rewrite lookup_delete_ne, lookup_insert_ne by congruence. apply lookup_delete_eq.
      * rewrite lookup_delete_ne by congruence. apply lookup_insert_eq.
  - destruct Hearly as (pa' & t0' & Hw' & _ & _ & _ & _ & Hp & _ & _ & Hfs & _).
    split; [intros p _ H2 H3; now apply Hfs | lia].
  - destruct Hlate as (pa' & t0' & bytes & Hw' & Hpa & _ & _ & _ & _ & _ & Hp & _ & _ & Hfs & _).
    rewrite Hw in Hw'. injection Hw' as <- <-. split; [|lia].
    intros p H1 H2 H3. rewrite Hfs.
    rewrite lookup_delete_ne, lookup_insert_ne, lookup_delete_ne, lookup_insert_ne;
      congruence.
Qed.

Lemma archive_touches_three_paths_witness :
  let s := job1_at_machine (seconds 4) None in
  let pa := path_join (folder_a demo_cfg) job1 in
  let s' := snd (_archive_file demo_cfg (quiet (seconds 424)) job1 (seconds 424) s) in
  dict_get job1 (waiting s) = Some (pa, seconds 1)
  /\ pa <> temp_path demo_cfg job1 /\ pa <> path_c demo_cfg job1
  /\ (forall p, p <> pa -> p <> temp_path demo_cfg job1 -> p <> path_c demo_cfg job1 ->
        fs s' !! p = fs s !! p)
  /\ (processed s' = processed s + 1 ->
      exists bytes, fs s !! pa = Some bytes
        /\ fs s' !! pa = None /\ fs s' !! temp_path demo_cfg job1 = None
        /\ fs s' !! path_c demo_cfg job1 = Some bytes).
Proof.
  cbv zeta.
  assert (H1 : dict_get job1 (waiting (job1_at_machine (seconds 4) None))
               = Some (path_join (folder_a demo_cfg) job1, seconds 1))
    by (vm_compute; reflexivity).
  assert (H2 : path_join (folder_a demo_cfg) job1 <> temp_path demo_cfg job1)
    by (vm_compute; discriminate).
  assert (H3 : path_join (folder_a demo_cfg) job1 <> path_c demo_cfg job1)
    by (vm_compute; discriminate).
  split; [exact H1|]. split; [exact H2|]. split; [exact H3|].
  exact (archive_touches_three_paths demo_cfg (quiet (seconds 424)) job1 (seconds 424)
           (job1_at_machine (seconds 4) None) _ _ H1 H2 H3).
Defined.


(** Every id in the table is below the one the next row gets. *)
Lemma max_rowid_above (rows : list FileRecord) (r : FileRecord) (i : Z) :
  In r rows -> id r = Some i -> i < max_rowid rows + 1.
Proof.
  unfold max_rowid. induction rows as [|r' rows IH]; cbn [In fold_right]; [tauto|].
  intros [->|Hin] Hi.
  - rewrite Hi. change (default 0 (Some i)) with i. lia.
  - specialize (IH Hin Hi). lia.
Qed.

(** X28: when nothing fails, the archival succeeds: for a registered and
    sighted file whose source is there, if the copy, the rename, the removal
    of the source and the insert all go through, [_archive_file] returns
    with the entry and the sighting of the file removed, [last_b_time] set,
    [processed] counted up and the error counter as it was; the source and
    the temporary are gone, the final path holds the source's bytes and no
    other file is touched; the calls are those of the move and the insert;
    and the table has one more row, the record of this archival under an id
    above every id in the table. *)
Theorem archive_succeeds_without_faults cfg e f now s pa t0 bytes tb :
  dict_get f (waiting s) = Some (pa, t0) ->
  pa <> temp_path cfg f -> pa <> path_c cfg f ->
  fs s !! pa = Some bytes -> seen_in_b s !! f = Some tb ->
  copy_result_of e (temp_path cfg f) = CopyDone ->
  replace_result_of e (path_c cfg f) = ReplaceDone ->
  remove_fails e pa = false -> insert_fails e f = false ->
  let s' := snd (_archive_file cfg e f now s) in
  let r := archive_record cfg f now pa t0 tb (last_b_time s) in
  fst (_archive_file cfg e f now s) = Ok tt
  /\ waiting s' = dict_del f (waiting s) /\ seen_in_b s' = delete f (seen_in_b s)
  /\ last_b_time s' = Some now /\ d_cache s' = d_cache s
  /\ processed s' = processed s + 1 /\ errors s' = errors s
  /\ fs s' !! pa = None /\ fs s' !! temp_path cfg f = None
  /\ fs s' !! path_c cfg f = Some bytes
  /\ (forall p, p <> pa -> p <> temp_path cfg f -> p <> path_c cfg f ->
                fs s' !! p = fs s !! p)
  /\ events_since s s' = move_events cfg f pa ++ [Insert r]
  /\ exists rowid,
       (forall r' i, In r' (db s) -> id r' = Some i -> i < rowid)
       /\ db s' = db s ++ [with_id rowid r].
Proof.
  intros Hw Hat Hac Hpa Htb Hcopy Hrep Hrm Hins.
  assert (Htc : temp_path cfg f <> path_c cfg f) by apply temp_path_ne.
  assert (Hrun : _archive_file cfg e f now s
                 = (Ok tt,
                    State (dict_del f (waiting s)) (delete f (seen_in_b s))
                      (Some now) (d_cache s) (processed s + 1) (errors s)
                      (delete pa (<[path_c cfg f := bytes]> (delete (temp_path cfg f)
                         (<[temp_path cfg f := bytes]> (fs s)))))
                      (db s ++ [with_id (max_rowid (db s) + 1)
                                  (archive_record cfg f now pa t0 tb (last_b_time s))])
                      (trace s ++ move_events cfg f pa
                         ++ [Insert (archive_record cfg f now pa t0 tb (last_b_time s))]))).
  { unfold _archive_file, archive_record, move_events.
    unfold temp_path in *. fold (path_c cfg f) in *.
    set (pb := path_join (folder_b cfg) f).
    set (pc := path_c cfg f) in *. set (tmp := pc ++ py ".tmp") in *.
    clearbody tmp. clearbody pc. clearbody pb.
    unfold mbind at 1, M_bind at 1, gets at 1. rewrite Hw.
    unfold_os.
    do 12 (cbn; fs_simpl; rewrite ?Hpa, ?Hcopy, ?Hrep, ?Hrm, ?Htb, ?Hins, ?Z.eqb_refl).
    f_equal. apply state_ext; cbn; rewrite <- ?app_assoc; reflexivity. }
  cbv zeta. rewrite Hrun. cbn [fst snd waiting seen_in_b last_b_time d_cache processed errors fs db].
  do 7 (split; [reflexivity|]).
  split; [apply lookup_delete_eq|].
  split; [rewrite lookup_delete_ne, lookup_insert_ne, lookup_delete_eq by congruence;
          reflexivity|].
  split; [rewrite lookup_delete_ne by congruence; apply lookup_insert_eq|].
  split; [intros p H1 H2 H3;
          rewrite lookup_delete_ne, lookup_insert_ne, lookup_delete_ne, lookup_insert_ne
            by congruence; reflexivity|].
  split; [apply events_since_app; reflexivity|].
  exists (max_rowid (db s) + 1). split; [apply max_rowid_above | reflexivity].
Qed.

Lemma archive_succeeds_without_faults_witness :
  let s := job1_at_machine (seconds 4) None in
  let e := quiet (seconds 424) in
  let now := seconds 424 in
  let pa := path_join (folder_a demo_cfg) job1 in
  let s' := snd (_archive_file demo_cfg e job1 now s) in
  let r := archive_record demo_cfg job1 now pa (seconds 1) (seconds 4) (last_b_time s) in
  dict_get job1 (waiting s) = Some (pa, seconds 1)
  /\ pa <> temp_path demo_cfg job1 /\ pa <> path_c demo_cfg job1
  /\ fs s !! pa = Some demo_bytes /\ seen_in_b s !! job1 = Some (seconds 4)
  /\ copy_result_of e (temp_path demo_cfg job1) = CopyDone
  /\ replace_result_of e (path_c demo_cfg job1) = ReplaceDone
  /\ remove_fails e pa = false /\ insert_fails e job1 = false
  /\ fst (_archive_file demo_cfg e job1 now s) = Ok tt
  /\ waiting s' = dict_del job1 (waiting s) /\ seen_in_b s' = delete job1 (seen_in_b s)
  /\ last_b_time s' = Some now /\ d_cache s' = d_cache s
  /\ processed s' = processed s + 1 /\ errors s' = errors s
  /\ fs s' !! pa = None /\ fs s' !! temp_path demo_cfg job1 = None
  /\ fs s' !! path_c demo_cfg job1 = Some demo_bytes
  /\ (forall p, p <> pa -> p <> temp_path demo_cfg job1 -> p <> path_c demo_cfg job1 ->
                fs s' !! p = fs s !! p)
  /\ events_since s s' = move_events demo_cfg job1 pa ++ [Insert r]
  /\ exists rowid,
       (forall r' i, In r' (db s) -> id r' = Some i -> i < rowid)
       /\ db s' = db s ++ [with_id rowid r].
Proof.
  intros s e now pa.
  assert (H1 : dict_get job1 (waiting s) = Some (pa, seconds 1)) by (vm_compute; reflexivity).
  assert (H2 : pa <> temp_path demo_cfg job1) by (vm_compute; discriminate).
  assert (H3 : pa <> path_c demo_cfg job1) by (vm_compute; discriminate).
  assert (H4 : fs s !! pa = Some demo_bytes) by (vm_compute; reflexivity).
  assert (H5 : seen_in_b s !! job1 = Some (seconds 4)) by (vm_compute; reflexivity).
  assert (H6 : copy_result_of e (temp_path demo_cfg job1) = CopyDone) by reflexivity.
  assert (H7 : replace_result_of e (path_c demo_cfg job1) = ReplaceDone) by reflexivity.
  assert (H8 : remove_fails e pa = false) by reflexivity.
  assert (H9 : insert_fails e job1 = false) by reflexivity.
  do 9 (split; [assumption|]).
  exact (archive_succeeds_without_faults demo_cfg e job1 now s pa (seconds 1)
           demo_bytes (seconds 4) H1 H2 H3 H4 H5 H6 H7 H8 H9).
Defined.


(** ** The queries *)

Local Open Scope N_scope.

Lemma like_percent (q t : str) :
  like (37 :: q) t
  = like q t || match t with [] => false | _ :: t' => like (37 :: q) t' end.
Proof. destruct t; reflexivity. Qed.

(** [%] stands for any run of characters. *)
Lemma like_percent_iff (q t : str) :
  like (37 :: q) t = true <-> exists a b, t = a ++ b /\ like q b = true.
Proof.
  induction t as [|c t IH]; rewrite like_percent.
  - rewrite orb_false_r. split.
    + intros H. exists [], []. auto.
    + intros (a & b & Hab & H). symmetry in Hab. apply app_eq_nil in Hab as [-> ->]. exact H.
  - rewrite orb_true_iff, IH. split.
    + intros [H | (a & b & -> & H)]; [exists [], (c :: t); auto | exists (c :: a), b; auto].
    + intros ([|c' a] & b & Hab & H).
      * left. cbn in Hab. now subst b.
      * right. cbn in Hab. injection Hab as -> ->. eauto.
Qed.

Lemma like_other (p : char) (q : str) (t : str) :
  p <> 37 ->
  like (p :: q) t
  = match t with
    | [] => false
    | c :: t' => ((p =? 95) || like_eq p c) && like q t'
    end.
Proof. intros Hp. cbn [like]. now rewrite (proj2 (N.eqb_neq p 37) Hp). Qed.

(** A run of characters that are no wildcards stands for itself, letter
    case apart. *)
Lemma like_literal (p q : str) :
  (forall c, In c p -> c <> 37 /\ c <> 95) ->
  forall t, like (p ++ q) t = true
            <-> exists u rest, t = u ++ rest
                  /\ Forall2 (fun x y => like_eq x y = true) p u /\ like q rest = true.
Proof.
  induction p as [|x p IH]; intros Hp t.
  - cbn [app]. split.
    + intros H. exists [], t. repeat split; [constructor | exact H].
    + intros (u & rest & -> & Hu & H). inversion Hu. exact H.
  - destruct (Hp x (or_introl eq_refl)) as [H37 H95].
    cbn [app]. rewrite like_other by exact H37.
    rewrite (proj2 (N.eqb_neq x 95) H95). cbn [orb]. destruct t as [|c t].
    + split; [discriminate|]. intros (u & rest & Ht & Hu & _).
      inversion Hu; subst. discriminate.
    + rewrite andb_true_iff, IH by (intros c' Hc'; apply Hp; now right). split.
      * intros (Hx & u & rest & -> & Hu & H). exists (c :: u), rest.
        repeat split; [now constructor | exact H].
      * intros (u & rest & Ht & Hu & H). inversion Hu as [|? y ? u' Hy Hu']; subst.
        cbn in Ht. injection Ht as -> ->. split; [exact Hy|].
        exists u', rest. auto.
Qed.

Lemma c_string_id (s : str) : ~ In 0 s -> c_string s = s.
Proof.
  induction s as [|c s IH]; cbn; [reflexivity|]. intros H.
  destruct (N.eqb_spec c 0) as [->|_]; [tauto|]. rewrite IH; tauto.
Qed.

(** A phrase without wildcards finds the names it occurs in. *)
Lemma sql_like_substring (p name : str) :
  (forall c, In c p -> c <> 37 /\ c <> 95 /\ c <> 0) -> ~ In 0 name ->
  sql_like ([37] ++ p ++ [37]) name = true
  <-> exists a u c, name = a ++ u ++ c /\ Forall2 (fun x y => like_eq x y = true) p u.
Proof.
  intros Hp Hname. unfold sql_like.
  rewrite (c_string_id name Hname), c_string_id.
  2:{ cbn [app In]. intros [H|H]; [discriminate|].
      apply in_app_or in H as [H|[H|[]]]; [|discriminate]. now apply Hp in H. }
  cbn [app]. rewrite like_percent_iff. split.
  - intros (a & b & -> & H). apply like_literal in H as (u & rest & -> & Hu & _).
    + eauto.
    + intros c Hc. apply Hp in Hc. tauto.
  - intros (a & u & c & -> & Hu). exists a, (u ++ c). split; [reflexivity|].
    apply like_literal; [intros x Hx; apply Hp in Hx; tauto|].
    exists u, c. repeat split; [exact Hu|]. apply like_percent_iff. exists c, []. 
    split; [now rewrite app_nil_r | reflexivity].
Qed.

Lemma like_eq_refl (c : char) : like_eq c c = true.
Proof. unfold like_eq. now rewrite N.eqb_refl. Qed.

(** Every text matches itself taken as a pattern, wildcards and all, also
    with a [%] after it. *)
Lemma like_self (t q : str) : q = [] \/ q = [37] -> like (t ++ q) t = true.
Proof.
  intros Hq. induction t as [|c t IH].
  - destruct Hq as [-> | ->]; reflexivity.
  - cbn [app]. destruct (N.eqb_spec c 37) as [->|Hne].
    + rewrite like_percent. apply orb_true_iff. right.
      apply like_percent_iff. exists [], t. auto.
    + rewrite like_other by exact Hne. now rewrite like_eq_refl, orb_true_r, IH.
Qed.

Lemma c_string_app (s q : str) :
  ~ In 0 q -> exists q', c_string (s ++ q) = c_string s ++ q' /\ (q' = [] \/ q' = q).
Proof.
  intros Hq. induction s as [|c s IH]; cbn.
  - exists q. split; [now apply c_string_id | now right].
  - destruct (N.eqb_spec c 0); [exists []; auto|].
    destruct IH as (q' & -> & H). exists q'. auto.
Qed.

Lemma sql_like_self (s : str) : sql_like ([37] ++ s ++ [37]) s = true.
Proof.
  unfold sql_like. cbn [app c_string N.eqb].
  destruct (c_string_app s [37]) as (q' & -> & Hq); [intros [H|[]]; discriminate|].
  apply like_percent_iff. exists [], (c_string s). split; [reflexivity|].
  now apply like_self.
Qed.

Lemma get_by_name_rows (p : str) s :
  Database_get_by_name false p s
  = (Ok (List.map (fun r => (sciezka_c r, nazwa r)) (List.filter (name_like p) (db s))), s).
Proof. reflexivity. Qed.

Lemma get_by_name_In (p : str) s (path name : str) :
  In (path, name)
     (List.map (fun r => (sciezka_c r, nazwa r)) (List.filter (name_like p) (db s)))
  <-> exists r, In r (db s) /\ sciezka_c r = path /\ nazwa r = name
                /\ name_like p r = true.
Proof.
  rewrite in_map_iff. split.
  - intros (r & [= <- <-] & Hr%filter_In). exists r. tauto.
  - intros (r & Hr & <- & <- & Hl). exists r. split; [reflexivity|].
    apply filter_In. auto.
Qed.

(** X20: a search phrase without [%], [_] and NUL finds exactly the rows
    whose name holds the phrase somewhere, ASCII letters in either case;
    the query changes nothing. *)
Theorem get_by_name_finds_substring (p : str) s :
  (forall c, In c p -> c <> 37 /\ c <> 95 /\ c <> 0) ->
  exists rows,
    Database_get_by_name false p s = (Ok rows, s)
    /\ forall path name, ~ In 0 name ->
         (In (path, name) rows
          <-> (exists r, In r (db s) /\ sciezka_c r = path /\ nazwa r = name)
              /\ exists a u c, name = a ++ u ++ c
                               /\ Forall2 (fun x y => like_eq x y = true) p u).
Proof.
  intros Hp. eexists. split; [apply get_by_name_rows|].
  intros path name Hname. rewrite get_by_name_In. split.
  - intros (r & Hr & Hpath & Hn & Hl). split; [eauto|].
    unfold name_like in Hl. rewrite Hn in Hl. now apply sql_like_substring in Hl.
  - intros ((r & Hr & Hpath & Hn) & Hsub). exists r. repeat split; try assumption.
    unfold name_like. rewrite Hn. now apply sql_like_substring.
Qed.

Lemma get_by_name_finds_substring_witness :
  let p := py "JOB" in
  let s := init ∅ [mkFileRecord (Some 1%Z) job1 [] [] (py "C\job1.iso") 0%Z None None None
                     Brak Brak Brak] in
  (forall c, In c p -> c <> 37 /\ c <> 95 /\ c <> 0)
  /\ exists rows,
       Database_get_by_name false p s = (Ok rows, s)
       /\ forall path name, ~ In 0 name ->
            (In (path, name) rows
             <-> (exists r, In r (db s) /\ sciezka_c r = path /\ nazwa r = name)
                 /\ exists a u c, name = a ++ u ++ c
                                  /\ Forall2 (fun x y => like_eq x y = true) p u).
Proof.
  cbv zeta.
  assert (H : forall c, In c (py "JOB") -> c <> 37 /\ c <> 95 /\ c <> 0).
  { intros c [<-|[<-|[<-|[]]]]; repeat split; discriminate. }
  split; [exact H|].
  exact (get_by_name_finds_substring (py "JOB") _ H).
Defined.

Lemma like_all_percent (q t : str) :
  Forall (fun c => c = 37) q -> like (37 :: q) t = true.
Proof.
  intros Hq. apply like_percent_iff. exists t, []. split; [now rewrite app_nil_r|].
  induction Hq as [|c q -> _ IH]; [reflexivity|].
  rewrite like_percent. now rewrite IH.
Qed.

Lemma like_underscore (p q u rest : str) :
  (forall x, In x p -> x <> 37) ->
  Forall2 (fun x y => x = 95 \/ like_eq x y = true) p u ->
  like q rest = true -> like (p ++ q) (u ++ rest) = true.
Proof.
  intros Hp Hu Hq. induction Hu as [|x y p u Hxy Hu IH]; [exact Hq|].
  cbn [app]. rewrite like_other by (apply Hp; now left).
  rewrite IH by (intros x' Hx'; apply Hp; now right). rewrite andb_true_r.
  destruct Hxy as [-> | ->]; [reflexivity | apply orb_true_r].
Qed.

(** X21: the search phrase is handed to [LIKE] as it is, so its [%] and
    [_] are wildcards: a phrase of [%] alone finds every row, and an
    underscore in the phrase stands for any one character of the name. *)
Theorem search_phrase_is_a_pattern s :
  (forall (k : nat),
     Database_get_by_name false (repeat 37 k) s
     = (Ok (List.map (fun r => (sciezka_c r, nazwa r)) (db s)), s))
  /\ (forall (p a u c : str) r,
        In r (db s) -> nazwa r = a ++ u ++ c -> ~ In 0 (nazwa r) ->
        (forall x, In x p -> x <> 37 /\ x <> 0) ->
        Forall2 (fun x y => x = 95 \/ like_eq x y = true) p u ->
        exists rows, Database_get_by_name false p s = (Ok rows, s)
                     /\ In (sciezka_c r, nazwa r) rows).
Proof.
  split.
  - intros k. rewrite get_by_name_rows. do 2 f_equal.
    rewrite forallb_filter_id; [reflexivity|]. apply forallb_forall. intros r _.
    unfold name_like, sql_like.
    assert (Hpat : c_string ([37] ++ repeat 37 k ++ [37]) = 37 :: (repeat 37 k ++ [37])).
    { apply c_string_id. cbn [app In]. intros [H|H]; [discriminate|].
      apply in_app_or in H as [H%repeat_spec|[H|[]]]; discriminate. }
    rewrite Hpat. apply like_all_percent. apply List.Forall_app. split.
    + apply List.Forall_forall. intros c. apply repeat_spec.
    + repeat constructor.
  - intros p a u c r Hr Hn H0 Hp Hu. eexists. split; [apply get_by_name_rows|].
    apply get_by_name_In. exists r. repeat split; try assumption.
    unfold name_like, sql_like. rewrite (c_string_id _ H0), c_string_id.
    2:{ cbn [app In]. intros [H|H]; [discriminate|].
        apply in_app_or in H as [H|[H|[]]]; [|discriminate]. now apply Hp in H. }
    rewrite Hn. cbn [app]. apply like_percent_iff. exists a, (u ++ c).
    split; [reflexivity|]. apply like_underscore.
    + intros x Hx. now apply Hp in Hx.
    + exact Hu.
    + apply like_percent_iff. exists c, []. split; [now rewrite app_nil_r | reflexivity].
Qed.

(** *** [Database.search] *)

Lemma not_before_total r1 r2 : not_before r1 r2 = false -> not_before r2 r1 = true.
Proof.
  unfold not_before. destruct (archived_second r1), (archived_second r2);
    try reflexivity; try discriminate.
  intros H%Z.leb_gt. apply Z.leb_le. lia.
Qed.

Lemma not_before_trans r1 r2 r3 :
  not_before r1 r2 = true -> not_before r2 r3 = true -> not_before r1 r3 = true.
Proof.
  unfold not_before. destruct (archived_second r1), (archived_second r2),
    (archived_second r3); try reflexivity; try discriminate.
  intros H1%Z.leb_le H2%Z.leb_le. apply Z.leb_le. lia.
Qed.

Lemma insert_desc_perm r rows : Permutation (insert_desc r rows) (r :: rows).
Proof.
  induction rows as [|r' rows IH]; cbn; [reflexivity|].
  destruct (not_before r' r); [|reflexivity].
  rewrite IH. apply perm_swap.
Qed.

Lemma insert_desc_sorted r rows :
  StronglySorted (fun r1 r2 => not_before r1 r2 = true) rows ->
  StronglySorted (fun r1 r2 => not_before r1 r2 = true) (insert_desc r rows).
Proof.
  induction rows as [|r' rows IH]; intros Hs; cbn.
  - repeat constructor.
  - apply StronglySorted_inv in Hs as [Hs Hall].
    destruct (not_before r' r) eqn:E.
    + constructor; [now apply IH|].
      rewrite (insert_desc_perm r rows). constructor; assumption.
    + apply not_before_total in E. constructor; [now constructor|].
      constructor; [exact E|]. eapply List.Forall_impl; [|exact Hall].
      intros x Hx. now apply (not_before_trans r r' x).
Qed.

Lemma order_by_perm rows : Permutation (order_by_czas_archiwizacji_desc rows) rows.
Proof.
  induction rows as [|r rows IH]; cbn; [reflexivity|].
  now rewrite insert_desc_perm, IH.
Qed.

Lemma order_by_sorted rows :
  StronglySorted (fun r1 r2 => not_before r1 r2 = true)
    (order_by_czas_archiwizacji_desc rows).
Proof.
  induction rows as [|r rows IH]; cbn; [constructor | now apply insert_desc_sorted].
Qed.

(** X22: [Database.search] returns every row whose name matches, each
    once, the most recently archived first and rows never archived last; it
    changes nothing, and when the database raises, so does it. *)
Theorem search_newest_first (p : str) s :
  (exists rows,
     Database_search false p s = (Ok rows, s)
     /\ Permutation rows (List.filter (name_like p) (db s))
     /\ StronglySorted (fun r1 r2 => not_before r1 r2 = true) rows)
  /\ (forall r1 r2,
        not_before r1 r2 = true
        <-> match czas_archiwizacji r2, czas_archiwizacji r1 with
            | None, _ => True
            | Some _, None => False
            | Some t2, Some t1 => (t2 / usec_per_sec <= t1 / usec_per_sec)%Z
            end)
  /\ fst (Database_search true p s) = Raise (Error "sqlite3").
Proof.
  split; [|split; [|reflexivity]].
  - eexists. split; [reflexivity|]. split; [apply order_by_perm | apply order_by_sorted].
  - intros r1 r2. unfold not_before, archived_second.
    destruct (czas_archiwizacji r2), (czas_archiwizacji r1);
      rewrite ?Z.leb_le; split; auto; discriminate.
Qed.

(** X23: a successful insert returns the id of the new row, which is above
    every id in the table, and appends the row; the row is then found by
    both queries under its own name, whatever characters the name holds. *)
Theorem insert_then_find e r s :
  insert_fails e (nazwa r) = false ->
  let s1 := snd (Database_insert e r s) in
  exists rowid : Z,
    fst (Database_insert e r s) = Ok rowid
    /\ (forall r' i, In r' (db s) -> id r' = Some i -> (i < rowid)%Z)
    /\ db s1 = db s ++ [with_id rowid r]
    /\ (exists rows, Database_get_by_name false (nazwa r) s1 = (Ok rows, s1)
                     /\ In (sciezka_c r, nazwa r) rows)
    /\ (exists rows, Database_search false (nazwa r) s1 = (Ok rows, s1)
                     /\ In (with_id rowid r) rows).
Proof.
  intros Hok. cbv zeta. exists (max_rowid (db s) + 1)%Z.
  unfold Database_insert. unfold_os. cbn. rewrite Hok. cbn.
  split; [reflexivity|]. split; [apply max_rowid_above|]. split; [reflexivity|].
  assert (Hin : In (with_id (max_rowid (db s) + 1) r)
                  (List.filter (name_like (nazwa r))
                     (db s ++ [with_id (max_rowid (db s) + 1) r]))).
  { apply filter_In. split; [apply in_or_app; right; now left|].
    unfold name_like. apply sql_like_self. }
  split.
  - eexists. split; [reflexivity|]. cbn [db].
    apply in_map_iff. eexists. split; [|exact Hin]. reflexivity.
  - eexists. split; [reflexivity|]. cbn [db].
    apply (Permutation_in _ (Permutation_sym (order_by_perm _))). exact Hin.
Qed.

Lemma insert_then_find_witness :
  let e := quiet 0%Z in
  let r := mkFileRecord None (py "100%_a.iso") [] [] (py "C\100%_a.iso") 0%Z None None None
             Brak Brak Brak in
  let s := init ∅ [with_id 1 r; with_id 3 r] in
  let s1 := snd (Database_insert e r s) in
  insert_fails e (nazwa r) = false
  /\ exists rowid : Z,
       fst (Database_insert e r s) = Ok rowid
       /\ (forall r' i, In r' (db s) -> id r' = Some i -> (i < rowid)%Z)
       /\ db s1 = db s ++ [with_id rowid r]
       /\ (exists rows, Database_get_by_name false (nazwa r) s1 = (Ok rows, s1)
                        /\ In (sciezka_c r, nazwa r) rows)
       /\ (exists rows, Database_search false (nazwa r) s1 = (Ok rows, s1)
                        /\ In (with_id rowid r) rows).
Proof.
  cbv zeta.
  assert (H : insert_fails (quiet 0%Z) (py "100%_a.iso") = false) by reflexivity.
  split; [exact H|].
  exact (insert_then_find (quiet 0%Z)
           (mkFileRecord None (py "100%_a.iso") [] [] (py "C\100%_a.iso") 0%Z None None None
              Brak Brak Brak)
           (init ∅ [with_id 1 (mkFileRecord None (py "100%_a.iso") [] [] (py "C\100%_a.iso")
                                 0%Z None None None Brak Brak Brak);
                    with_id 3 (mkFileRecord None (py "100%_a.iso") [] [] (py "C\100%_a.iso")
                                 0%Z None None None Brak Brak Brak)]) H).
Defined.

Local Open Scope Z_scope.


(** ** [_restore] *)

Lemma restore_kept_refl cfg d s s' :
  db s' = db s -> waiting s' = waiting s -> seen_in_b s' = seen_in_b s -> fs s' = fs s ->
  restore_kept cfg d s s'.
Proof. intros H1 H2 H3 H4. repeat split; try assumption. intros p b. now rewrite H4. Qed.

Lemma restore_kept_trans cfg d s1 s2 s3 :
  restore_kept cfg d s1 s2 -> restore_kept cfg d s2 s3 -> restore_kept cfg d s1 s3.
Proof.
  intros (H1 & H2 & H3 & H4) (H1' & H2' & H3' & H4').
  repeat split; try congruence. intros p b Hp Hs. apply H4'; [now apply H4 | exact Hs].
Qed.

(** One row: at most one path is written, and it either did not exist or
    is a [_restored_] name. *)
Lemma restore_row_step cfg e d (acc : Z * Z) (irow : nat * (str * str)) s :
  exists r s', restore_row cfg e d acc irow s = (r, s')
    /\ restore_kept cfg d s s'
    /\ match r with
       | Ok (a, b) => a + b = fst acc + snd acc + 1
       | Raise _ => True
       end.
Proof.
  destruct acc as [a b], irow as [i [pc nz]]. unfold restore_row.
  set (pa := path_join (folder_a cfg) nz).
  set (pr := path_join (folder_a cfg) (restored_name d nz i)).
  assert (Hpr : forall s' dst, db s' = db s -> waiting s' = waiting s ->
            seen_in_b s' = seen_in_b s ->
            (fs s !! dst = None \/ dst = pr) ->
            (forall p, p <> dst -> fs s' !! p = fs s !! p) ->
            restore_kept cfg d s s').
  { intros s' dst H1 H2 H3 Hdst Hfs. repeat split; try assumption.
    intros p bytes Hp Hs. rewrite Hfs; [exact Hp|]. intros ->.
    destruct Hdst as [Hnone | ->]; [congruence | now apply (Hs i nz)]. }
  clearbody pa pr.
  unfold_os. cbn. rewrite !bool_decide_is_Some.
  destruct (fs s !! pc) as [bytes|] eqn:Hpc; cbn.
  2:{ do 2 eexists. split; [reflexivity|]. split; [|lia].
      now apply restore_kept_refl. }
  destruct (fs s !! pa) as [old|] eqn:Hpa; cbn; rewrite Hpc; cbn.
  - destruct (copy_result_of e pr); cbn; do 2 eexists; (split; [reflexivity|]);
      (split; [|try lia; exact I]); apply (Hpr _ pr); try reflexivity; auto;
      intros p Hp; cbn; fs_simpl; reflexivity.
  - destruct (copy_result_of e pa); cbn; do 2 eexists; (split; [reflexivity|]);
      (split; [|try lia; exact I]); apply (Hpr _ pa); try reflexivity; auto;
      intros p Hp; cbn; fs_simpl; reflexivity.
Qed.

Lemma restore_loop cfg e d (rows : list (nat * (str * str))) :
  forall (acc : Z * Z) s,
    exists r s', for_each rows (restore_row cfg e d) acc s = (r, s')
      /\ restore_kept cfg d s s'
      /\ match r with
         | Ok (a, b) => a + b = fst acc + snd acc + Z.of_nat (length rows)
         | Raise _ => True
         end.
Proof.
  induction rows as [|irow rows IH]; intros acc s.
  - exists (Ok acc), s. split; [reflexivity|]. split; [now apply restore_kept_refl|].
    destruct acc. cbn. lia.
  - cbn [for_each]. unfold mbind, M_bind.
    destruct (restore_row_step cfg e d acc irow s) as (r & s1 & -> & Hk & Hc).
    destruct r as [[a b]|x].
    + destruct (IH (a, b) s1) as (r2 & s2 & -> & Hk2 & Hc2).
      exists r2, s2. split; [reflexivity|].
      split; [now apply (restore_kept_trans cfg d s s1)|].
      destruct r2 as [[a2 b2]|]; [|exact I]. cbn [fst snd length] in *. lia.
    + exists (Raise x), s1. auto.
Qed.

(** X24: restoring never raises, does nothing without a phrase or without
    the operator's confirmation, and never harms what is there: the table
    and the engine's books are untouched, and every file keeps its content,
    in the archive, at the machine stage and in folder A, save those under a
    [_restored_] name, which a second restore within the same second can
    overwrite.  The two counts of the message add up to the rows found. *)
Theorem restore_keeps_files cfg e d s :
  let s' := snd (_restore cfg e d s) in
  (exists report, fst (_restore cfg e d s) = Ok report
     /\ forall a b, report = Restored a b ->
          a + b = Z.of_nat (length (List.filter (name_like (strip (search_var d))) (db s))))
  /\ (strip (search_var d) = [] \/ askyesno d = false -> s' = s)
  /\ db s' = db s /\ waiting s' = waiting s /\ seen_in_b s' = seen_in_b s
  /\ (forall p bytes, fs s !! p = Some bytes ->
        (forall (i : nat) nazwa, p <> path_join (folder_a cfg) (restored_name d nazwa i)) ->
        fs s' !! p = Some bytes).
Proof.
  cbv zeta.
  assert (H : exists report s',
            _restore cfg e d s = (Ok report, s')
            /\ (forall a b, report = Restored a b ->
                  a + b = Z.of_nat (length (List.filter (name_like (strip (search_var d)))
                                              (db s))))
            /\ (strip (search_var d) = [] \/ askyesno d = false -> s' = s)
            /\ restore_kept cfg d s s').
  { unfold _restore. cbv zeta.
    destruct (strip (search_var d)) as [|c pattern] eqn:Hpat.
    { exists NoPattern, s. split; [reflexivity|]. split; [discriminate|].
      split; [reflexivity | now apply restore_kept_refl]. }
    destruct (askyesno d) eqn:Hyes; cbn [negb].
    2:{ exists NotConfirmed, s. split; [reflexivity|]. split; [discriminate|].
        split; [reflexivity | now apply restore_kept_refl]. }
    unfold try_except, mbind at 1, M_bind at 1.
    destruct (query_fails d).
    { exists RestoreFailed, s. split; [reflexivity|]. split; [discriminate|].
      split; [intros [?|?]; discriminate | now apply restore_kept_refl]. }
    rewrite get_by_name_rows.
    destruct (List.filter (name_like (c :: pattern)) (db s)) as [|r0 found]; cbn [List.map].
    { exists NothingFound, s. split; [reflexivity|]. split; [discriminate|].
      split; [intros [?|?]; discriminate | now apply restore_kept_refl]. }
    unfold mbind, M_bind.
    set (rows := (sciezka_c r0, nazwa r0)
                 :: List.map (fun r => (sciezka_c r, nazwa r)) found).
    destruct (restore_loop cfg e d (combine (seq 0 (length rows)) rows) (0, 0) s)
      as (r & s' & -> & Hk & Hc).
    destruct r as [[a b]|x]; cbn [any_Exception].
    - exists (Restored a b), s'. split; [reflexivity|].
      split; [|split; [intros [?|?]; discriminate | exact Hk]].
      intros a' b' [= <- <-]. rewrite Hc. cbn [fst snd].
      rewrite length_combine, length_seq. subst rows. cbn [length].
      rewrite length_map. lia.
    - exists RestoreFailed, s'. split; [reflexivity|]. split; [discriminate|].
      split; [intros [?|?]; discriminate | exact Hk]. }
  destruct H as (report & s' & -> & Hcount & Hnone & Hdb & Hw & Hs & Hfs).
  cbn [fst snd]. split; [eauto|]. repeat split; assumption.
Qed.


Lemma filter_none {A} (P : A -> bool) (l : list A) :
  (forall x, In x l -> P x = false) -> List.filter P l = [].
Proof.
  induction l as [|a l IH]; intros H; cbn; [reflexivity|].
  rewrite (H a (or_introl eq_refl)). apply IH. intros x Hx. apply H. now right.
Qed.

(** Restoring the one row that matches, when its file is in the archive
    and its name is free in folder A. *)
Lemma restore_one cfg e d s (f : str) r bytes :
  strip (search_var d) = f -> f <> [] -> askyesno d = true -> query_fails d = false ->
  List.filter (name_like f) (db s) = [r] -> nazwa r = f ->
  fs s !! sciezka_c r = Some bytes ->
  fs s !! path_join (folder_a cfg) f = None ->
  copy_result_of e (path_join (folder_a cfg) f) = CopyDone ->
  _restore cfg e d s
  = (Ok (Restored 1 0),
     State (waiting s) (seen_in_b s) (last_b_time s) (d_cache s) (processed s) (errors s)
       (<[path_join (folder_a cfg) f := bytes]> (fs s)) (db s)
       (trace s ++ [Exists (sciezka_c r); Exists (path_join (folder_a cfg) f);
                    Copy2 (sciezka_c r) (path_join (folder_a cfg) f)])).
Proof.
  intros Hstrip Hf Hyes Hq Hrows Hname Hpc Hpa Hcopy.
  unfold _restore. cbv zeta. rewrite Hstrip.
  destruct f as [|c f']; [congruence|].
  rewrite Hyes. cbn [negb]. unfold try_except, mbind at 1, M_bind at 1.
  rewrite Hq, get_by_name_rows, Hrows. cbn [List.map length seq combine for_each].
  unfold mbind at 1, M_bind at 1. unfold mbind at 1, M_bind at 1.
  unfold restore_row. rewrite Hname.
  set (pa := path_join (folder_a cfg) (c :: f')) in *.
  set (pc := sciezka_c r) in *. clearbody pa pc.
  unfold_os. cbn. rewrite !bool_decide_is_Some, Hpc. cbn. rewrite Hpa. cbn.
  rewrite Hpc, Hcopy. cbn. do 2 f_equal.
  apply state_ext; cbn; rewrite <- ?app_assoc; reflexivity.
Qed.

(** X25: what the engine archived, the main window restores: after a
    successful archival of a file whose name matches no earlier row, a
    restore under that name, confirmed, copies the archived file back to the
    path it was taken from, with the bytes it had, and reports one file
    restored; the archive keeps its copy. *)
Theorem archive_then_restore cfg e e' d f now s t0 :
  let pa := path_join (folder_a cfg) f in
  dict_get f (waiting s) = Some (pa, t0) ->
  pa <> temp_path cfg f -> pa <> path_c cfg f ->
  (forall r, In r (db s) -> name_like f r = false) ->
  let s1 := snd (_archive_file cfg e f now s) in
  processed s1 = processed s + 1 ->
  strip (search_var d) = f -> f <> [] -> askyesno d = true -> query_fails d = false ->
  copy_result_of e' pa = CopyDone ->
  let s2 := snd (_restore cfg e' d s1) in
  fst (_restore cfg e' d s1) = Ok (Restored 1 0)
  /\ is_Some (fs s !! pa)
  /\ fs s1 !! pa = None
  /\ fs s2 !! pa = fs s !! pa
  /\ fs s2 !! path_c cfg f = fs s !! pa.
Proof.
  intros pa Hw Hat Hac Hfresh s1 Hp Hstrip Hf Hyes Hq Hcopy. cbv zeta.
  assert (Htc : temp_path cfg f <> path_c cfg f) by apply temp_path_ne.
  subst s1.
  destruct (archive_file_cases cfg e f now s pa t0 Hw Hat Hac) as (s1 & Hrun & Hcases).
  rewrite Hrun in *. cbn [snd] in *.
  destruct Hcases as [Hdone | [Hearly | Hlate]].
  2:{ destruct Hearly as (? & ? & _ & _ & _ & _ & _ & Hp' & _). lia. }
  2:{ destruct Hlate as (? & ? & ? & _ & _ & _ & _ & _ & _ & _ & Hp' & _). lia. }
  destruct Hdone as (pa' & t0' & bytes & tb & Hw' & Hpa & Htb & Hs1).
  rewrite Hw in Hw'. injection Hw' as <- <-. cbv zeta in Hs1.
  set (row := with_id (max_rowid (db s) + 1)
                (archive_record cfg f now pa t0 tb (last_b_time s))) in *.
  assert (Hdb : db s1 = db s ++ [row]) by (rewrite Hs1; reflexivity).
  assert (Hfs : fs s1 = delete pa (<[path_c cfg f := bytes]>
                  (delete (temp_path cfg f) (<[temp_path cfg f := bytes]> (fs s)))))
    by (rewrite Hs1; reflexivity).
  assert (Hpa1 : fs s1 !! pa = None) by (rewrite Hfs; apply lookup_delete_eq).
  assert (Hpc1 : fs s1 !! path_c cfg f = Some bytes).
  { rewrite Hfs, lookup_delete_ne by congruence. apply lookup_insert_eq. }
  clear Hs1 Hrun.
  assert (Hrows : List.filter (name_like f) (db s1) = [row]).
  { rewrite Hdb, List.filter_app, (filter_none _ _ Hfresh). cbn [List.filter app].
    assert (Hrow : name_like f row = true) by apply sql_like_self.
    now rewrite Hrow. }
  rewrite (restore_one cfg e' d s1 f row bytes Hstrip Hf Hyes Hq Hrows eq_refl Hpc1 Hpa1 Hcopy).
  cbn [fst snd fs]. split; [reflexivity|]. split; [rewrite Hpa; eauto|].
  split; [exact Hpa1|]. rewrite Hpa. split; [apply lookup_insert_eq|].
  rewrite lookup_insert_ne by exact Hac. exact Hpc1.
Qed.

Lemma archive_then_restore_witness :
  let cfg := demo_cfg in
  let f := job1 in
  let s := job1_at_machine (seconds 4) None in
  let e := quiet (seconds 424) in
  let d := Dialog (py " job1.iso ") true false (fun _ => py "20240101_000000") in
  let pa := path_join (folder_a cfg) f in
  let s1 := snd (_archive_file cfg e f (seconds 424) s) in
  let s2 := snd (_restore cfg e d s1) in
  dict_get f (waiting s) = Some (pa, seconds 1)
  /\ pa <> temp_path cfg f /\ pa <> path_c cfg f
  /\ (forall r, In r (db s) -> name_like f r = false)
  /\ processed s1 = processed s + 1
  /\ strip (search_var d) = f /\ f <> [] /\ askyesno d = true /\ query_fails d = false
  /\ copy_result_of e pa = CopyDone
  /\ fst (_restore cfg e d s1) = Ok (Restored 1 0)
  /\ is_Some (fs s !! pa)
  /\ fs s1 !! pa = None
  /\ fs s2 !! pa = fs s !! pa
  /\ fs s2 !! path_c cfg f = fs s !! pa.
Proof.
  intros cfg f s e d pa s1 s2.
  assert (H1 : dict_get f (waiting s) = Some (pa, seconds 1)) by (vm_compute; reflexivity).
  assert (H2 : pa <> temp_path cfg f) by (vm_compute; discriminate).
  assert (H3 : pa <> path_c cfg f) by (vm_compute; discriminate).
  assert (H4 : forall r, In r (db s) -> name_like f r = false) by (intros r []).
  assert (H5 : processed s1 = processed s + 1) by (vm_compute; reflexivity).
  assert (H6 : strip (search_var d) = f) by (vm_compute; reflexivity).
  assert (H7 : f <> []) by discriminate.
  assert (H8 : askyesno d = true) by reflexivity.
  assert (H9 : query_fails d = false) by reflexivity.
  assert (H10 : copy_result_of e pa = CopyDone) by reflexivity.
  repeat (split; [assumption|]).
  exact (archive_then_restore cfg e e d f (seconds 424) s (seconds 1)
           H1 H2 H3 H4 H5 H6 H7 H8 H9 H10).
Defined.


(** *** The name of a restored copy *)

Lemma rfind_from_absent (c : char) (s : str) :
  ~ In c s -> forall i found, rfind_from c s i found = found.
Proof.
  induction s as [|x s IH]; intros Hs i found; cbn [rfind_from]; [reflexivity|].
  destruct (N.eqb_spec x c) as [->|_]; [cbn in Hs; tauto|].
  apply IH. cbn in Hs. tauto.
Qed.

Lemma rfind_from_last (c : char) (s1 s2 : str) :
  ~ In c s2 ->
  forall i found, rfind_from c (s1 ++ c :: s2) i found = i + Z.of_nat (length s1).
Proof.
  intros Hs2. induction s1 as [|x s1 IH]; intros i found; cbn [app rfind_from length].
  - rewrite N.eqb_refl, rfind_from_absent by exact Hs2. lia.
  - rewrite IH. lia.
Qed.

Lemma splitext_plain (stem ext : str) :
  (forall c, In c stem -> c <> 92%N /\ c <> 47%N) ->
  (exists c, In c stem /\ c <> 46%N) ->
  (forall c, In c ext -> c <> 46%N /\ c <> 92%N /\ c <> 47%N) ->
  splitext (stem ++ 46%N :: ext) = (stem, 46%N :: ext).
Proof.
  intros Hstem (x & Hx & Hx46) Hext. unfold splitext, rfind. cbv zeta.
  rewrite (rfind_from_last 46%N) by (intros H; apply Hext in H; tauto).
  assert (Hsep : forall c, c = 92%N \/ c = 47%N -> rfind_from c (stem ++ 46%N :: ext) 0 (-1) = -1).
  { intros c Hc. apply rfind_from_absent. intros H. apply in_app_or in H as [H|[H|H]].
    - apply Hstem in H. destruct Hc; subst; tauto.
    - destruct Hc; subst; discriminate.
    - apply Hext in H. destruct Hc; subst; tauto. }
  rewrite !Hsep by auto. change (Z.max (-1) (-1)) with (-1).
  destruct (Z.ltb_spec (-1) (0 + Z.of_nat (length stem))) as [_|]; [|lia].
  replace (Z.to_nat (0 + Z.of_nat (length stem) - (-1 + 1))) with (length stem) by lia.
  replace (Z.to_nat (-1 + 1)) with 0%nat by lia.
  replace (Z.to_nat (0 + Z.of_nat (length stem))) with (length stem) by lia.
  rewrite drop_0, take_app_length, drop_app_length.
  assert (Hdot : existsb (fun c => negb (c =? 46)%N) stem = true).
  { apply existsb_exists. exists x. split; [exact Hx|].
    apply negb_true_iff, N.eqb_neq, Hx46. }
  now rewrite Hdot.
Qed.

(** X27: [os.path.splitext] takes a name apart without losing anything,
    and for a plain file name with an extension the restored copy keeps it:
    [<stem>.<ext>] is restored as [<stem>_restored_<stamp>.<ext>].  A
    restored ISO file is thus an ISO file for the intake scan, which takes
    it in as a new job.  A name that is all extension, as [.iso], has none
    for [splitext]. *)
Theorem restored_name_keeps_extension (nd : char -> bool) (d : dialog)
    (stem ext : str) (i : nat) :
  (forall c, In c stem -> c <> 92%N /\ c <> 47%N) ->
  (exists c, In c stem /\ c <> 46%N) ->
  (forall c, In c ext -> c <> 46%N /\ c <> 92%N /\ c <> 47%N) ->
  (forall p, fst (splitext p) ++ snd (splitext p) = p)
  /\ splitext (stem ++ 46%N :: ext) = (stem, 46%N :: ext)
  /\ restored_name d (stem ++ 46%N :: ext) i
     = stem ++ py "_restored_" ++ stamp d i ++ 46%N :: ext
  /\ (ext = py "iso" ->
      name_matches nd ISO_PATTERN (restored_name d (stem ++ 46%N :: ext) i) = true)
  /\ splitext (py ".iso") = (py ".iso", []).
Proof.
  intros Hstem Hdot Hext.
  pose proof (splitext_plain stem ext Hstem Hdot Hext) as Hsplit.
  assert (Hname : restored_name d (stem ++ 46%N :: ext) i
                  = stem ++ py "_restored_" ++ stamp d i ++ 46%N :: ext).
  { unfold restored_name. now rewrite Hsplit. }
  split; [|split; [exact Hsplit|split; [exact Hname|split; [|reflexivity]]]].
  - intros p. unfold splitext. cbv zeta.
    destruct (_ <? _); [|apply app_nil_r].
    destruct (existsb _ _); [apply take_drop | apply app_nil_r].
  - intros ->. rewrite Hname. apply name_matches_extension.
    exists (stem ++ py "_restored_" ++ stamp d i), (py ".iso"), [].
    split; [|split; [repeat constructor | now left]].
    rewrite app_nil_r, <- !app_assoc. reflexivity.
Qed.

Lemma restored_name_keeps_extension_witness :
  let d := Dialog (py "job1") true false (fun _ => py "20240101_000000") in
  let stem := py "job1" in
  let ext := py "iso" in
  (forall c, In c stem -> c <> 92%N /\ c <> 47%N)
  /\ (exists c, In c stem /\ c <> 46%N)
  /\ (forall c, In c ext -> c <> 46%N /\ c <> 92%N /\ c <> 47%N)
  /\ (forall p, fst (splitext p) ++ snd (splitext p) = p)
  /\ splitext (stem ++ 46%N :: ext) = (stem, 46%N :: ext)
  /\ restored_name d (stem ++ 46%N :: ext) 0
     = stem ++ py "_restored_" ++ stamp d 0%nat ++ 46%N :: ext
  /\ (ext = py "iso" ->
      name_matches ascii_digits ISO_PATTERN (restored_name d (stem ++ 46%N :: ext) 0) = true)
  /\ splitext (py ".iso") = (py ".iso", []).
Proof.
  intros d stem ext.
  assert (H1 : forall c, In c stem -> c <> 92%N /\ c <> 47%N).
  { intros c [<-|[<-|[<-|[<-|[]]]]]; split; discriminate. }
  assert (H2 : exists c, In c stem /\ c <> 46%N).
  { exists 106%N. split; [now left | discriminate]. }
  assert (H3 : forall c, In c ext -> c <> 46%N /\ c <> 92%N /\ c <> 47%N).
  { intros c [<-|[<-|[<-|[]]]]; repeat split; discriminate. }
  split; [exact H1|]. split; [exact H2|]. split; [exact H3|].
  exact (restored_name_keeps_extension ascii_digits d stem ext 0 H1 H2 H3).
Defined.


(** ** [SetupWizard._validate] *)

Lemma size_list_to_set_le (l : list str) :
  (size (list_to_set l : gset str) <= length l)%nat
  /\ (size (list_to_set l : gset str) = length l -> List.NoDup l).
Proof.
  induction l as [|x l [IHle IHeq]]; cbn [list_to_set length].
  - rewrite size_empty. split; [lia | constructor].
  - destruct (decide (x ∈ (list_to_set l : gset str))) as [Hin|Hout].
    + assert (Hsame : ({[x]} ∪ list_to_set l : gset str) = list_to_set l)
        by (apply subseteq_union_1_L, singleton_subseteq_l, Hin).
      rewrite Hsame. split; [lia|]. lia.
    + rewrite size_union by (apply disjoint_singleton_l, Hout).
      rewrite size_singleton. split; [lia|].
      intros H. constructor; [|apply IHeq; lia].
      intros Hx. apply Hout. apply elem_of_list_to_set. now apply list_elem_of_In.
Qed.

(** [find] gives the first element that passes the test. *)
Lemma find_first {A} (f : A -> bool) (l : list A) (x : A) :
  List.find f l = Some x
  <-> exists before after,
        l = before ++ x :: after /\ Forall (fun y => f y = false) before /\ f x = true.
Proof.
  induction l as [|y l IH]; cbn [List.find].
  - split; [discriminate | intros ([|? ?] & ? & [=] & _)].
  - destruct (f y) eqn:Hy.
    + split.
      * intros [= ->]. exists [], l. repeat split; [constructor | exact Hy].
      * intros ([|z before] & after & E & Hb & Hx); cbn in E.
        -- now injection E as ->.
        -- injection E as -> _. apply List.Forall_cons_iff in Hb as [Hz _]. congruence.
    + rewrite IH. split.
      * intros (before & after & -> & Hb & Hx). exists (y :: before), after.
        repeat split; [constructor; assumption | exact Hx].
      * intros ([|z before] & after & E & Hb & Hx); cbn in E.
        -- injection E as -> _. congruence.
        -- injection E as -> ->. apply List.Forall_cons_iff in Hb as [_ Hb]. eauto.
Qed.

(** X26: the set-up wizard lets four folders through exactly when each
    has been chosen, each is a directory, and the four paths are pairwise
    different as strings; it then returns them unchanged.  An unchosen
    folder is reported first; then, in the order a, b, c, d, the first path
    that is no directory, with its key; then a repetition. *)
Theorem validate_spec (isdir : str -> bool) (a b c d : str) :
  let chosen := Forall (fun p => p <> py "Nie wybrano") [a; b; c; d] in
  let present := Forall (fun p => isdir p = true) [a; b; c; d] in
  (forall a' b' c' d',
     _validate isdir a b c d = Valid a' b' c' d'
     <-> (a', b', c', d') = (a, b, c, d) /\ chosen /\ present /\ List.NoDup [a; b; c; d])
  /\ (_validate isdir a b c d = NotChosen <-> ~ chosen)
  /\ (_validate isdir a b c d = NotDistinct
      <-> chosen /\ present /\ ~ List.NoDup [a; b; c; d])
  /\ (forall key path,
        _validate isdir a b c d = NoSuchFolder key path
        <-> chosen
            /\ exists before after,
                 [(py "a", a); (py "b", b); (py "c", c); (py "d", d)]
                 = before ++ (key, path) :: after
                 /\ Forall (fun kv => isdir (snd kv) = true) before
                 /\ isdir path = false).
Proof.
  cbv zeta. unfold _validate. cbv zeta.
  set (paths := [(py "a", a); (py "b", b); (py "c", c); (py "d", d)]).
  assert (Hchosen : existsb (fun kv : str * str => bool_decide (snd kv = py "Nie wybrano")) paths
                    = false
                    <-> Forall (fun p => p <> py "Nie wybrano") [a; b; c; d]).
  { subst paths. cbn [existsb snd]. rewrite !orb_false_iff, !bool_decide_eq_false. split.
    - intros (? & ? & ? & ? & _). repeat constructor; assumption.
    - intros H. repeat (apply List.Forall_cons_iff in H as [? H]). tauto. }
  assert (Hfind : List.find (fun kv : str * str => negb (isdir (snd kv))) paths = None
                  <-> Forall (fun p => isdir p = true) [a; b; c; d]).
  { subst paths. cbn [List.find snd]. split.
    - destruct (isdir a) eqn:Ha, (isdir b) eqn:Hb, (isdir c) eqn:Hc, (isdir d) eqn:Hd;
        cbn [negb]; intros H; try discriminate H; repeat constructor; assumption.
    - intros H. repeat (apply List.Forall_cons_iff in H as [-> H]). reflexivity. }
  assert (Hfirst : forall key path,
            List.find (fun kv : str * str => negb (isdir (snd kv))) paths = Some (key, path)
            <-> exists before after,
                  paths = before ++ (key, path) :: after
                  /\ Forall (fun kv => isdir (snd kv) = true) before
                  /\ isdir path = false).
  { intros key path. rewrite find_first.
    split; intros (before & after & E & Hb & Hx); exists before, after;
      (split; [exact E|]); cbn [snd] in *;
      (split; [|destruct (isdir path); cbn in *; congruence]);
      (eapply List.Forall_impl; [|exact Hb]); intros kv; cbv beta;
      destruct (isdir (snd kv)); cbn; congruence. }
  assert (Hsize : (size (list_to_set (List.map snd paths) : gset str) <? 4)%nat = false
                  <-> List.NoDup [a; b; c; d]).
  { subst paths. cbn [List.map snd]. rewrite Nat.ltb_ge.
    destruct (size_list_to_set_le [a; b; c; d]) as [Hle Heq]. cbn [length] in *. split.
    - intros H. apply Heq. lia.
    - intros H. rewrite size_list_to_set by now apply NoDup_ListNoDup. cbn. lia. }
  clearbody paths.
  destruct (existsb _ paths) eqn:E1.
  { assert (Hn : ~ Forall (fun p => p <> py "Nie wybrano") [a; b; c; d]).
    { intros H. apply Hchosen in H. discriminate. }
    split; [intros a' b' c' d'; split; [discriminate | tauto]|].
    split; [split; [tauto | reflexivity]|].
    split; [split; [discriminate | tauto]|].
    intros key path. split; [discriminate | tauto]. }
  assert (Hc : Forall (fun p => p <> py "Nie wybrano") [a; b; c; d]) by now apply Hchosen.
  destruct (List.find _ paths) as [[key path]|] eqn:E2.
  { assert (Hn : ~ Forall (fun p => isdir p = true) [a; b; c; d]).
    { intros H. apply Hfind in H. discriminate. }
    split; [intros a' b' c' d'; split; [discriminate | tauto]|].
    split; [split; [discriminate | tauto]|].
    split; [split; [discriminate | tauto]|].
    intros key' path'. split.
    - intros [= <- <-]. split; [exact Hc|]. now apply Hfirst.
    - intros [_ H]. apply Hfirst in H. congruence. }
  assert (Hp : Forall (fun p => isdir p = true) [a; b; c; d]) by now apply Hfind.
  assert (Hnone : forall key path,
            ~ exists before after,
                paths = before ++ (key, path) :: after
                /\ Forall (fun kv => isdir (snd kv) = true) before /\ isdir path = false).
  { intros key path H. apply Hfirst in H. discriminate. }
  destruct (size _ <? 4)%nat eqn:E3.
  - assert (Hn : ~ List.NoDup [a; b; c; d]).
    { intros H. apply Hsize in H. discriminate. }
    split; [intros a' b' c' d'; split; [discriminate | tauto]|].
    split; [split; [discriminate | tauto]|].
    split; [tauto|].
    intros key path. split; [discriminate | intros [_ H]; now apply Hnone in H].
  - assert (Hd : List.NoDup [a; b; c; d]) by now apply Hsize.
    split; [intros a' b' c' d'; split; [intros [= <- <- <- <-]; auto | now intros [[= -> -> -> ->] _]]|].
    split; [split; [discriminate | tauto]|].
    split; [split; [discriminate | tauto]|].
    intros key path. split; [discriminate | intros [_ H]; now apply Hnone in H].
Qed.
